(** * Elevoniq data pipeline: a shallow embedding of [src/main.py] and [src/config.py]

    The pipeline logs into Salesforce, exports a fixed list of objects into
    one workbook (or standalone CSV files for large objects), appends timing
    statistics to a CSV file and uploads the files to a Drive folder.

    The embedding keeps the structure of the Python code: the classes'
    attributes become fields of a [World] record, the methods become
    computations in a state-and-exception monad, the [for]/[try] retry loops
    and the [while] pagination loop are written out, and the external
    libraries (simple_salesforce, pandas, the clock, the file system, the
    Drive client) are an interface the development is parametric in: what
    a library call replies is never computed here, only what the code does
    with each possible reply. *)

From stdpp Require Import gmap strings list.
From Stdlib Require Import ZArith Lia.

Set Default Proof Using "Type".
Open Scope Z_scope.

(** ** Python strings and dictionaries *)

Module Py.

(** [sub in s] on strings: [sub] occurs in [s] as a contiguous substring. *)
Fixpoint str_in (sub s : string) : bool :=
  String.prefix sub s ||
  match s with
  | EmptyString => false
  | String _ s' => str_in sub s'
  end.

(** [s.replace(old, new)] for a non-empty [old]: the occurrences of [old]
    are replaced from left to right without overlap.  [skip] counts the
    characters of a matched occurrence that remain to be dropped. *)
Fixpoint str_replace_from (old new : string) (skip : nat) (s : string) : string :=
  match s with
  | EmptyString => EmptyString
  | String c s' =>
      match skip with
      | S k => str_replace_from old new k s'
      | O =>
          if String.prefix old s
          then new +:+ str_replace_from old new (Nat.pred (String.length old)) s'
          else String c (str_replace_from old new O s')
      end
  end.

Definition str_replace (old new s : string) : string :=
  str_replace_from old new O s.

(** [sep.join(parts)] *)
Fixpoint str_join (sep : string) (parts : list string) : string :=
  match parts with
  | [] => ""
  | [p] => p
  | p :: rest => p +:+ sep +:+ str_join sep rest
  end.

(** [s.endswith(suffix)] *)
Definition str_endswith (s suffix : string) : bool :=
  String.prefix (String.rev suffix) (String.rev s).

(** [os.path.join(a, b)] on a POSIX system, for two components. *)
Definition os_path_join (a b : string) : string :=
  if String.prefix "/" b then b
  else if (String.eqb a "" || str_endswith a "/")%bool then a +:+ b
  else a +:+ "/" +:+ b.

(** [x in xs] for a list of strings. *)
Definition list_in (x : string) (xs : list string) : bool :=
  existsb (String.eqb x) xs.

(** A [dict] with string keys, as an association list in insertion order:
    Python dictionaries keep the position of a key that is assigned again
    and only replace its value. *)
Definition dict (V : Type) : Type := list (string * V).

Fixpoint dict_get {V} (d : dict V) (k : string) : option V :=
  match d with
  | [] => None
  | (k', v) :: d' => if String.eqb k k' then Some v else dict_get d' k
  end.

(** [d[k] = v] *)
Fixpoint dict_set {V} (d : dict V) (k : string) (v : V) : dict V :=
  match d with
  | [] => [(k, v)]
  | (k', v') :: d' =>
      if String.eqb k k' then (k', v) :: d' else (k', v') :: dict_set d' k v
  end.

Definition dict_keys {V} (d : dict V) : list string := map fst d.
Definition dict_values {V} (d : dict V) : list V := map snd d.
Definition dict_items {V} (d : dict V) : list (string * V) := d.
Definition dict_has {V} (d : dict V) (k : string) : bool :=
  match dict_get d k with Some _ => true | None => false end.

(** Values found in the JSON records the remote service returns. *)
Inductive value : Type :=
| VNone
| VBool (b : bool)
| VInt (z : Z)
| VStr (s : string).

(** Exceptions (instances of [Exception] and its subclasses): a message,
    and for an exception raised while another one was being handled, that
    other exception ([__context__]). *)
Inductive exc : Type :=
| Exception (msg : string)
| ExceptionDuring (msg : string) (context : exc).

(** [str(e)] *)
Definition exc_msg (e : exc) : string :=
  match e with Exception m | ExceptionDuring m _ => m end.

Definition exc_context (e : exc) : option exc :=
  match e with Exception _ => None | ExceptionDuring _ c => Some c end.

(** The exceptions reachable from [e] through [__context__], [e] first. *)
Fixpoint exc_chain (e : exc) : list exc :=
  match e with
  | Exception _ => [e]
  | ExceptionDuring _ c => e :: exc_chain c
  end.

End Py.

Export Py.

(** ** Configuration ([src/config.py]) *)

Module Config.

Definition STANDARD_FIELDS : list string :=
  [ "Id"; "Name"; "OwnerId"; "CreatedDate"; "LastModifiedDate"; "CreatedById";
    "DeveloperName"; "IsActive"; "SobjectType";
    "BillingStreet"; "BillingCity"; "BillingPostalCode"; "BillingCountry";
    "ShippingStreet"; "ShippingCity"; "ShippingPostalCode"; "ShippingCountry";
    "Phone"; "Email"; "Salutation"; "AccountId"; "Title"; "ContractId"; "OrderId";
    "EndDate"; "EffectiveDate"; "ListPrice"; "OrderItemNumber"; "Product2Id";
    "Quantity"; "ServiceDate"; "UnitPrice"; "TotalPrice"; "Status"; "StageName";
    "ContractName"; "OpportunityId"; "OrderNumber"; "Type";
    "Pricebook2Id"; "RecordTypeId"; "StartDate"; "ContractTerm"; "ExternalId";
    "ProductCode"; "Family"; "IsStandard"; "UseStandardPrice" ].

Definition OBJECT_NAMES : list string :=
  [ "RecordType"; "Account"; "Contact"; "User";
    "Work_Order__c"; "Elevator__c"; "Property__c"; "Property_Unit__c";
    "Elevator_Service_Cost__c"; "Elevator_Document_Check__c";
    "Contract"; "Opportunity"; "Product2"; "Pricebook2"; "PricebookEntry";
    "OpportunityLineItem"; "Order"; "OrderItem";
    "OrderElevatorRelation__c"; "Service_Fulfillment__c";
    "Elevator_Property__c"; "OSI_WorkOrder_Item__c" ].

End Config.

(** ** Data model *)

(** A record of a query result: a JSON object, only ever read with [.get]. *)
Abbreviation record := (gmap string value).

(** A row of [FieldDefinition] metadata, as selected by [get_field_labels]. *)
Record FieldDefinition : Type := mkFieldDefinition {
  QualifiedApiName : string;
  Label : string;
}.

(** The dictionary returned by [query], [query_more] and [query_all]; each
    of the keys the code reads with [.get] may be absent. *)
Record response (T : Type) : Type := mkResponse {
  resp_records : option (list T);
  resp_done : option bool;
  resp_nextRecordsUrl : option string;
}.
Arguments mkResponse {T}.
Arguments resp_records {T}.
Arguments resp_done {T}.
Arguments resp_nextRecordsUrl {T}.

(** [Salesforce(instance=..., session_id=...)] *)
Record Salesforce : Type := mkSalesforce {
  sf_instance : string;
  sf_session_id : string;
}.

Record Statistics : Type := mkStatistics {
  object_name : string;
  start_time : Z;
  end_time : Z;
  duration : Z;
  last_refresh_date : string;
}.

(** A [DataFrame] built from a list of dictionaries: its rows, each a
    dictionary from column name to value, in order. *)
Definition row : Type := dict value.
Definition DataFrame : Type := list row.

(** What a call into an external library does: return or raise. *)
Inductive reply (A : Type) : Type :=
| Returns (a : A)
| Raises (e : exc).
Arguments Returns {A}.
Arguments Raises {A}.

(** Lines written to standard output.  The retry messages also show the
    wait time, a float, which is left out. *)
Inductive message : Type :=
| MsgLoginOk
| MsgLoginRetry (attempt retries : nat) (e : exc)
| MsgExecuting (soql : string)
| MsgQueryRetry (attempt retries : nat) (e : exc)
| MsgProcessing (obj : string)
| MsgStartTime (t : Z)
| MsgSaved (obj : string)
| MsgEndTime (t : Z)
| MsgDuration (d : Z)
| MsgError (obj : string) (reason : string)
| MsgStatisticsSaved (path : string)
| MsgPipelineOk
| MsgPipelineFailed (reason : string).

(** The observable effects of a run, in the order they happen.  A write
    carries the frame that is handed to pandas: what is then on disk or in
    the workbook is up to the library.  [EvAcquire] and [EvRelease] stand
    for taking and releasing a lock; they are part of the vocabulary of
    effects of a task, and no method below performs them. *)
Inductive event : Type :=
| EvLogin
| EvQueryAll (soql : string)
| EvQuery (soql : string)
| EvQueryMore (url : option string)
| EvSleep (base : Z)
| EvPrint (m : message)
| EvToCsv (path : string) (df : DataFrame)
| EvToExcel (sheet_name : string) (df : DataFrame)
| EvReadCsv (path : string)
| EvEnsureFolders
| EvWriterOpen (path : string)
| EvDriveUpload
| EvAcquire
| EvRelease.

(** ** The external libraries *)

(** The services the pipeline calls, as deterministic transitions of an
    environment state [R]: the Salesforce client library, the clock, pandas
    (the constructor of the workbook writer, [to_excel], [to_csv] and
    [read_csv]), the file system, folder creation and the Drive upload
    phase.  Every call but the clock and [os.path.exists] may raise.
    [LOCAL_FOLDER] and [LOG_FILE_NAME] are read from the process
    environment when [config.py] is imported.  [ASYNC_WITH_ERROR] is the
    message of the error that [async with] raises on an object without
    [__aenter__]; its wording depends on the interpreter and on the class
    of the writer. *)
Class Env (R : Type) : Type := {
  LOCAL_FOLDER : string;
  LOG_FILE_NAME : string;
  env_ensure_folders : R -> reply unit * R;
  env_SalesforceLogin : R -> reply (string * string) * R;
  env_query : Salesforce -> string -> R -> reply (response record) * R;
  env_query_more : Salesforce -> option string -> R -> reply (response record) * R;
  env_query_all : Salesforce -> string -> R -> reply (response FieldDefinition) * R;
  env_now : R -> Z * R;
  env_today : R -> string * R;
  env_ExcelWriter : string -> R -> reply unit * R;
  ASYNC_WITH_ERROR : string;
  env_to_excel : string -> DataFrame -> R -> reply unit * R;
  env_to_csv : string -> DataFrame -> R -> reply unit * R;
  env_path_exists : string -> R -> bool * R;
  env_read_csv : string -> R -> reply DataFrame * R;
  env_drive_upload : R -> reply unit * R;
}.

(** ** The state of a run and the monad of its methods *)

Section Pipeline.

Context {R : Type} `{Env R}.

(** [sf] and [statistics] are the attributes of [SalesforceClient].  The
    workbook and the files of the local folder are not part of the state
    of the process: they belong to the environment. *)
Record World : Type := mkWorld {
  env : R;
  sf : option Salesforce;
  statistics : list Statistics;
  trace : list event;
}.

Definition set_env (r : R) (w : World) : World :=
  mkWorld r (sf w) (statistics w) (trace w).
Definition set_sf (s : option Salesforce) (w : World) : World :=
  mkWorld (env w) s (statistics w) (trace w).
Definition set_statistics (l : list Statistics) (w : World) : World :=
  mkWorld (env w) (sf w) l (trace w).
Definition set_trace (t : list event) (w : World) : World :=
  mkWorld (env w) (sf w) (statistics w) t.

(** A method either returns, raises an [Exception], or does not terminate
    within the iterations allowed to its [while] loop. *)
Inductive outcome (A : Type) : Type :=
| Ret (a : A) (w : World)
| Exn (e : exc) (w : World)
| Diverge.
Arguments Ret {A}.
Arguments Exn {A}.
Arguments Diverge {A}.

Definition M (A : Type) : Type := World -> outcome A.

Definition ret {A} (a : A) : M A := fun w => Ret a w.
Definition raise {A} (e : exc) : M A := fun w => Exn e w.
Definition diverge {A} : M A := fun _ => Diverge.

Definition bind {A B} (m : M A) (f : A -> M B) : M B :=
  fun w =>
    match m w with
    | Ret a w' => f a w'
    | Exn e w' => Exn e w'
    | Diverge => Diverge
    end.

(** [try: body  except Exception as e: handler(e)] *)
Definition try_except {A} (body : M A) (handler : exc -> M A) : M A :=
  fun w =>
    match body w with
    | Ret a w' => Ret a w'
    | Exn e w' => handler e w'
    | Diverge => Diverge
    end.

Notation "x <- m ;; k" := (bind m (fun x => k))
  (at level 100, m at next level, right associativity).
Notation "m ;; k" := (bind m (fun _ => k))
  (at level 100, right associativity).

(** *** Primitive effects *)

Definition emit (e : event) : M unit :=
  fun w => Ret tt (set_trace (trace w ++ [e]) w).

Definition print (m : message) : M unit := emit (EvPrint m).

(** [time.sleep(2 ** i + random.uniform(0, 1))]: the event keeps [2 ** i]. *)
Definition sleep_backoff (i : nat) : M unit := emit (EvSleep (2 ^ Z.of_nat i)).

(** A call into an external library: the event is recorded, the
    environment makes its transition, the reply is returned or raised. *)
Definition call {A} (e : event) (f : R -> reply A * R) : M A :=
  fun w =>
    let w1 := set_trace (trace w ++ [e]) w in
    match f (env w) with
    | (Returns a, r') => Ret a (set_env r' w1)
    | (Raises x, r') => Exn x (set_env r' w1)
    end.

(** A call that cannot raise and leaves no event (the clock,
    [os.path.exists]). *)
Definition read {A} (f : R -> A * R) : M A :=
  fun w => let '(a, r') := f (env w) in Ret a (set_env r' w).

(** A method call on [self.sf]; on [None] the attribute lookup raises. *)
Definition on_sf {A} (method : string) (k : Salesforce -> M A) : M A :=
  fun w =>
    match sf w with
    | Some s => k s w
    | None =>
        Exn (Exception ("'NoneType' object has no attribute '" +:+ method +:+ "'")) w
    end.

Definition sf_query (soql : string) : M (response record) :=
  on_sf "query" (fun s => call (EvQuery soql) (env_query s soql)).
Definition sf_query_more (url : option string) : M (response record) :=
  on_sf "query_more" (fun s => call (EvQueryMore url) (env_query_more s url)).
Definition sf_query_all (soql : string) : M (response FieldDefinition) :=
  on_sf "query_all" (fun s => call (EvQueryAll soql) (env_query_all s soql)).

(** [df.to_excel(writer, sheet_name=..., index=False)] *)
Definition to_excel (sheet_name : string) (df : DataFrame) : M unit :=
  call (EvToExcel sheet_name df) (env_to_excel sheet_name df).

(** [df.to_csv(path, index=False)] *)
Definition to_csv (path : string) (df : DataFrame) : M unit :=
  call (EvToCsv path df) (env_to_csv path df).

(** [os.path.exists(path)] *)
Definition os_path_exists (path : string) : M bool :=
  read (env_path_exists path).

(** [pd.read_csv(path)] *)
Definition read_csv (path : string) : M DataFrame :=
  call (EvReadCsv path) (env_read_csv path).

(** *** Retry loops *)

(** The loop shape shared by [login] and [fetch_data]:
<<
    for i in range(retries):
        try:
            return body
        except Exception as e:
            handler(i, e)
    orelse
>>
    *)
Fixpoint for_try {A} (range : list nat) (body : M A)
    (handler : nat -> exc -> M unit) (orelse : M A) : M A :=
  match range with
  | [] => orelse
  | i :: rest =>
      try_except body
        (fun e => handler i e ;; for_try rest body handler orelse)
  end.

(** [SalesforceClient.login] *)
Definition login_attempt : M unit :=
  session <- call EvLogin env_SalesforceLogin ;;
  let '(session_id, instance) := session in
  (fun w => Ret tt (set_sf (Some (mkSalesforce instance session_id)) w)) ;;
  print MsgLoginOk.

(** The [except] block of [login], at attempt [i]. *)
Definition login_except (retries i : nat) (e : exc) : M unit :=
  print (MsgLoginRetry (i + 1)%nat retries e) ;;
  sleep_backoff i.

Definition login : M unit :=
  let retries := 5%nat in
  for_try (seq 0 retries)
    login_attempt
    (login_except retries)
    (raise (Exception "Max retries reached, Salesforce login failed.")).

(** [SalesforceClient.get_field_labels] *)
Definition field_definition_soql (object_name : string) : string :=
  "SELECT QualifiedApiName, Label, ValueTypeId FROM FieldDefinition WHERE EntityDefinition.QualifiedApiName = '"
  +:+ object_name +:+ "'".

(** [response.get('records', [])] *)
Definition get_records {T} (r : response T) : list T :=
  default [] (resp_records r).

Definition retained (qualified_name : string) : bool :=
  list_in qualified_name Config.STANDARD_FIELDS || str_in "__c" qualified_name.

Definition add_field_label (field_label_map : dict string) (field : FieldDefinition)
    : dict string :=
  let qualified_name := QualifiedApiName field in
  if retained qualified_name
  then dict_set field_label_map qualified_name (Label field)
  else field_label_map.

Definition get_field_labels (object_name : string) : M (dict string) :=
  let soql_query := field_definition_soql object_name in
  field_metadata <- sf_query_all soql_query ;;
  ret (fold_left add_field_label (get_records field_metadata) []).

(** [SalesforceClient.fetch_data] *)

(** [not records.get('done')]: a missing key reads as [None], which is falsy. *)
Definition not_done {T} (records : response T) : bool :=
  negb (default false (resp_done records)).

(** The [while not records.get('done')] loop; [fuel] bounds its iterations. *)
Fixpoint query_more_loop (fuel : nat) (records : response record)
    (all_records : list record) (next_records_url : option string)
    : M (list record) :=
  if not_done records then
    match fuel with
    | O => diverge
    | S fuel' =>
        records' <- sf_query_more next_records_url ;;
        query_more_loop fuel' records'
          (all_records ++ get_records records')
          (resp_nextRecordsUrl records')
    end
  else ret all_records.

(** The body of the [try] block of [fetch_data]: one attempt at the whole
    paginated fetch.  [all_records] starts as the record list of the first
    response (the same list object, extended in place); every attempt binds
    it anew. *)
Definition fetch_attempt (fuel : nat) (soql_query : string) : M (list record) :=
  records <- sf_query soql_query ;;
  let all_records := get_records records in
  let next_records_url := resp_nextRecordsUrl records in
  query_more_loop fuel records all_records next_records_url.

Definition select_soql (object_name : string) (fields : list string) : string :=
  "SELECT " +:+ str_join ", " fields +:+ " FROM " +:+ object_name.

(** The [except] block of [fetch_data], at attempt [i]. *)
Definition fetch_except (retries i : nat) (e : exc) : M unit :=
  print (MsgQueryRetry (i + 1)%nat retries e) ;;
  sleep_backoff i.

Definition fetch_data (fuel : nat) (object_name : string) (fields : list string)
    : M (list record) :=
  let soql_query := select_soql object_name fields in
  print (MsgExecuting soql_query) ;;
  let retries := 5%nat in
  for_try (seq 0 retries)
    (fetch_attempt fuel soql_query)
    (fetch_except retries)
    (raise (Exception ("Max retries reached, query failed for " +:+ object_name))).

(** *** The per-object export *)

(** A dictionary comprehension [{k: v for ...}] over the given pairs. *)
Definition dict_of_pairs {V} (kvs : list (string * V)) : dict V :=
  fold_left (fun d kv => dict_set d kv.1 kv.2) kvs [].

(** [{v: k for k, v in field_label_map.items()}] *)
Definition invert_labels (field_label_map : dict string) : dict string :=
  dict_of_pairs (map (fun kv => (kv.2, kv.1)) (dict_items field_label_map)).

(** [{field_label: record.get(field_api, '') for field_label, field_api in
    fieldname_mapping.items()}] *)
Definition make_row (fieldname_mapping : dict string) (rec : record) : row :=
  dict_of_pairs
    (map (fun kv => (kv.1, default (VStr "") (rec !! kv.2)))
         (dict_items fieldname_mapping)).

(** [object_name.replace("__c", "").replace("_", " ")] *)
Definition sheet_name_of (object_name : string) : string :=
  str_replace "_" " " (str_replace "__c" "" object_name).

Definition csv_path_of (object_name : string) : string :=
  os_path_join LOCAL_FOLDER (object_name +:+ ".csv").

(** The [if records:] block. *)
Definition save_records (object_name : string) (field_label_map : dict string)
    (records : list record) : M unit :=
  match records with
  | [] => ret tt
  | _ :: _ =>
      let fieldname_mapping := invert_labels field_label_map in
      let df : DataFrame := map (make_row fieldname_mapping) records in
      (if 1000000 <=? Z.of_nat (length records)
       then to_csv (csv_path_of object_name) df
       else to_excel (sheet_name_of object_name) df) ;;
      print (MsgSaved object_name)
  end.

Definition append_statistics (s : Statistics) : M unit :=
  fun w => Ret tt (set_statistics (statistics w ++ [s]) w).

(** The body of the [try] block of [export_salesforce_object]. *)
Definition export_body (fuel : nat) (object_name : string) (start_time : Z)
    : M unit :=
  field_label_map <- get_field_labels object_name ;;
  let fields := dict_keys field_label_map in
  records <- fetch_data fuel object_name fields ;;
  save_records object_name field_label_map records ;;
  end_time <- read env_now ;;
  let duration := end_time - start_time in
  today <- read env_today ;;
  append_statistics
    (mkStatistics object_name start_time end_time duration today) ;;
  print (MsgEndTime end_time) ;;
  print (MsgDuration duration).

(** [DataPipeline.export_salesforce_object]; [traceback.print_exc()] is
    part of the error report. *)
Definition export_salesforce_object (fuel : nat) (object_name : string) : M unit :=
  start_time <- read env_now ;;
  print (MsgProcessing object_name) ;;
  print (MsgStartTime start_time) ;;
  try_except
    (export_body fuel object_name start_time)
    (fun e => print (MsgError object_name (exc_msg e))).

(** *** Statistics *)

Definition stat_row (stat : Statistics) : row :=
  [ ("Object Name", VStr (object_name stat));
    ("Start Time", VInt (start_time stat));
    ("End Time", VInt (end_time stat));
    ("Duration (Seconds)", VInt (duration stat));
    ("Last Refresh Date", VStr (last_refresh_date stat)) ].

Definition log_file_path : string := os_path_join LOCAL_FOLDER LOG_FILE_NAME.

(** [DataPipeline.save_statistics]; [pd.concat([existing_df, new_df],
    ignore_index=True)] puts the rows of [new_df] after those of
    [existing_df]. *)
Definition save_statistics : M unit :=
  let log_file := log_file_path in
  stats_data <- (fun w => Ret (map stat_row (statistics w)) w) ;;
  exists_ <- os_path_exists log_file ;;
  df <- (if exists_ : bool
         then existing_df <- read_csv log_file ;;
              let new_df : DataFrame := stats_data in
              ret (existing_df ++ new_df)
         else ret stats_data) ;;
  to_csv log_file df ;;
  print (MsgStatisticsSaved log_file).

(** *** Tasks and the event loop *)

(** A coroutine, as the synchronous segments between its suspension points
    ([await] expressions): the event loop switches tasks only there. *)
Definition coroutine : Type := list (M unit).

(** The coroutine object of [export_salesforce_object(obj, writer)]: the
    body of this [async def] has no [await], hence one segment. *)
Definition export_task (fuel : nat) (object_name : string) : coroutine :=
  [export_salesforce_object fuel object_name].

(** One turn of the ready queue: every unfinished task runs its next
    segment, in queue order. *)
Fixpoint run_round (ready : list coroutine) : M (list coroutine) :=
  match ready with
  | [] => ret []
  | [] :: rest => run_round rest
  | (segment :: later) :: rest =>
      segment ;;
      rest' <- run_round rest ;;
      ret (later :: rest')
  end.

Fixpoint event_loop (rounds : nat) (ready : list coroutine) : M unit :=
  match rounds with
  | O => ret tt
  | S n => ready' <- run_round ready ;; event_loop n ready'
  end.

(** [await asyncio.gather] of the given coroutines: they become tasks,
    queued in argument order, and the loop runs until all are finished. *)
Definition gather (coros : list coroutine) : M unit :=
  event_loop (foldr Nat.max O (map length coros)) coros.

(** [async with pd.ExcelWriter(excel_path) as writer: body].  The writer
    is constructed first.  The statement then looks up [__aenter__] and
    [__aexit__] on the class of the writer, before anything of [body] is
    evaluated.  [pd.ExcelWriter] is a context manager for [with] only: it
    defines [__enter__] and [__exit__] and neither of the two asynchronous
    methods, so the lookup raises; the writer is not entered, [body] is
    not run and the writer is not closed. *)
Definition async_with_writer (excel_path : string) (body : M unit) : M unit :=
  call (EvWriterOpen excel_path) (env_ExcelWriter excel_path) ;;
  raise (Exception ASYNC_WITH_ERROR).

(** The export phase of [run], for a list of object names. *)
Definition export_all (fuel : nat) (object_names : list string) : M unit :=
  let excel_path := os_path_join LOCAL_FOLDER "all_data.xlsx" in
  async_with_writer excel_path
    (gather (map (export_task fuel) object_names)).

(** [DataPipeline.run], for the configured [object_names]; the Drive phase
    (authentication, folder lookup, one upload per local file) is one call
    into the environment. *)
Definition run_with (fuel : nat) (object_names : list string) : M unit :=
  try_except
    (call EvEnsureFolders env_ensure_folders ;;
     login ;;
     export_all fuel object_names ;;
     save_statistics ;;
     call EvDriveUpload env_drive_upload ;;
     print MsgPipelineOk)
    (fun e => print (MsgPipelineFailed (exc_msg e))).

Definition run (fuel : nat) : M unit := run_with fuel Config.OBJECT_NAMES.

(** The state in which a new process starts, in the environment the
    previous one left. *)
Definition new_process (r : R) : World :=
  mkWorld r None [] [].

End Pipeline.

Arguments World R : clear implicits.
Arguments outcome R A : clear implicits.
Arguments M R A : clear implicits.
Arguments Ret {R A}.
Arguments Exn {R A}.
Arguments Diverge {R A}.
Arguments mkWorld {R}.

(** ** A scripted environment

    An environment whose replies of the query interface are fixed in
    advance, one queue per operation: each call takes the next reply of its
    queue, and raises once the queue is empty.  The clock advances by one
    second per reading.  [disk] holds the delimited files of the local
    folder as [to_csv] left them; a file is read back as it was written,
    unless it has no row, which [read_csv] refuses.  Every [to_excel] call
    replies [sheets]. *)

Module Mock.

Record Remote : Type := mkSite {
  logins : list (reply (string * string));
  metadata : list (reply (response FieldDefinition));
  queries : list (reply (response record));
  more : list (reply (response record));
  clock : Z;
  disk : dict DataFrame;
  sheets : reply unit;
}.

(** A remote service beside an empty local folder and a writer that
    accepts every sheet. *)
Definition mkRemote logins metadata queries more clock : Remote :=
  mkSite logins metadata queries more clock [] (Returns tt).

Definition unscripted {A} : reply A := Raises (Exception "no scripted reply").

Definition next_login (r : Remote) : reply (string * string) * Remote :=
  match logins r with
  | [] => (unscripted, r)
  | x :: rest =>
      (x, mkSite rest (metadata r) (queries r) (more r) (clock r) (disk r) (sheets r))
  end.

Definition next_metadata (r : Remote) : reply (response FieldDefinition) * Remote :=
  match metadata r with
  | [] => (unscripted, r)
  | x :: rest =>
      (x, mkSite (logins r) rest (queries r) (more r) (clock r) (disk r) (sheets r))
  end.

Definition next_query (r : Remote) : reply (response record) * Remote :=
  match queries r with
  | [] => (unscripted, r)
  | x :: rest =>
      (x, mkSite (logins r) (metadata r) rest (more r) (clock r) (disk r) (sheets r))
  end.

Definition next_more (r : Remote) : reply (response record) * Remote :=
  match more r with
  | [] => (unscripted, r)
  | x :: rest =>
      (x, mkSite (logins r) (metadata r) (queries r) rest (clock r) (disk r) (sheets r))
  end.

Definition tick (r : Remote) : Z * Remote :=
  (clock r,
   mkSite (logins r) (metadata r) (queries r) (more r) (clock r + 1) (disk r)
     (sheets r)).

Definition store (path : string) (df : DataFrame) (r : Remote) : reply unit * Remote :=
  (Returns tt,
   mkSite (logins r) (metadata r) (queries r) (more r) (clock r)
     (dict_set (disk r) path df) (sheets r)).

Definition load (path : string) (r : Remote) : reply DataFrame * Remote :=
  (match dict_get (disk r) path with
   | Some [] => Raises (Exception "No columns to parse from file")
   | Some df => Returns df
   | None => Raises (Exception ("No such file or directory: '" +:+ path +:+ "'"))
   end, r).

(** The same site with another local folder, or another writer. *)
Definition with_disk (files : dict DataFrame) (r : Remote) : Remote :=
  mkSite (logins r) (metadata r) (queries r) (more r) (clock r) files (sheets r).

Definition with_sheets (x : reply unit) (r : Remote) : Remote :=
  mkSite (logins r) (metadata r) (queries r) (more r) (clock r) (disk r) x.

#[global] Instance mock_env : Env Remote := {|
  LOCAL_FOLDER := "files";
  LOG_FILE_NAME := "Pipeline_Logs.csv";
  env_ensure_folders := fun r => (Returns tt, r);
  env_SalesforceLogin := next_login;
  env_query := fun _ _ => next_query;
  env_query_more := fun _ _ => next_more;
  env_query_all := fun _ _ => next_metadata;
  env_now := tick;
  env_today := fun r => ("2025-01-31", r);
  env_ExcelWriter := fun _ r => (Returns tt, r);
  ASYNC_WITH_ERROR :=
    "'OpenpyxlWriter' object does not support the asynchronous context manager protocol";
  env_to_excel := fun _ _ r => (sheets r, r);
  env_to_csv := store;
  env_path_exists := fun path r => (dict_has (disk r) path, r);
  env_read_csv := load;
  env_drive_upload := fun r => (Returns tt, r);
|}.

(** A page of records, the last one or not. *)
Definition page (records : list record) (done : bool) (next : option string)
    : reply (response record) :=
  Returns (mkResponse (Some records) (Some done) next).

Definition fields_reply (fields : list (string * string))
    : reply (response FieldDefinition) :=
  Returns (mkResponse (Some (map (fun f => mkFieldDefinition f.1 f.2) fields))
             (Some true) None).

(** A record with an ["Id"] and a ["Name"]. *)
Definition rec_ (id name : string) : record :=
  <["Id" := VStr id]> (<["Name" := VStr name]> ∅).

Definition connected (r : Remote) : World Remote :=
  mkWorld r (Some (mkSalesforce "instance" "session")) [] [].

End Mock.


(** ** Notions used in the statements *)

Section Notions.

Context {R : Type} `{Env R}.

(** Worlds that agree on everything but the environment and the trace:
    what a method that only talks to the outside leaves behind. *)
Definition frame (w w' : World R) : Prop :=
  sf w' = sf w /\ statistics w' = statistics w.

(** [m] only calls out: whenever it returns or raises, the world is framed
    and the events it added all satisfy [P]. *)
Definition emits {A} (P : event -> Prop) (m : M R A) : Prop :=
  forall w,
    match m w with
    | Ret _ w' | Exn _ w' =>
        frame w w' /\ exists evs, trace w' = trace w ++ evs /\ Forall P evs
    | Diverge => True
    end.

(** Whenever [m] returns or raises, the events it added all satisfy [P]. *)
Definition traces {A} (P : event -> Prop) (m : M R A) : Prop :=
  forall w,
    match m w with
    | Ret _ w' | Exn _ w' => exists evs, trace w' = trace w ++ evs /\ Forall P evs
    | Diverge => True
    end.

(** The first attempts of a retry loop fail: starting in [w], the [body]
    raises the exceptions [es], one per index of [range], each followed by
    its [handler], and the loop is then in [w']. *)
Inductive attempts_fail {A} (body : M R A) (handler : nat -> exc -> M R unit)
    : list nat -> World R -> list exc -> World R -> Prop :=
| attempts_fail_nil w :
    attempts_fail body handler [] w [] w
| attempts_fail_cons i range w e w1 w2 es w3 :
    body w = Exn e w1 ->
    handler i e w1 = Ret tt w2 ->
    attempts_fail body handler range w2 es w3 ->
    attempts_fail body handler (i :: range) w (e :: es) w3.

(** The login service fails with the exceptions [es] on successive calls. *)
Inductive login_fails : R -> list exc -> R -> Prop :=
| login_fails_nil r :
    login_fails r [] r
| login_fails_cons r e r1 es r2 :
    env_SalesforceLogin r = (Raises e, r1) ->
    login_fails r1 es r2 ->
    login_fails r (e :: es) r2.

(** After the response [resp], the service hands out the further [pages]
    through [query_more] and reports completion with the last of them. *)
Inductive serves_pages (s : Salesforce)
    : response record -> R -> list (list record) -> R -> Prop :=
| serves_last resp r :
    not_done resp = false ->
    serves_pages s resp r [] r
| serves_next resp r resp' r' pages r'' :
    not_done resp = true ->
    env_query_more s (resp_nextRecordsUrl resp) r = (Returns resp', r') ->
    serves_pages s resp' r' pages r'' ->
    serves_pages s resp r (get_records resp' :: pages) r''.

(** After the response [resp], the service hands out [n] further pages and
    then fails with [e] on the next [query_more] call. *)
Inductive page_fails (s : Salesforce)
    : nat -> response record -> R -> exc -> R -> Prop :=
| page_fails_now resp r e r' :
    not_done resp = true ->
    env_query_more s (resp_nextRecordsUrl resp) r = (Raises e, r') ->
    page_fails s O resp r e r'
| page_fails_later n resp r resp' r' e r'' :
    not_done resp = true ->
    env_query_more s (resp_nextRecordsUrl resp) r = (Returns resp', r') ->
    page_fails s n resp' r' e r'' ->
    page_fails s (S n) resp r e r''.

(** The computations [ms] one after the other. *)
Definition in_sequence (ms : list (M R unit)) : M R unit :=
  foldr (fun m k => bind m (fun _ => k)) (ret tt) ms.

(** The setup of [run]: the folders and the login. *)
Definition setup : M R unit :=
  bind (call EvEnsureFolders env_ensure_folders) (fun _ => login).

(** The world in which the [except] block of [export_salesforce_object]
    has reported [e]. *)
Definition reported (object_name : string) (e : exc) (w : World R) : World R :=
  set_trace (trace w ++ [EvPrint (MsgError object_name (exc_msg e))]) w.

(** The exports of [object_names] run one after the other, each to
    completion, from [w] to [w']. *)
Inductive serial_run (fuel : nat) : list string -> World R -> World R -> Prop :=
| serial_nil w :
    serial_run fuel [] w w
| serial_cons obj objs w w1 w2 :
    export_salesforce_object fuel obj w = Ret tt w1 ->
    serial_run fuel objs w1 w2 ->
    serial_run fuel (obj :: objs) w w2.

(** [w] once [fetch_data] has announced its query. *)
Definition announced (object_name : string) (fields : list string) (w : World R)
    : World R :=
  set_trace (trace w ++ [EvPrint (MsgExecuting (select_soql object_name fields))]) w.

(** The start of [export_salesforce_object]: the clock is read and the two
    opening lines are printed.  Gives the start time and the world in which
    the [try] block begins. *)
Definition started (object_name : string) (w : World R) : Z * World R :=
  let '(t, r') := env_now (env w) in
  (t, set_trace ((trace w ++ [EvPrint (MsgProcessing object_name)])
                 ++ [EvPrint (MsgStartTime t)]) (set_env r' w)).

(** The end of a successful [try] block of [export_salesforce_object], from
    the world [w] in which the records have been saved: the clock and the
    date are read, the statistics record is appended and the two closing
    lines are printed. *)
Definition completed (object_name : string) (start_time : Z) (w : World R)
    : World R :=
  let '(t, r1) := env_now (env w) in
  let '(today, r2) := env_today r1 in
  mkWorld r2 (sf w)
    (statistics w ++ [mkStatistics object_name start_time t (t - start_time) today])
    ((trace w ++ [EvPrint (MsgEndTime t)]) ++ [EvPrint (MsgDuration (t - start_time))]).

(** The statistics file as a flush that starts in [w] finds it: absent,
    or present and read by pandas as [rows].  [r] is the environment after
    the check and the reading, [evs] the events they leave. *)
Inductive file_found (w : World R) : DataFrame -> R -> list event -> Prop :=
| file_absent r :
    env_path_exists log_file_path (env w) = (false, r) ->
    file_found w [] r []
| file_read r1 rows r :
    env_path_exists log_file_path (env w) = (true, r1) ->
    env_read_csv log_file_path r1 = (Returns rows, r) ->
    file_found w rows r [EvReadCsv log_file_path].

(** The first two steps of the export of [object_name] fail in [w]: the
    field resolution raises [e], or it returns and the fetch raises [e]
    (after its retries, or for want of a connection).  [w'] is the world
    at the raise. *)
Definition remote_failure (fuel : nat) (object_name : string) (w : World R)
    (e : exc) (w' : World R) : Prop :=
  get_field_labels object_name (started object_name w).2 = Exn e w'
  \/ exists field_label_map w1,
       get_field_labels object_name (started object_name w).2
       = Ret field_label_map w1
       /\ fetch_data fuel object_name (dict_keys field_label_map) w1 = Exn e w'.

(** What an export of [records] under [field_label_map] hands to pandas:
    nothing without records, else one frame, to [to_csv] from a million
    records on and to [to_excel] below. *)
Definition handed_over (object_name : string) (field_label_map : dict string)
    (records : list record) : list event :=
  match records with
  | [] => []
  | _ :: _ =>
      let df := map (make_row (invert_labels field_label_map)) records in
      if 1000000 <=? Z.of_nat (length records)
      then [EvToCsv (os_path_join LOCAL_FOLDER (object_name +:+ ".csv")) df]
      else [EvToExcel (str_replace "_" " " (str_replace "__c" "" object_name)) df]
  end.





End Notions.

Definition is_login (e : event) : bool :=
  match e with EvLogin => true | _ => false end.
Definition is_query (e : event) : bool :=
  match e with EvQuery _ => true | _ => false end.
Definition is_query_more (e : event) : bool :=
  match e with EvQueryMore _ => true | _ => false end.
Definition is_write (e : event) : bool :=
  match e with EvToCsv _ _ | EvToExcel _ _ => true | _ => false end.

(** The events of the field resolution and of the fetch: calls to the
    query interface, waits and printed lines. *)
Definition remote_event (e : event) : Prop :=
  match e with
  | EvQueryAll _ | EvQuery _ | EvQueryMore _ | EvSleep _ | EvPrint _ => True
  | _ => False
  end.

(** An event that is neither the taking nor the release of a lock. *)
Definition unlocked (e : event) : Prop := e <> EvAcquire /\ e <> EvRelease.

(** An event that is not a write to the workbook or to a file. *)
Definition quiet (e : event) : Prop := is_write e = false.

(** How many events of a trace satisfy [p]. *)
Definition count_events (p : event -> bool) (tr : list event) : nat :=
  length (filter (fun e => p e = true) tr).

(** The exception [raised] carries [cause]: it is [cause] or has it in its
    chain of contexts. *)
Definition carries (raised cause : exc) : Prop := In cause (exc_chain raised).

(** Every sheet write of the trace happens while a lock is held; [held]
    counts the locks held at the start. *)
Fixpoint writes_locked (held : nat) (tr : list event) : bool :=
  match tr with
  | [] => true
  | EvAcquire :: tr' => writes_locked (S held) tr'
  | EvRelease :: tr' => writes_locked (Nat.pred held) tr'
  | EvToExcel _ _ :: tr' => negb (Nat.eqb held 0) && writes_locked held tr'
  | _ :: tr' => writes_locked held tr'
  end.

(** The sheet name in the words of the specification: the custom-object
    suffix is stripped, then underscores become spaces.  [strip_suffix]
    cuts [s] where what remains of it is the suffix. *)
Fixpoint strip_suffix (suffix s : string) : string :=
  if String.eqb s suffix then ""
  else match s with
       | EmptyString => ""
       | String c s' => String c (strip_suffix suffix s')
       end.

Definition spec_sheet_name (object_name : string) : string :=
  str_replace "_" " " (strip_suffix "__c" object_name).

(** ** Scenarios on the scripted environment *)

Module Scenario.

Import Mock.

Definition no_replies : Remote := mkRemote [] [] [] [] 0.

(** Records. *)
Definition r1 : record := rec_ "001" "Ada".
Definition r2 : record := rec_ "002" "Bob".
Definition r3 : record := rec_ "003" "Cy".
Definition r4 : record := rec_ "004" "Di".
Definition r5 : record := rec_ "005" "Ed".

(** The login service refuses twice, then accepts. *)
Definition login_third_time : Remote :=
  mkRemote [ Raises (Exception "INVALID_LOGIN"); Raises (Exception "timeout");
             Returns ("session-1", "eu1.example") ] [] [] [] 0.

(** The login service refuses five times. *)
Definition login_never : Remote :=
  mkRemote [ Raises (Exception "e1"); Raises (Exception "e2");
             Raises (Exception "e3"); Raises (Exception "e4");
             Raises (Exception "e5") ] [] [] [] 0.

(** The query fails twice, then returns one complete page. *)
Definition query_third_time : Remote :=
  mkRemote [] []
    [ Raises (Exception "timeout"); Raises (Exception "reset");
      page [r1] true None ] [] 0.

(** The query fails five times. *)
Definition query_never : Remote :=
  mkRemote [] []
    [ Raises (Exception "q1"); Raises (Exception "q2"); Raises (Exception "q3");
      Raises (Exception "q4"); Raises (Exception "q5") ] [] 0.

(** Three pages of sizes 2, 2 and 1. *)

Definition three_pages : Remote :=
  mkRemote [] []
    [ page [r1; r2] false (Some "/next-1") ]
    [ page [r3; r4] false (Some "/next-2"); page [r5] true None ] 0.

(** The second page fails once; the service then answers the initial query
    again and hands out both pages. *)
Definition page_two_fails_once : Remote :=
  mkRemote [] []
    [ page [r1; r2] false (Some "/next-1"); page [r1; r2] false (Some "/next-1") ]
    [ Raises (Exception "timeout"); page [r3] true None ] 0.

(** The initial query fails three times and the second page twice: no
    single call fails five times. *)
Definition failures_add_up : Remote :=
  mkRemote [] []
    [ Raises (Exception "q1"); Raises (Exception "q2"); Raises (Exception "q3");
      page [r1; r2] false (Some "/next-1"); page [r1; r2] false (Some "/next-1");
      page [r1; r2] false (Some "/next-1") ]
    [ Raises (Exception "m1"); Raises (Exception "m2"); page [r3] true None ] 0.

(** The field metadata of the specification's example. *)
Definition three_fields : Remote :=
  mkRemote []
    [ fields_reply [("Id", "Record ID"); ("Foo__c", "Foo"); ("RandomField", "Random")] ]
    [] [] 0.

(** An object with one field and no records. *)
Definition empty_object : Remote :=
  mkRemote [] [ fields_reply [("Id", "Record ID")] ] [ page [] true None ] [] 0.

(** An object with two fields and two records on one page. *)
Definition small_object : Remote :=
  mkRemote [] [ fields_reply [("Id", "Record ID"); ("Name", "Full Name")] ]
    [ page [r1; r2] true None ] [] 0.

(** An object with one field and a million records on one page. *)
Definition large_object : Remote :=
  mkRemote [] [ fields_reply [("Id", "Record ID")] ]
    [ page (repeat r1 (Z.to_nat 1000000)) true None ] [] 0.

(** The export of the large object, after its fields are resolved and
    after its records are fetched. *)
Definition large_resolved : World Remote :=
  mkWorld
    (mkRemote [] [] [ page (repeat r1 (Z.to_nat 1000000)) true None ] [] 1)
    (Some (mkSalesforce "instance" "session")) []
    [ EvPrint (MsgProcessing "Big__c"); EvPrint (MsgStartTime 0);
      EvQueryAll (field_definition_soql "Big__c") ].

Definition large_fetched : World Remote :=
  mkWorld (mkRemote [] [] [] [] 1)
    (Some (mkSalesforce "instance" "session")) []
    [ EvPrint (MsgProcessing "Big__c"); EvPrint (MsgStartTime 0);
      EvQueryAll (field_definition_soql "Big__c");
      EvPrint (MsgExecuting "SELECT Id FROM Big__c");
      EvQuery "SELECT Id FROM Big__c" ].

(** Statistics of two runs. *)
Definition stat_a : Statistics := mkStatistics "Account" 0 4 4 "2025-01-30".
Definition stat_b : Statistics := mkStatistics "Contact" 4 9 5 "2025-01-30".
Definition stat_c : Statistics := mkStatistics "Account" 50 53 3 "2025-01-31".

(** The first run starts without a statistics file, the second one in
    the environment the first one left. *)
Definition first_run : World Remote :=
  mkWorld no_replies None [stat_a; stat_b] [].

Definition second_run (r : Remote) : World Remote :=
  mkWorld r None [stat_c] [].

(** The environment after the flush of the first run. *)
Definition after_first_run : Remote :=
  with_disk [("files/Pipeline_Logs.csv", map stat_row [stat_a; stat_b])] no_replies.

(** Two objects with one record each. *)
Definition two_objects : Remote :=
  mkRemote []
    [ fields_reply [("Id", "Record ID")]; fields_reply [("Id", "Record ID")] ]
    [ page [r1] true None; page [r2] true None ] [] 0.


(** The writer refuses the sheet of the small object. *)
Definition sheet_refused : Remote :=
  with_sheets (Raises (Exception "cannot be used in worksheets")) small_object.

End Scenario.

(** ** Further notions *)

(** The waits of a trace, in order, without their jitter. *)
Definition sleeps (tr : list event) : list Z :=
  omap (fun e => match e with EvSleep base => Some base | _ => None end) tr.

(** The waits after failed attempts with the given indices: [2 ** i]. *)
Definition backoff (range : list nat) : list Z :=
  map (fun i => 2 ^ Z.of_nat i) range.

(** The last event of a trace. *)
Definition last_event (tr : list event) : option event := last tr.

(** Events of the export, statistics and upload phases of a run. *)
Definition after_setup (e : event) : bool :=
  match e with
  | EvWriterOpen _ | EvQueryAll _ | EvQuery _ | EvQueryMore _
  | EvToCsv _ _ | EvToExcel _ _ | EvReadCsv _ | EvDriveUpload => true
  | _ => false
  end.

(** Events of what [run] does once the workbook writer is there: the
    exports, the statistics and the upload. *)
Definition past_writer (e : event) : bool :=
  match e with
  | EvQueryAll _ | EvQuery _ | EvQueryMore _
  | EvToCsv _ _ | EvToExcel _ _ | EvReadCsv _ | EvDriveUpload => true
  | _ => false
  end.

(** An environment whose query interface never reports completion: every
    response carries one record and [done = False]. *)
Module Endless.

Definition one_more : reply (response record) :=
  Returns (mkResponse (Some [∅]) (Some false) (Some "/next")).

#[global] Instance endless_env : Env unit := {|
  LOCAL_FOLDER := "files";
  LOG_FILE_NAME := "Pipeline_Logs.csv";
  env_ensure_folders := fun r => (Returns tt, r);
  env_SalesforceLogin := fun r => (Returns ("session", "instance"), r);
  env_query := fun _ _ r => (one_more, r);
  env_query_more := fun _ _ r => (one_more, r);
  env_query_all := fun _ _ r => (Returns (mkResponse (Some []) (Some true) None), r);
  env_now := fun r => (0, r);
  env_today := fun r => ("2025-01-31", r);
  env_ExcelWriter := fun _ r => (Returns tt, r);
  ASYNC_WITH_ERROR := "__aenter__";
  env_to_excel := fun _ _ r => (Returns tt, r);
  env_to_csv := fun _ _ r => (Returns tt, r);
  env_path_exists := fun _ r => (false, r);
  env_read_csv := fun _ r => (Raises (Exception "No such file or directory"), r);
  env_drive_upload := fun r => (Returns tt, r);
|}.

Definition connected : World unit :=
  mkWorld tt (Some (mkSalesforce "instance" "session")) [] [].

End Endless.

Module More.

Import Mock.

(** The metadata query of the object fails. *)
Definition metadata_fails : Remote :=
  mkRemote [] [ Raises (Exception "INVALID_TYPE") ] [] [] 0.

(** No field of the object is retained. *)
Definition no_field_retained : Remote :=
  mkRemote [] [ fields_reply [("RandomField", "Random"); ("Other", "Other")] ]
    [ Raises (Exception "MALFORMED_QUERY") ] [] 0.

(** One object with one record; the login succeeds at once. *)
Definition one_object : Remote :=
  mkRemote [ Returns ("session-1", "eu1.example") ]
    [ fields_reply [("Id", "Record ID")] ] [ page [Scenario.r1] true None ] [] 0.

(** Two fields with the same label. *)
Definition shared_label : dict string :=
  [("Name", "Name"); ("Account_Name__c", "Name")].

Definition named_record : record :=
  <["Name" := VStr "Ada"]> (<["Account_Name__c" := VStr "Acme"]> ∅).

End More.

(** ** The Drive client and the upload phase *)

(** [os.path.basename(p)]: what follows the last ["/"]. *)
Fixpoint os_path_basename (p : string) : string :=
  match p with
  | EmptyString => EmptyString
  | String c rest =>
      if str_in "/" p
      then (if str_in "/" rest then os_path_basename rest else rest)
      else p
  end.

(** The constants of [config.py] that the Drive client reads. *)
Module DriveConfig.
Definition CREDENTIALS_FILE : string := "credentials/google.json".
End DriveConfig.

(** What [authenticate] reads of a credentials object. *)
Record Credentials : Type := mkCredentials {
  cred_valid : bool;
  cred_expired : bool;
  cred_refresh_token : option string;
}.

(** The service object built from credentials. *)
Record Service : Type := mkService {
  service_credentials : Credentials;
}.

(** Truth value of an optional string: [None] and [""] are false. *)
Definition truthy (o : option string) : bool :=
  match o with
  | Some s => negb (String.eqb s "")
  | None => false
  end.

(** [str(x)] for an optional string inside an f-string. *)
Definition str_of (o : option string) : string := default "None" o.

Definition newline : string := String (Ascii.ascii_of_nat 10) "".

Inductive drive_event : Type :=
| DvPathExists (path : string)
| DvLoadCredentials (path : string)
| DvRefresh
| DvFlow (path : string)
| DvWriteToken (path : string) (creds : Credentials)
| DvBuild (creds : Credentials)
| DvList (q : string)
| DvCreateFolder (name : string)
| DvMedia (path : string)
| DvUpdate (file_id : string)
| DvCreate (name : string) (parent : option string)
| DvListDir (path : string)
| DvPrint (line : string).

(** The Google client libraries and the local file system, as
    transitions of a state [D].  A listing is the value under ['files'] of
    the result, if the key is there; its entries are dictionaries. *)
Class DriveApi (D : Type) : Type := {
  DRIVE_FOLDER_NAME : string;
  gd_path_exists : string -> D -> bool * D;
  gd_from_authorized_user_file : string -> D -> reply Credentials * D;
  gd_refresh : Credentials -> D -> reply Credentials * D;
  gd_run_flow : string -> D -> reply Credentials * D;
  gd_write_token : string -> Credentials -> D -> reply unit * D;
  gd_build : Credentials -> D -> reply Service * D;
  gd_list : Service -> string -> D -> reply (option (list (dict string))) * D;
  gd_create_folder : Service -> string -> D -> reply (dict string) * D;
  gd_media : string -> D -> reply unit * D;
  gd_update : Service -> string -> D -> reply unit * D;
  gd_create : Service -> string -> option string -> D -> reply unit * D;
  gd_listdir : string -> D -> reply (list string) * D;
  gd_now : D -> Z * D;
  gd_format_exc : exc -> string;
}.

Section DriveClient.

Context {D : Type} `{DriveApi D}.

(** [service] and [folder_id] are the attributes of [GoogleDriveClient],
    [logs] the one of [DataPipeline]. *)
Record DriveState : Type := mkDriveState {
  gd_env : D;
  service : option Service;
  folder_id : option string;
  logs : list (dict value);
  gd_trace : list drive_event;
}.

Inductive dres (A : Type) : Type :=
| DRet (a : A) (s : DriveState)
| DExn (e : exc) (s : DriveState).
Arguments DRet {A}.
Arguments DExn {A}.

Definition DM (A : Type) : Type := DriveState -> dres A.

Definition dret {A} (a : A) : DM A := fun s => DRet a s.
Definition draise {A} (e : exc) : DM A := fun s => DExn e s.

Definition dbind {A B} (m : DM A) (f : A -> DM B) : DM B :=
  fun s =>
    match m s with
    | DRet a s' => f a s'
    | DExn e s' => DExn e s'
    end.

Definition dtry {A} (body : DM A) (handler : exc -> DM A) : DM A :=
  fun s =>
    match body s with
    | DRet a s' => DRet a s'
    | DExn e s' => handler e s'
    end.

Notation "x <- m ;; k" := (dbind m (fun x => k))
  (at level 100, m at next level, right associativity).
Notation "m ;; k" := (dbind m (fun _ => k))
  (at level 100, right associativity).

Definition dcall {A} (e : drive_event) (f : D -> reply A * D) : DM A :=
  fun s =>
    let tr := gd_trace s ++ [e] in
    match f (gd_env s) with
    | (Returns a, d') => DRet a (mkDriveState d' (service s) (folder_id s) (logs s) tr)
    | (Raises x, d') => DExn x (mkDriveState d' (service s) (folder_id s) (logs s) tr)
    end.

Definition dnow : DM Z :=
  fun s =>
    let '(t, d') := gd_now (gd_env s) in
    DRet t (mkDriveState d' (service s) (folder_id s) (logs s) (gd_trace s)).

Definition dprint (line : string) : DM unit :=
  fun s =>
    DRet tt (mkDriveState (gd_env s) (service s) (folder_id s) (logs s)
               (gd_trace s ++ [DvPrint line])).

Definition set_service (svc : Service) : DM unit :=
  fun s => DRet tt (mkDriveState (gd_env s) (Some svc) (folder_id s) (logs s) (gd_trace s)).

Definition set_folder_id (id : string) : DM unit :=
  fun s => DRet tt (mkDriveState (gd_env s) (service s) (Some id) (logs s) (gd_trace s)).

Definition append_log (log : dict value) : DM unit :=
  fun s =>
    DRet tt (mkDriveState (gd_env s) (service s) (folder_id s) (logs s ++ [log])
               (gd_trace s)).

(** [self.service.files()]: on [None] the attribute lookup raises. *)
Definition on_service {A} (k : Service -> DM A) : DM A :=
  fun s =>
    match service s with
    | Some svc => k svc s
    | None => DExn (Exception "'NoneType' object has no attribute 'files'") s
    end.

(** [d['id']] on a dictionary of a Drive result. *)
Definition item_id (d : dict string) : DM string :=
  match dict_get d "id" with
  | Some id => dret id
  | None => draise (Exception "'id'")
  end.

(** The [InstalledAppFlow] branch of [authenticate]. *)
Definition run_flow : DM Credentials :=
  dcall (DvFlow DriveConfig.CREDENTIALS_FILE)
    (gd_run_flow DriveConfig.CREDENTIALS_FILE).

(** [GoogleDriveClient.authenticate] *)
Definition authenticate : DM unit :=
  exists_ <- (fun s =>
      let '(b, d') := gd_path_exists DriveConfig.CREDENTIALS_FILE (gd_env s) in
      DRet b (mkDriveState d' (service s) (folder_id s) (logs s)
                (gd_trace s ++ [DvPathExists DriveConfig.CREDENTIALS_FILE]))) ;;
  creds <- (if exists_ : bool
            then c <- dcall (DvLoadCredentials DriveConfig.CREDENTIALS_FILE)
                        (gd_from_authorized_user_file DriveConfig.CREDENTIALS_FILE) ;;
                 dret (Some c)
            else dret None) ;;
  creds <- (match creds with
            | Some c =>
                if cred_valid c then dret c
                else
                  c' <- (if cred_expired c && truthy (cred_refresh_token c)
                         then dcall DvRefresh (gd_refresh c)
                         else run_flow) ;;
                  dcall (DvWriteToken DriveConfig.CREDENTIALS_FILE c')
                    (gd_write_token DriveConfig.CREDENTIALS_FILE c') ;;
                  dret c'
            | None =>
                c' <- run_flow ;;
                dcall (DvWriteToken DriveConfig.CREDENTIALS_FILE c')
                  (gd_write_token DriveConfig.CREDENTIALS_FILE c') ;;
                dret c'
            end) ;;
  svc <- dcall (DvBuild creds) (gd_build creds) ;;
  set_service svc ;;
  dprint "Google Drive authentication successful!".

Definition folder_query : string :=
  "name='" +:+ DRIVE_FOLDER_NAME
  +:+ "' and mimeType='application/vnd.google-apps.folder' and trashed=false".

(** [GoogleDriveClient.get_or_create_folder] *)
Definition get_or_create_folder : DM unit :=
  let query := folder_query in
  results <- on_service (fun svc => dcall (DvList query) (gd_list svc query)) ;;
  let folders := default [] results in
  match folders with
  | first :: _ =>
      id <- item_id first ;;
      set_folder_id id
  | [] =>
      folder <- on_service (fun svc =>
                  dcall (DvCreateFolder DRIVE_FOLDER_NAME)
                    (gd_create_folder svc DRIVE_FOLDER_NAME)) ;;
      id <- item_id folder ;;
      set_folder_id id
  end.

Definition file_query (file_name : string) (folder : option string) : string :=
  "name='" +:+ file_name +:+ "' and '" +:+ str_of folder
  +:+ "' in parents and trashed=false".

(** The [try] block of [upload_file], up to the end of the Drive calls. *)
Definition upload_calls (file_path file_name : string) : DM unit :=
  folder <- (fun s => DRet (folder_id s) s) ;;
  let query := file_query file_name folder in
  results <- on_service (fun svc => dcall (DvList query) (gd_list svc query)) ;;
  files <- (match results with
            | Some files => dret files
            | None => draise (Exception "'files'")
            end) ;;
  file_id <- (match files with
              | first :: _ => id <- item_id first ;; dret (Some id)
              | [] => dret None
              end) ;;
  dcall (DvMedia file_path) (gd_media file_path) ;;
  if truthy file_id
  then on_service (fun svc =>
         dcall (DvUpdate (str_of file_id)) (gd_update svc (str_of file_id)))
  else on_service (fun svc =>
         dcall (DvCreate file_name folder) (gd_create svc file_name folder)).

(** [log.update({...})] with the four closing entries. *)
Definition close_log (log : dict value) (start_time end_time : Z)
    (success : bool) (message : string) : dict value :=
  dict_set (dict_set (dict_set (dict_set log
    "End Date Time" (VInt end_time))
    "Duration (seconds)" (VInt (end_time - start_time)))
    "Is Success" (VBool success))
    "Message" (VStr message).

(** [GoogleDriveClient.upload_file] *)
Definition upload_file (file_path : string) : DM (dict value) :=
  let file_name := os_path_basename file_path in
  start_time <- dnow ;;
  let log := [ ("Object Name", VStr file_name);
               ("Operation", VStr "Upload Data");
               ("Start Date Time", VInt start_time) ] in
  dtry
    (upload_calls file_path file_name ;;
     end_time <- dnow ;;
     dret (close_log log start_time end_time true
             ("File '" +:+ file_name +:+ "' uploaded successfully.")))
    (fun e =>
       end_time <- dnow ;;
       dret (close_log log start_time end_time false
               ("Error: " +:+ exc_msg e +:+ newline +:+ "Traceback: "
                +:+ gd_format_exc e))).

(** [filename.endswith(('.xlsx', '.csv'))] *)
Definition is_upload (filename : string) : bool :=
  str_endswith filename ".xlsx" || str_endswith filename ".csv".

(** The [for filename in os.listdir(...)] loop of [run]; [local_folder] is
    [Config.LOCAL_FOLDER]. *)
Fixpoint upload_each (local_folder : string) (filenames : list string) : DM unit :=
  match filenames with
  | [] => dret tt
  | filename :: rest =>
      (if is_upload filename
       then
         let file_path := os_path_join local_folder filename in
         log <- upload_file file_path ;;
         append_log log
       else dret tt) ;;
      upload_each local_folder rest
  end.

(** The upload phase of [run], from the authentication to the closing
    line. *)
Definition upload_phase (local_folder : string) : DM unit :=
  authenticate ;;
  get_or_create_folder ;;
  filenames <- dcall (DvListDir local_folder) (gd_listdir local_folder) ;;
  upload_each local_folder filenames ;;
  dprint "Pipeline completed successfully!".

(** The Drive calls of a trace that write a file. *)
Definition is_drive_write (e : drive_event) : bool :=
  match e with DvUpdate _ | DvCreate _ _ => true | _ => false end.

Definition drive_writes (tr : list drive_event) : list drive_event :=
  List.filter is_drive_write tr.

Definition is_token_write (e : drive_event) : bool :=
  match e with DvWriteToken _ _ => true | _ => false end.

(** The calls of [authenticate] that obtain new credentials. *)
Definition is_renewal (e : drive_event) : bool :=
  match e with DvRefresh | DvFlow _ => true | _ => false end.

Definition is_folder_creation (e : drive_event) : bool :=
  match e with DvCreateFolder _ => true | _ => false end.

End DriveClient.

Arguments DriveState D : clear implicits.
Arguments dres D A : clear implicits.
Arguments DM D A : clear implicits.
Arguments DRet {D A}.
Arguments DExn {D A}.
Arguments mkDriveState {D}.

Section DriveNotions.

Context {D : Type} `{DriveApi D}.

(** States that agree on the attributes of the client and on the logs. *)
Definition dframe (s s' : DriveState D) : Prop :=
  service s' = service s /\ folder_id s' = folder_id s /\ logs s' = logs s.

(** [m] leaves the attributes and the logs alone and only adds events. *)
Definition keeps {A} (m : DM D A) : Prop :=
  forall s,
    match m s with
    | DRet _ s' | DExn _ s' =>
        dframe s s' /\ exists evs, gd_trace s' = gd_trace s ++ evs
    end.

(** The world in which the [try] block of [upload_file] starts. *)
Definition upload_started (s : DriveState D) : Z * DriveState D :=
  let '(t, d') := gd_now (gd_env s) in
  (t, mkDriveState d' (service s) (folder_id s) (logs s) (gd_trace s)).

(** The write an upload makes, given the listing it got. *)
Definition upload_write (file_name : string) (folder : option string)
    (files : list (dict string)) : option drive_event :=
  match files with
  | first :: _ =>
      match dict_get first "id" with
      | Some id => Some (if truthy (Some id) then DvUpdate id
                         else DvCreate file_name folder)
      | None => None
      end
  | [] => Some (DvCreate file_name folder)
  end.

(** The name under which a log entry files its upload. *)
Definition log_name (log : dict value) : option value := dict_get log "Object Name".

Definition log_success (log : dict value) : option value := dict_get log "Is Success".

End DriveNotions.

(** A scripted Drive: one queue of replies per operation. *)
Module DriveMock.

Record Remote : Type := mkRemote {
  token_file : option (reply Credentials);
  refreshes : list (reply Credentials);
  flows : list (reply Credentials);
  token_writes : reply unit;
  listings : list (reply (option (list (dict string))));
  folder_creations : list (reply (dict string));
  writes : list (reply unit);
  directory : reply (list string);
  clock : Z;
}.

Definition unscripted {A} : reply A := Raises (Exception "no scripted reply").

Definition pop {A} (q : list (reply A)) : reply A * list (reply A) :=
  match q with
  | [] => (unscripted, [])
  | x :: rest => (x, rest)
  end.

Definition with_listings (r : Remote) l : Remote :=
  mkRemote (token_file r) (refreshes r) (flows r) (token_writes r) l
    (folder_creations r) (writes r) (directory r) (clock r).

Definition with_writes (r : Remote) l : Remote :=
  mkRemote (token_file r) (refreshes r) (flows r) (token_writes r) (listings r)
    (folder_creations r) l (directory r) (clock r).

Definition next_write (r : Remote) : reply unit * Remote :=
  let '(x, rest) := pop (writes r) in (x, with_writes r rest).

#[global] Instance drive_mock : DriveApi Remote := {|
  DRIVE_FOLDER_NAME := "ELEVENIQ";
  gd_path_exists := fun _ r =>
    (match token_file r with Some _ => true | None => false end, r);
  gd_from_authorized_user_file := fun _ r => (default unscripted (token_file r), r);
  gd_refresh := fun _ r =>
    let '(x, rest) := pop (refreshes r) in
    (x, mkRemote (token_file r) rest (flows r) (token_writes r) (listings r)
          (folder_creations r) (writes r) (directory r) (clock r));
  gd_run_flow := fun _ r =>
    let '(x, rest) := pop (flows r) in
    (x, mkRemote (token_file r) (refreshes r) rest (token_writes r) (listings r)
          (folder_creations r) (writes r) (directory r) (clock r));
  gd_write_token := fun _ _ r => (token_writes r, r);
  gd_build := fun c r => (Returns (mkService c), r);
  gd_list := fun _ _ r =>
    let '(x, rest) := pop (listings r) in (x, with_listings r rest);
  gd_create_folder := fun _ _ r =>
    let '(x, rest) := pop (folder_creations r) in
    (x, mkRemote (token_file r) (refreshes r) (flows r) (token_writes r) (listings r)
          rest (writes r) (directory r) (clock r));
  gd_media := fun _ r => (Returns tt, r);
  gd_update := fun _ _ => next_write;
  gd_create := fun _ _ _ => next_write;
  gd_listdir := fun _ r => (directory r, r);
  gd_now := fun r =>
    (clock r, mkRemote (token_file r) (refreshes r) (flows r) (token_writes r)
                (listings r) (folder_creations r) (writes r) (directory r)
                (clock r + 1));
  gd_format_exc := fun e => "Exception: " +:+ exc_msg e;
|}.

Definition valid_creds : Credentials := mkCredentials true false (Some "refresh-1").
Definition stale_creds : Credentials := mkCredentials false true (Some "refresh-1").
Definition fresh_creds : Credentials := mkCredentials true false (Some "refresh-2").

Definition fresh (r : Remote) : DriveState Remote := mkDriveState r None None [] [].

(** A client that is authenticated and knows its folder. *)
Definition ready (r : Remote) : DriveState Remote :=
  mkDriveState r (Some (mkService valid_creds)) (Some "folder-1") [] [].

Definition quiet_remote : Remote :=
  mkRemote (Some (Returns valid_creds)) [] [] (Returns tt) [] [] [] (Returns []) 0.

(** The file is already in the folder. *)
Definition file_listed : Remote :=
  with_writes (with_listings quiet_remote [Returns (Some [[("id", "file-7")]])])
    [Returns tt].

(** The folder is empty. *)
Definition file_absent : Remote :=
  with_writes (with_listings quiet_remote [Returns (Some [])]) [Returns tt].

(** Every listing fails. *)
Definition drive_down : Remote :=
  mkRemote (Some (Returns valid_creds)) [] [] (Returns tt)
    [ Returns (Some [[("id", "folder-1")]]);
      Raises (Exception "HttpError 503"); Raises (Exception "HttpError 503") ]
    [] [] (Returns ["all_data.xlsx"; "notes.txt"; "Pipeline_Logs.csv"]) 0.

(** The stored credentials have expired and can be refreshed. *)
Definition expired_token : Remote :=
  mkRemote (Some (Returns stale_creds)) [Returns fresh_creds] [] (Returns tt)
    [] [] [] (Returns []) 0.

(** No folder of the name exists yet. *)
Definition no_folder : Remote :=
  mkRemote (Some (Returns valid_creds)) [] [] (Returns tt)
    [Returns (Some [])] [Returns [("id", "folder-9")]] [] (Returns []) 0.

(** No credentials are stored; the consent flow succeeds. *)
Definition no_token : Remote :=
  mkRemote None [] [Returns fresh_creds] (Returns tt) [] [] [] (Returns []) 0.

End DriveMock.
(** * Properties *)

(** Evaluation of a scenario: everything is computed but the records,
    which stay as they are named. *)
Ltac script :=
  lazy -[Scenario.r1 Scenario.r2 Scenario.r3 Scenario.r4 Scenario.r5];
  reflexivity.
Ltac script_in H :=
  lazy -[Scenario.r1 Scenario.r2 Scenario.r3 Scenario.r4 Scenario.r5] in H.

(** ** Strings and dictionaries *)

Example str_in_ex : str_in "__c" "Foo__c" = true /\ str_in "__c" "RandomField" = false.
Proof. split; reflexivity. Qed.
Example str_replace_ex : str_replace "_" " " (str_replace "__c" "" "Elevator_Service_Cost__c") = "Elevator Service Cost".
Proof. reflexivity. Qed.
Example str_replace_ex2 : str_replace "__c" "" "ns__claims__c" = "nslaims".
Proof. reflexivity. Qed.
Example join_ex : str_join ", " ["Id"; "Name"; "Foo__c"] = "Id, Name, Foo__c".
Proof. reflexivity. Qed.
Example path_ex : os_path_join "files" "Account.csv" = "files/Account.csv".
Proof. reflexivity. Qed.


Lemma app_String (c : Ascii.ascii) (s t : string) :
  String c s +:+ t = String c (s +:+ t).
Proof. reflexivity. Qed.

Lemma prefix_app (sub s : string) :
  String.prefix sub s = true <-> exists post, s = sub +:+ post.
Proof.
  revert s. induction sub as [|c sub IH]; intros s; simpl.
  - split; [intros _; exists s; reflexivity | intros _; destruct s; reflexivity].
  - destruct s as [|d s]; simpl.
    + split; [discriminate | intros [post Hp]; discriminate].
    + destruct (Ascii.ascii_dec c d) as [->|Hne].
      * rewrite IH. split; intros [post Hp]; exists post.
        -- rewrite Hp. reflexivity.
        -- rewrite app_String in Hp. congruence.
      * split; [discriminate | intros [post Hp]; rewrite app_String in Hp; congruence].
Qed.

(** [str_in] decides the occurrence of [sub] as a contiguous substring. *)
Lemma str_in_spec (sub s : string) :
  str_in sub s = true <-> exists pre post, s = pre +:+ sub +:+ post.
Proof.
  induction s as [|c s IH].
  - destruct sub as [|a sub]; simpl.
    + split; [intros _; exists "", ""; reflexivity | reflexivity].
    + split; [discriminate | intros [pre [post Hp]]; destruct pre; discriminate].
  - change (str_in sub (String c s))
      with (String.prefix sub (String c s) || str_in sub s).
    rewrite orb_true_iff, prefix_app, IH. split.
    + intros [[post Hp] | [pre [post Hp]]].
      * exists "", post. exact Hp.
      * exists (String c pre), post. rewrite app_String. congruence.
    + intros [pre [post Hp]]. destruct pre as [|d pre].
      * left. exists post. exact Hp.
      * right. exists pre, post. rewrite app_String in Hp. congruence.
Qed.

Lemma list_in_spec (x : string) (xs : list string) :
  list_in x xs = true <-> In x xs.
Proof.
  unfold list_in. rewrite existsb_exists. split.
  - intros [y [Hy Heq]]. apply String.eqb_eq in Heq. congruence.
  - intros Hx. exists x. split; [exact Hx | apply String.eqb_refl].
Qed.

Section Dict.

Context {V : Type}.
Implicit Types (d : dict V) (k : string) (v : V).

Lemma dict_get_set_eq d k v : dict_get (dict_set d k v) k = Some v.
Proof.
  induction d as [|[k' v'] d IH]; simpl.
  - rewrite String.eqb_refl. reflexivity.
  - destruct (String.eqb k k') eqn:E; simpl; rewrite E; [reflexivity | exact IH].
Qed.

Lemma dict_get_set_ne d k k' v :
  k <> k' -> dict_get (dict_set d k v) k' = dict_get d k'.
Proof.
  intros Hne. induction d as [|[k0 v0] d IH]; simpl.
  - apply String.eqb_neq in Hne. rewrite String.eqb_sym, Hne. reflexivity.
  - destruct (String.eqb k k0) eqn:E; simpl.
    + apply String.eqb_eq in E. subst k0.
      assert (String.eqb k' k = false) as -> by (apply String.eqb_neq; congruence).
      reflexivity.
    + rewrite IH. reflexivity.
Qed.

Lemma dict_get_In_keys d k : is_Some (dict_get d k) <-> In k (dict_keys d).
Proof.
  induction d as [|[k' v'] d IH]; simpl.
  - split; [intros [? ?]; discriminate | tauto].
  - destruct (String.eqb_spec k k') as [->|Hne].
    + split; [tauto | eauto].
    + rewrite IH. split; [tauto | intros [?|?]; congruence].
Qed.

Lemma dict_get_In d k v : dict_get d k = Some v -> In (k, v) d.
Proof.
  induction d as [|[k' v'] d IH]; simpl; [discriminate|].
  destruct (String.eqb_spec k k') as [->|Hne].
  - intros [= ->]. left. reflexivity.
  - intros Hg. right. auto.
Qed.

Lemma dict_In_get d k v : NoDup (dict_keys d) -> In (k, v) d -> dict_get d k = Some v.
Proof.
  induction d as [|[k' v'] d IH]; simpl; [tauto|].
  intros Hnd [Heq | Hin].
  - injection Heq as -> ->. rewrite String.eqb_refl. reflexivity.
  - apply NoDup_cons in Hnd as [Hk Hnd].
    destruct (String.eqb_spec k k') as [->|Hne].
    + exfalso. apply Hk. apply list_elem_of_In.
      change (In k' (map fst d)). apply in_map_iff. exists (k', v). auto.
    + auto.
Qed.

Lemma dict_set_fresh d k v : ~ In k (dict_keys d) -> dict_set d k v = d ++ [(k, v)].
Proof.
  induction d as [|[k' v'] d IH]; simpl; [reflexivity|].
  intros Hk. destruct (String.eqb_spec k k') as [->|Hne]; [tauto|].
  rewrite IH; [reflexivity | tauto].
Qed.

Lemma dict_keys_set_In d k v k' :
  In k' (dict_keys (dict_set d k v)) <-> k' = k \/ In k' (dict_keys d).
Proof.
  induction d as [|[k0 v0] d IH]; simpl.
  - intuition congruence.
  - destruct (String.eqb_spec k k0) as [->|Hne]; simpl.
    + intuition congruence.
    + rewrite IH. intuition congruence.
Qed.

Lemma dict_keys_set_NoDup d k v :
  NoDup (dict_keys d) -> NoDup (dict_keys (dict_set d k v)).
Proof.
  induction d as [|[k0 v0] d IH]; simpl; intros Hnd.
  - apply NoDup_cons. split; [apply not_elem_of_nil | apply NoDup_nil_2].
  - apply NoDup_cons in Hnd as [Hk Hnd].
    destruct (String.eqb_spec k k0) as [->|Hne]; simpl.
    + apply NoDup_cons. auto.
    + apply NoDup_cons. split; [|auto].
      rewrite list_elem_of_In, dict_keys_set_In. rewrite list_elem_of_In in Hk.
      intros [?|?]; [congruence | tauto].
Qed.

(** A comprehension over pairs with distinct keys is the list of pairs. *)
Lemma dict_of_pairs_from (kvs : list (string * V)) d :
  NoDup (dict_keys d ++ map fst kvs) ->
  fold_left (fun d kv => dict_set d kv.1 kv.2) kvs d = d ++ kvs.
Proof.
  revert d. induction kvs as [|[k v] kvs IH]; intros d Hnd; simpl.
  - rewrite app_nil_r. reflexivity.
  - simpl in Hnd. rewrite dict_set_fresh.
    + rewrite IH.
      * rewrite <- app_assoc. reflexivity.
      * unfold dict_keys in *. rewrite map_app. simpl. rewrite <- app_assoc. exact Hnd.
    + apply NoDup_app in Hnd as (_ & Hdisj & _).
      intros Hin. apply (Hdisj k); [apply list_elem_of_In; exact Hin | left].
Qed.

Lemma dict_of_pairs_NoDup (kvs : list (string * V)) :
  NoDup (map fst kvs) -> dict_of_pairs kvs = kvs.
Proof. intros Hnd. unfold dict_of_pairs. rewrite dict_of_pairs_from; auto. Qed.

End Dict.

(** ** The monad: framing and traces *)

Section Effects.

Context {R : Type} `{Env R}.
Implicit Types (w : World R) (P Q : event -> Prop).

Lemma frame_refl w : frame w w.
Proof. repeat split. Qed.

Lemma frame_trans w1 w2 w3 : frame w1 w2 -> frame w2 w3 -> frame w1 w3.
Proof. unfold frame. intros (?&?) (?&?). split; congruence. Qed.

Lemma emits_ret {A} P (a : A) : emits (R:=R) P (ret a).
Proof.
  intros w. simpl. split; [apply frame_refl|].
  exists []. rewrite app_nil_r. auto.
Qed.

Lemma emits_raise {A} P e : emits (R:=R) P (raise (A:=A) e).
Proof.
  intros w. simpl. split; [apply frame_refl|].
  exists []. rewrite app_nil_r. auto.
Qed.

Lemma emits_diverge {A} P : emits (R:=R) P (diverge (A:=A)).
Proof. intros w. exact I. Qed.

Lemma emits_bind {A B} P (m : M R A) (f : A -> M R B) :
  emits P m -> (forall a, emits P (f a)) -> emits P (bind m f).
Proof.
  intros Hm Hf w. unfold bind. specialize (Hm w).
  destruct (m w) as [a w1|e w1|]; [|exact Hm|exact I].
  destruct Hm as [Hfr (evs & Htr & Hevs)].
  specialize (Hf a w1).
  destruct (f a w1) as [b w2|e w2|]; [| |exact I];
    destruct Hf as [Hfr' (evs' & Htr' & Hevs')];
    (split; [eapply frame_trans; eauto|]);
    exists (evs ++ evs'); rewrite Htr', Htr, app_assoc;
    (split; [reflexivity | apply Forall_app; auto]).
Qed.

Lemma emits_try_except {A} P (body : M R A) (handler : exc -> M R A) :
  emits P body -> (forall e, emits P (handler e)) ->
  emits P (try_except body handler).
Proof.
  intros Hm Hf w. unfold try_except. specialize (Hm w).
  destruct (body w) as [a w1|e w1|]; [exact Hm| |exact I].
  destruct Hm as [Hfr (evs & Htr & Hevs)].
  specialize (Hf e w1).
  destruct (handler e w1) as [b w2|e' w2|]; [| |exact I];
    destruct Hf as [Hfr' (evs' & Htr' & Hevs')];
    (split; [eapply frame_trans; eauto|]);
    exists (evs ++ evs'); rewrite Htr', Htr, app_assoc;
    (split; [reflexivity | apply Forall_app; auto]).
Qed.

Lemma emits_weaken {A} P Q (m : M R A) :
  (forall e, P e -> Q e) -> emits P m -> emits Q m.
Proof.
  intros HPQ Hm w. specialize (Hm w).
  destruct (m w) as [a w1|e w1|]; [| |exact I];
    destruct Hm as [Hfr (evs & Htr & Hevs)];
    (split; [exact Hfr|]); exists evs; (split; [exact Htr|]);
    eapply Forall_impl; eauto.
Qed.

Lemma emits_emit P e : P e -> emits (R:=R) P (emit e).
Proof.
  intros He w. simpl. split; [repeat split|].
  exists [e]. auto.
Qed.

Lemma emits_call {A} P e (f : R -> reply A * R) : P e -> emits P (call e f).
Proof.
  intros He w. unfold call.
  destruct (f (env w)) as [[a|x] r']; simpl;
    (split; [repeat split|]); exists [e]; auto.
Qed.

Lemma emits_read {A} P (f : R -> A * R) : emits P (read f).
Proof.
  intros w. unfold read. destruct (f (env w)) as [a r']. simpl.
  split; [repeat split|]. exists []. rewrite app_nil_r. auto.
Qed.

Lemma emits_on_sf {A} P method (k : Salesforce -> M R A) :
  (forall s, emits P (k s)) -> emits P (on_sf method k).
Proof.
  intros Hk w. unfold on_sf. destruct (sf w) as [s|] eqn:E.
  - apply Hk.
  - split; [apply frame_refl|]. exists []. rewrite app_nil_r. auto.
Qed.

Lemma emits_for_try {A} P range (body : M R A) handler orelse :
  emits P body -> (forall i e, emits P (handler i e)) -> emits P orelse ->
  emits P (for_try range body handler orelse).
Proof.
  intros Hb Hh Ho. induction range as [|i range IH]; simpl; [exact Ho|].
  apply emits_try_except; [exact Hb|].
  intros e. apply emits_bind; [apply Hh | intros _; exact IH].
Qed.

(** What [emits] gives for an outcome at hand. *)
Lemma emits_Ret {A} P (m : M R A) w a w' :
  emits P m -> m w = Ret a w' ->
  frame w w' /\ exists evs, trace w' = trace w ++ evs /\ Forall P evs.
Proof. intros Hm E. specialize (Hm w). rewrite E in Hm. exact Hm. Qed.

Lemma emits_Exn {A} P (m : M R A) w e w' :
  emits P m -> m w = Exn e w' ->
  frame w w' /\ exists evs, trace w' = trace w ++ evs /\ Forall P evs.
Proof. intros Hm E. specialize (Hm w). rewrite E in Hm. exact Hm. Qed.

End Effects.

(** ** Retry loops *)

Section Retry.

Context {R : Type} `{Env R}.
Implicit Types (w : World R).

Lemma count_events_app p (tr1 tr2 : list event) :
  count_events p (tr1 ++ tr2) = (count_events p tr1 + count_events p tr2)%nat.
Proof. unfold count_events. rewrite filter_app, length_app. reflexivity. Qed.

Lemma count_events_none p (tr : list event) :
  Forall (fun e => p e = false) tr -> count_events p tr = O.
Proof.
  unfold count_events. induction 1 as [|e tr He _ IH]; [reflexivity|].
  rewrite filter_cons_False; [exact IH | congruence].
Qed.

(** Failed attempts only consume indices of the range. *)
Lemma for_try_skip {A} (body : M R A) handler orelse pre post w es w1 :
  attempts_fail body handler pre w es w1 ->
  for_try (pre ++ post) body handler orelse w
  = for_try post body handler orelse w1.
Proof.
  induction 1 as [|i range w e w1 w2 es w3 Hb Hh _ IH]; [reflexivity|].
  simpl. unfold try_except. rewrite Hb. unfold bind. rewrite Hh. exact IH.
Qed.

Lemma attempts_fail_length {A} (body : M R A) handler range w es w1 :
  attempts_fail body handler range w es w1 -> length es = length range.
Proof. induction 1; simpl; congruence. Qed.

Lemma for_try_succeeds {A} (body : M R A) handler orelse k n w es w1 a w2 :
  attempts_fail body handler (seq 0 k) w es w1 ->
  (k < n)%nat ->
  body w1 = Ret a w2 ->
  for_try (seq 0 n) body handler orelse w = Ret a w2.
Proof.
  intros Hf Hk Hb.
  replace n with (k + S (n - S k))%nat by lia.
  rewrite seq_app, (for_try_skip _ _ _ _ _ _ _ _ Hf). simpl.
  unfold try_except. rewrite Hb. reflexivity.
Qed.

Lemma for_try_exhausted {A} (body : M R A) handler orelse n w es w1 :
  attempts_fail body handler (seq 0 n) w es w1 ->
  for_try (seq 0 n) body handler orelse w = orelse w1.
Proof.
  intros Hf. rewrite <- (app_nil_r (seq 0 n)).
  rewrite (for_try_skip _ _ _ _ _ _ _ _ Hf). reflexivity.
Qed.

(** *** Login *)

Lemma login_attempt_raises w e r1 :
  env_SalesforceLogin (env w) = (Raises e, r1) ->
  login_attempt w = Exn e (set_env r1 (set_trace (trace w ++ [EvLogin]) w)).
Proof. intros E. unfold login_attempt, bind, call. rewrite E. reflexivity. Qed.

Lemma login_attempt_returns w sid inst r1 :
  env_SalesforceLogin (env w) = (Returns (sid, inst), r1) ->
  login_attempt w
  = Ret tt (mkWorld r1 (Some (mkSalesforce inst sid)) (statistics w)
              ((trace w ++ [EvLogin]) ++ [EvPrint MsgLoginOk])).
Proof. intros E. unfold login_attempt, bind, call. rewrite E. reflexivity. Qed.

Lemma login_fails_attempts retries es : forall w r1 i,
  login_fails (env w) es r1 ->
  exists w1,
    attempts_fail login_attempt (login_except retries) (seq i (length es)) w es w1
    /\ env w1 = r1 /\ frame w w1
    /\ count_events is_login (trace w1)
       = (count_events is_login (trace w) + length es)%nat.
Proof.
  induction es as [|e es IH]; intros w r1 i Hf;
    inversion Hf as [|? ? r2 ? ? Hcall Hrest]; subst.
  - exists w. repeat split; [constructor | simpl; lia].
  - set (w1 := set_env r2 (set_trace (trace w ++ [EvLogin]) w)).
    set (w2 := set_trace ((trace w1 ++ [EvPrint (MsgLoginRetry (i + 1) retries e)])
                          ++ [EvSleep (2 ^ Z.of_nat i)]) w1).
    destruct (IH w2 r1 (S i)) as (w3 & Hat & He & Hfr & Hc); [exact Hrest|].
    exists w3. split; [|split; [exact He|split]].
    + simpl. eapply attempts_fail_cons; [| |exact Hat].
      * apply login_attempt_raises. exact Hcall.
      * reflexivity.
    + eapply frame_trans; [|exact Hfr]. repeat split.
    + rewrite Hc. subst w2 w1. simpl.
      rewrite !count_events_app. simpl. unfold count_events. simpl. lia.
Qed.

(** *** Paginated fetch *)

Lemma query_more_loop_emits fuel : forall resp all_records url,
  emits (fun e => is_query_more e = true)
    (query_more_loop fuel resp all_records url).
Proof.
  induction fuel as [|fuel IH]; intros resp all_records url; simpl;
    destruct (not_done resp); try apply emits_ret; try apply emits_diverge.
  apply emits_bind.
  - apply emits_on_sf. intros s. apply emits_call. reflexivity.
  - intros resp'. apply IH.
Qed.

(** An attempt issues the initial query, then only next-page calls. *)
Lemma fetch_attempt_trace fuel soql w s :
  sf w = Some s ->
  match fetch_attempt fuel soql w with
  | Ret _ w' | Exn _ w' =>
      frame w w' /\
      exists evs, trace w' = trace w ++ EvQuery soql :: evs
                  /\ Forall (fun e => is_query_more e = true) evs
  | Diverge => True
  end.
Proof.
  intros Hsf. unfold fetch_attempt, bind, sf_query, on_sf. rewrite Hsf.
  unfold call. destruct (env_query s soql (env w)) as [[resp|x] r'].
  - set (w1 := set_env r' (set_trace (trace w ++ [EvQuery soql]) w)).
    pose proof (query_more_loop_emits fuel resp (get_records resp)
                  (resp_nextRecordsUrl resp) w1) as Hl.
    destruct (query_more_loop fuel resp (get_records resp)
                (resp_nextRecordsUrl resp) w1) as [a w2|e w2|]; [| |exact I];
      destruct Hl as [Hfr (evs & Htr & Hevs)];
      (split; [eapply frame_trans; [|exact Hfr]; repeat split|]);
      exists evs; rewrite Htr; subst w1; simpl; rewrite <- app_assoc; auto.
  - split; [repeat split|]. exists []. auto.
Qed.

Lemma count_query_more (evs : list event) :
  Forall (fun e => is_query_more e = true) evs -> count_events is_query evs = O.
Proof.
  intros Hf. apply count_events_none. eapply Forall_impl; [exact Hf|].
  intros [] ?; simpl in *; congruence.
Qed.

Lemma fetch_attempts_count fuel soql retries s range w es w1 :
  sf w = Some s ->
  attempts_fail (fetch_attempt fuel soql) (fetch_except retries) range w es w1 ->
  frame w w1 /\
  count_events is_query (trace w1)
  = (count_events is_query (trace w) + length es)%nat.
Proof.
  intros Hsf Hat. revert Hsf.
  induction Hat as [|i range w e w1 w2 es w3 Hb Hh _ IH]; intros Hsf.
  - split; [apply frame_refl | simpl; lia].
  - pose proof (fetch_attempt_trace fuel soql w s Hsf) as Ht.
    rewrite Hb in Ht. destruct Ht as [Hfr (evs & Htr & Hevs)].
    injection Hh as <-.
    destruct IH as [Hfr' Hc].
    { simpl. destruct Hfr as (-> & _). exact Hsf. }
    split; [eapply frame_trans; [exact Hfr|]; eapply frame_trans; [|exact Hfr']; repeat split|].
    rewrite Hc. simpl. rewrite Htr, !count_events_app.
    change (EvQuery soql :: evs) with ([EvQuery soql] ++ evs).
    rewrite count_events_app, (count_query_more evs Hevs).
    unfold count_events. simpl. lia.
Qed.

End Retry.

(** ** The retry contract of [login] and [fetch_data] *)

Section RetryContract.

Context {R : Type} `{Env R}.
Implicit Types (w : World R).

Lemma login_succeeds_after w es r1 sid inst r2 :
  login_fails (env w) es r1 -> (length es < 5)%nat ->
  env_SalesforceLogin r1 = (Returns (sid, inst), r2) ->
  exists w', login w = Ret tt w'
    /\ sf w' = Some (mkSalesforce inst sid) /\ env w' = r2
    /\ count_events is_login (trace w')
       = (count_events is_login (trace w) + length es + 1)%nat.
Proof.
  intros Hf Hk Hok.
  destruct (login_fails_attempts 5 es w r1 0 Hf) as (w1 & Hat & He & Hfr & Hc).
  eexists. split.
  - unfold login. eapply for_try_succeeds; [exact Hat | exact Hk |].
    apply login_attempt_returns. rewrite He. exact Hok.
  - repeat split. simpl. rewrite !count_events_app, Hc.
    unfold count_events. simpl. lia.
Qed.

Lemma login_exhausted w es r1 :
  login_fails (env w) es r1 -> length es = 5%nat ->
  exists w',
    login w = Exn (Exception "Max retries reached, Salesforce login failed.") w'
    /\ env w' = r1
    /\ count_events is_login (trace w')
       = (count_events is_login (trace w) + 5)%nat.
Proof.
  intros Hf Hk.
  destruct (login_fails_attempts 5 es w r1 0 Hf) as (w1 & Hat & He & Hfr & Hc).
  rewrite Hk in Hat, Hc. exists w1. split; [|auto].
  unfold login. rewrite (for_try_exhausted _ _ _ _ _ _ _ Hat). reflexivity.
Qed.

Lemma fetch_data_unfold fuel obj fields w :
  fetch_data fuel obj fields w
  = for_try (seq 0 5) (fetch_attempt fuel (select_soql obj fields))
      (fetch_except 5)
      (raise (Exception ("Max retries reached, query failed for " +:+ obj)))
      (announced obj fields w).
Proof. reflexivity. Qed.

Lemma fetch_succeeds_after fuel obj fields s w es w1 recs w2 :
  sf w = Some s ->
  attempts_fail (fetch_attempt fuel (select_soql obj fields)) (fetch_except 5)
    (seq 0 (length es)) (announced obj fields w) es w1 ->
  (length es < 5)%nat ->
  fetch_attempt fuel (select_soql obj fields) w1 = Ret recs w2 ->
  fetch_data fuel obj fields w = Ret recs w2
  /\ count_events is_query (trace w2)
     = (count_events is_query (trace w) + length es + 1)%nat.
Proof.
  intros Hsf Hat Hk Hok. split.
  - rewrite fetch_data_unfold.
    eapply for_try_succeeds; [exact Hat | exact Hk | exact Hok].
  - destruct (fetch_attempts_count _ _ _ s _ (announced obj fields w) _ _ Hsf Hat)
      as [Hfr Hc].
    pose proof (fetch_attempt_trace fuel (select_soql obj fields) w1 s) as Ht.
    rewrite Hok in Ht. destruct Ht as [_ (evs & Htr & Hevs)].
    { destruct Hfr as (-> & _). exact Hsf. }
    rewrite Htr. change (EvQuery (select_soql obj fields) :: evs)
      with ([EvQuery (select_soql obj fields)] ++ evs).
    rewrite !count_events_app, (count_query_more evs Hevs), Hc.
    unfold announced. simpl. rewrite count_events_app.
    unfold count_events. simpl. lia.
Qed.

Lemma fetch_exhausted fuel obj fields s w es w1 :
  sf w = Some s ->
  attempts_fail (fetch_attempt fuel (select_soql obj fields)) (fetch_except 5)
    (seq 0 5) (announced obj fields w) es w1 ->
  fetch_data fuel obj fields w
  = Exn (Exception ("Max retries reached, query failed for " +:+ obj)) w1
  /\ count_events is_query (trace w1)
     = (count_events is_query (trace w) + 5)%nat.
Proof.
  intros Hsf Hat. split.
  - rewrite fetch_data_unfold.
    rewrite (for_try_exhausted _ _ _ _ _ _ _ Hat). reflexivity.
  - destruct (fetch_attempts_count _ _ _ s _ (announced obj fields w) _ _ Hsf Hat)
      as [Hfr Hc].
    rewrite Hc, (attempts_fail_length _ _ _ _ _ _ Hat).
    unfold announced. simpl. rewrite count_events_app.
    unfold count_events. simpl. lia.
Qed.

(** C1 (amended).  Both retry loops ([login] and [fetch_data]) allow five
    attempts.  If the operation fails [k < 5] times and then succeeds, the
    loop returns the result of the successful attempt and has invoked the
    operation exactly [k + 1] times (one [SalesforceLogin] call, respectively
    one initial query, per attempt).  If all five attempts fail, the
    operation has been invoked exactly five times and the loop raises a
    plain [Exception] with a fixed message ("Max retries reached, ..."),
    which does not depend on the underlying failures. *)
Theorem retry_loops_contract :
  (forall w es r1 sid inst r2,
      login_fails (env w) es r1 -> (length es < 5)%nat ->
      env_SalesforceLogin r1 = (Returns (sid, inst), r2) ->
      exists w', login w = Ret tt w'
        /\ sf w' = Some (mkSalesforce inst sid) /\ env w' = r2
        /\ count_events is_login (trace w')
           = (count_events is_login (trace w) + length es + 1)%nat)
  /\ (forall w es r1,
      login_fails (env w) es r1 -> length es = 5%nat ->
      exists w',
        login w = Exn (Exception "Max retries reached, Salesforce login failed.") w'
        /\ env w' = r1
        /\ count_events is_login (trace w')
           = (count_events is_login (trace w) + 5)%nat)
  /\ (forall fuel obj fields s w es w1 recs w2,
      sf w = Some s ->
      attempts_fail (fetch_attempt fuel (select_soql obj fields)) (fetch_except 5)
        (seq 0 (length es)) (announced obj fields w) es w1 ->
      (length es < 5)%nat ->
      fetch_attempt fuel (select_soql obj fields) w1 = Ret recs w2 ->
      fetch_data fuel obj fields w = Ret recs w2
      /\ count_events is_query (trace w2)
         = (count_events is_query (trace w) + length es + 1)%nat)
  /\ (forall fuel obj fields s w es w1,
      sf w = Some s ->
      attempts_fail (fetch_attempt fuel (select_soql obj fields)) (fetch_except 5)
        (seq 0 5) (announced obj fields w) es w1 ->
      fetch_data fuel obj fields w
      = Exn (Exception ("Max retries reached, query failed for " +:+ obj)) w1
      /\ count_events is_query (trace w1)
         = (count_events is_query (trace w) + 5)%nat).
Proof.
  split; [|split; [|split]].
  - apply login_succeeds_after.
  - apply login_exhausted.
  - apply fetch_succeeds_after.
  - apply fetch_exhausted.
Qed.

End RetryContract.

(** The contract on the scripted environment: a login accepted at the third
    attempt, a login refused five times, and the same for a query. *)
Lemma retry_loops_contract_witness :
  (exists w', login (new_process Scenario.login_third_time) = Ret tt w'
     /\ count_events is_login (trace w') = 3%nat)
  /\ (exists w',
        login (new_process Scenario.login_never)
        = Exn (Exception "Max retries reached, Salesforce login failed.") w'
        /\ count_events is_login (trace w') = 5%nat)
  /\ (exists recs w',
        fetch_data 3 "Account" ["Id"; "Name"] (Mock.connected Scenario.query_third_time)
        = Ret recs w'
        /\ count_events is_query (trace w') = 3%nat)
  /\ (exists w',
        fetch_data 3 "Account" ["Id"; "Name"] (Mock.connected Scenario.query_never)
        = Exn (Exception "Max retries reached, query failed for Account") w'
        /\ count_events is_query (trace w') = 5%nat).
Proof.
  destruct (retry_loops_contract (R:=Mock.Remote)) as (H1 & H2 & H3 & H4).
  split; [|split; [|split]].
  - edestruct (H1 (new_process Scenario.login_third_time))
      as (w' & Hl & _ & _ & Hc).
    + eapply login_fails_cons; [script|].
      eapply login_fails_cons; [script|]. apply login_fails_nil.
    + simpl. lia.
    + script.
    + exists w'. split; [exact Hl | exact Hc].
  - edestruct (H2 (new_process Scenario.login_never)) as (w' & Hl & _ & Hc).
    + do 5 (eapply login_fails_cons; [script|]). apply login_fails_nil.
    + script.
    + exists w'. split; [exact Hl | exact Hc].
  - edestruct (H3 3%nat "Account" ["Id"; "Name"] (mkSalesforce "instance" "session")
                 (Mock.connected Scenario.query_third_time)
                 [Exception "timeout"; Exception "reset"]) as (Hf & Hc).
    + script.
    + eapply attempts_fail_cons; [script | script |].
      eapply attempts_fail_cons; [script | script |].
      apply attempts_fail_nil.
    + simpl. lia.
    + script.
    + eexists _, _. split; [exact Hf | exact Hc].
  - edestruct (H4 3%nat "Account" ["Id"; "Name"] (mkSalesforce "instance" "session")
                 (Mock.connected Scenario.query_never)) as (Hf & Hc).
    + script.
    + do 5 (eapply attempts_fail_cons; [script | script |]).
      apply attempts_fail_nil.
    + eexists. split; [exact Hf | exact Hc].
Defined.

(** C1 as stated fails: when the login service refuses all five attempts,
    the exception that [login] raises does not carry the last underlying
    failure. *)
Lemma login_exhaustion_drops_cause :
  ~ exists raised w',
      login (new_process Scenario.login_never) = Exn raised w'
      /\ carries raised (Exception "e5").
Proof.
  intros (raised & w' & Hl & Hc).
  vm_compute in Hl. injection Hl as <- _.
  destruct Hc as [Hc|[]]. discriminate Hc.
Qed.

(** ** Pagination *)

Section Pagination.

Context {R : Type} `{Env R}.
Implicit Types (w : World R).

Lemma sf_query_more_returns w s url resp r' :
  sf w = Some s ->
  env_query_more s url (env w) = (Returns resp, r') ->
  sf_query_more url w
  = Ret resp (set_env r' (set_trace (trace w ++ [EvQueryMore url]) w)).
Proof.
  intros Hsf E. unfold sf_query_more, on_sf, call. rewrite Hsf, E. reflexivity.
Qed.

Lemma sf_query_more_raises w s url e r' :
  sf w = Some s ->
  env_query_more s url (env w) = (Raises e, r') ->
  sf_query_more url w
  = Exn e (set_env r' (set_trace (trace w ++ [EvQueryMore url]) w)).
Proof.
  intros Hsf E. unfold sf_query_more, on_sf, call. rewrite Hsf, E. reflexivity.
Qed.

Lemma sf_query_returns w s soql resp r' :
  sf w = Some s ->
  env_query s soql (env w) = (Returns resp, r') ->
  sf_query soql w
  = Ret resp (set_env r' (set_trace (trace w ++ [EvQuery soql]) w)).
Proof.
  intros Hsf E. unfold sf_query, on_sf, call. rewrite Hsf, E. reflexivity.
Qed.

(** The loop collects the pages the service hands out, in order. *)
Lemma query_more_loop_serves s resp r1 pages r2 :
  serves_pages s resp r1 pages r2 ->
  forall fuel w all_records,
    sf w = Some s -> env w = r1 -> (length pages <= fuel)%nat ->
    exists w',
      query_more_loop fuel resp all_records (resp_nextRecordsUrl resp) w
      = Ret (all_records ++ concat pages) w'
      /\ env w' = r2 /\ frame w w'.
Proof.
  induction 1 as [resp r Hd | resp r resp' r' pages r'' Hd Hq _ IH];
    intros fuel w all_records Hsf He Hfuel.
  - exists w. destruct fuel; simpl; rewrite Hd, app_nil_r;
      (split; [reflexivity | split; [exact He | apply frame_refl]]).
  - destruct fuel as [|fuel]; [simpl in Hfuel; lia|].
    simpl. rewrite Hd. unfold bind.
    rewrite (sf_query_more_returns w s _ resp' r' Hsf); [|rewrite He; exact Hq].
    set (w1 := set_env r' _).
    destruct (IH fuel w1 (all_records ++ get_records resp'))
      as (w' & Hl & He' & Hfr); [exact Hsf | reflexivity | simpl in Hfuel; lia |].
    exists w'. rewrite Hl, <- app_assoc.
    split; [reflexivity | split; [exact He'|]].
    eapply frame_trans; [|exact Hfr]. repeat split.
Qed.

(** The loop stops at the first page the service fails to hand out. *)
Lemma query_more_loop_fails s n resp r1 e r2 :
  page_fails s n resp r1 e r2 ->
  forall fuel w all_records,
    sf w = Some s -> env w = r1 -> (n < fuel)%nat ->
    exists w',
      query_more_loop fuel resp all_records (resp_nextRecordsUrl resp) w
      = Exn e w'
      /\ env w' = r2 /\ frame w w'.
Proof.
  induction 1 as [resp r e r' Hd Hq | n resp r resp' r' e r'' Hd Hq _ IH];
    intros fuel w all_records Hsf He Hfuel;
    (destruct fuel as [|fuel]; [lia|]); simpl; rewrite Hd; unfold bind.
  - rewrite (sf_query_more_raises w s _ e r' Hsf); [|rewrite He; exact Hq].
    eexists. split; [reflexivity | split; [reflexivity | repeat split]].
  - rewrite (sf_query_more_returns w s _ resp' r' Hsf); [|rewrite He; exact Hq].
    set (w1 := set_env r' _).
    destruct (IH fuel w1 (all_records ++ get_records resp'))
      as (w' & Hl & He' & Hfr); [exact Hsf | reflexivity | lia |].
    exists w'. rewrite Hl.
    split; [reflexivity | split; [exact He'|]].
    eapply frame_trans; [|exact Hfr]. repeat split.
Qed.

Lemma fetch_attempt_serves fuel soql s w resp r1 pages r2 :
  sf w = Some s ->
  env_query s soql (env w) = (Returns resp, r1) ->
  serves_pages s resp r1 pages r2 ->
  (length pages <= fuel)%nat ->
  exists w',
    fetch_attempt fuel soql w = Ret (concat (get_records resp :: pages)) w'
    /\ env w' = r2 /\ frame w w'.
Proof.
  intros Hsf Hq Hp Hfuel. unfold fetch_attempt, bind.
  rewrite (sf_query_returns w s soql resp r1 Hsf Hq).
  set (w1 := set_env r1 _).
  destruct (query_more_loop_serves s resp r1 pages r2 Hp fuel w1 (get_records resp))
    as (w' & Hl & He & Hfr); [exact Hsf | reflexivity | exact Hfuel |].
  exists w'. split; [exact Hl | split; [exact He|]].
  eapply frame_trans; [|exact Hfr]. repeat split.
Qed.

Lemma fetch_attempt_page_fails fuel soql s w resp r1 n e r2 :
  sf w = Some s ->
  env_query s soql (env w) = (Returns resp, r1) ->
  page_fails s n resp r1 e r2 ->
  (n < fuel)%nat ->
  exists w',
    fetch_attempt fuel soql w = Exn e w' /\ env w' = r2 /\ frame w w'.
Proof.
  intros Hsf Hq Hp Hfuel. unfold fetch_attempt, bind.
  rewrite (sf_query_returns w s soql resp r1 Hsf Hq).
  set (w1 := set_env r1 _).
  destruct (query_more_loop_fails s n resp r1 e r2 Hp fuel w1 (get_records resp))
    as (w' & Hl & He & Hfr); [exact Hsf | reflexivity | exact Hfuel |].
  exists w'. split; [exact Hl | split; [exact He|]].
  eapply frame_trans; [|exact Hfr]. repeat split.
Qed.

End Pagination.

Section PaginationContract.

Context {R : Type} `{Env R}.
Implicit Types (w : World R).

(** C5.  Whatever attempts failed before, the fetch returns the records of
    the pages of the successful attempt, concatenated in page order: first
    the records of the initial response, then those of every further page,
    with nothing reordered, dropped, merged or repeated. *)
Theorem fetch_data_concatenates_pages fuel obj fields s w es w1 resp r1 pages r2 :
  sf w = Some s ->
  attempts_fail (fetch_attempt fuel (select_soql obj fields)) (fetch_except 5)
    (seq 0 (length es)) (announced obj fields w) es w1 ->
  (length es < 5)%nat ->
  env_query s (select_soql obj fields) (env w1) = (Returns resp, r1) ->
  serves_pages s resp r1 pages r2 ->
  (length pages <= fuel)%nat ->
  exists w',
    fetch_data fuel obj fields w = Ret (concat (get_records resp :: pages)) w'
    /\ env w' = r2.
Proof.
  intros Hsf Hat Hk Hq Hp Hfuel.
  destruct (fetch_attempts_count _ _ _ s _ (announced obj fields w) _ _ Hsf Hat)
    as [Hfr _].
  assert (sf w1 = Some s) as Hsf1 by (destruct Hfr as (-> & _); exact Hsf).
  destruct (fetch_attempt_serves fuel _ s w1 resp r1 pages r2 Hsf1 Hq Hp Hfuel)
    as (w' & Hok & He & _).
  exists w'. split; [|exact He].
  rewrite fetch_data_unfold.
  eapply for_try_succeeds; [exact Hat | exact Hk | exact Hok].
Qed.

(** C2 (amended).  The retry loop of [fetch_data] wraps the whole paginated
    fetch, not the single page calls: when a next-page call fails, the
    attempt is abandoned, and the next attempt of the same budget issues
    the initial query again and fetches every page again; the result is
    made of the pages of that attempt only. *)
Theorem page_failure_restarts_fetch
    fuel obj fields s w resp r1 n e r2 resp' r3 pages r4 :
  sf w = Some s ->
  env_query s (select_soql obj fields) (env w) = (Returns resp, r1) ->
  page_fails s n resp r1 e r2 ->
  (n < fuel)%nat ->
  env_query s (select_soql obj fields) r2 = (Returns resp', r3) ->
  serves_pages s resp' r3 pages r4 ->
  (length pages <= fuel)%nat ->
  exists w',
    fetch_data fuel obj fields w = Ret (concat (get_records resp' :: pages)) w'
    /\ env w' = r4
    /\ count_events is_query (trace w')
       = (count_events is_query (trace w) + 2)%nat.
Proof.
  intros Hsf Hq Hpf Hn Hq' Hp Hfuel.
  destruct (fetch_attempt_page_fails fuel _ s (announced obj fields w)
              resp r1 n e r2 Hsf Hq Hpf Hn) as (w1 & Hfail & He1 & Hfr1).
  set (w2 := set_trace ((trace w1 ++ [EvPrint (MsgQueryRetry 1 5 e)])
                        ++ [EvSleep (2 ^ Z.of_nat 0)]) w1).
  assert (attempts_fail (fetch_attempt fuel (select_soql obj fields))
            (fetch_except 5) (seq 0 (length [e])) (announced obj fields w) [e] w2)
    as Hat.
  { eapply attempts_fail_cons; [exact Hfail | reflexivity | constructor]. }
  assert (sf w2 = Some s) as Hsf2.
  { destruct Hfr1 as (Hs & _). simpl. rewrite Hs. exact Hsf. }
  destruct (fetch_attempt_serves fuel (select_soql obj fields) s w2 resp' r3 pages r4)
    as (w' & Hok & He & _); [exact Hsf2 | simpl; rewrite He1; exact Hq' | exact Hp | exact Hfuel |].
  destruct (fetch_succeeds_after fuel obj fields s w [e] w2
              (concat (get_records resp' :: pages)) w' Hsf Hat) as [Hf Hc];
    [simpl; lia | exact Hok |].
  exists w'. split; [exact Hf | split; [exact He|]].
  rewrite Hc. simpl. lia.
Qed.

End PaginationContract.

(** C5 on three pages of sizes 2, 2 and 1: five records, in page order. *)
Lemma fetch_data_concatenates_pages_witness :
  exists w',
    fetch_data 2 "Account" ["Id"; "Name"] (Mock.connected Scenario.three_pages)
    = Ret [Scenario.r1; Scenario.r2; Scenario.r3; Scenario.r4; Scenario.r5] w'.
Proof.
  edestruct (fetch_data_concatenates_pages (R:=Mock.Remote) 2 "Account" ["Id"; "Name"]
               (mkSalesforce "instance" "session")
               (Mock.connected Scenario.three_pages) [])
    as (w' & Hf & _).
  - script.
  - apply attempts_fail_nil.
  - simpl. lia.
  - script.
  - eapply serves_next; [script | script |].
    eapply serves_next; [script | script |].
    apply serves_last. script.
  - simpl. lia.
  - exists w'. exact Hf.
Defined.

(** C2 on a fetch whose second page fails once: two initial queries. *)
Lemma page_failure_restarts_fetch_witness :
  exists w',
    fetch_data 2 "Account" ["Id"; "Name"] (Mock.connected Scenario.page_two_fails_once)
    = Ret [Scenario.r1; Scenario.r2; Scenario.r3] w'
    /\ count_events is_query (trace w') = 2%nat.
Proof.
  edestruct (page_failure_restarts_fetch (R:=Mock.Remote) 2 "Account" ["Id"; "Name"]
               (mkSalesforce "instance" "session")
               (Mock.connected Scenario.page_two_fails_once))
    as (w' & Hf & _ & Hc).
  - script.
  - script.
  - apply page_fails_now; script.
  - lia.
  - script.
  - eapply serves_next; [script | script |].
    apply serves_last. script.
  - simpl. lia.
  - exists w'. split; [exact Hf | exact Hc].
Defined.

(** C2 as stated fails.  When the second page fails once, the initial query
    is issued again (twice in all, not once); and failures of different
    calls use up one common budget: three failures of the initial query and
    two of the second page exhaust the five attempts, although no single
    call has failed five times. *)
Lemma page_failure_reissues_initial_query :
  (~ exists recs w',
       fetch_data 2 "Account" ["Id"; "Name"]
         (Mock.connected Scenario.page_two_fails_once) = Ret recs w'
       /\ count_events is_query (trace w') = 1%nat)
  /\ (~ exists recs w',
       fetch_data 2 "Account" ["Id"; "Name"]
         (Mock.connected Scenario.failures_add_up) = Ret recs w').
Proof.
  split.
  - intros (recs & w' & Hf & Hc). script_in Hf.
    injection Hf as <- <-. vm_compute in Hc. discriminate Hc.
  - intros (recs & w' & Hf). script_in Hf. discriminate Hf.
Qed.

(** ** Field resolution *)

Lemma retained_spec (name : string) :
  retained name = true <->
  In name Config.STANDARD_FIELDS \/ exists pre post, name = pre +:+ "__c" +:+ post.
Proof. unfold retained. rewrite orb_true_iff, list_in_spec, str_in_spec. reflexivity. Qed.

Lemma add_field_labels_keys (fields : list FieldDefinition) : forall m name,
  In name (dict_keys (fold_left add_field_label fields m)) <->
  In name (dict_keys m)
  \/ (In name (map QualifiedApiName fields) /\ retained name = true).
Proof.
  induction fields as [|f fields IH]; intros m name; simpl; [tauto|].
  rewrite IH. unfold add_field_label.
  destruct (retained (QualifiedApiName f)) eqn:E.
  - rewrite dict_keys_set_In. split.
    + intros [[->|?]|[? ?]]; auto.
    + intros [?|[[->|?] ?]]; auto.
  - split; [tauto|]. intros [?|[[Heq|?] Hr]]; auto. congruence.
Qed.

Lemma add_field_labels_NoDup (fields : list FieldDefinition) : forall m,
  NoDup (dict_keys m) -> NoDup (dict_keys (fold_left add_field_label fields m)).
Proof.
  induction fields as [|f fields IH]; intros m Hnd; simpl; [exact Hnd|].
  apply IH. unfold add_field_label.
  destruct (retained (QualifiedApiName f)); [apply dict_keys_set_NoDup|]; exact Hnd.
Qed.

Lemma add_field_labels_get (fields : list FieldDefinition) : forall m name label,
  dict_get (fold_left add_field_label fields m) name = Some label ->
  dict_get m name = Some label \/ In (mkFieldDefinition name label) fields.
Proof.
  induction fields as [|f fields IH]; intros m name label Hg; simpl in *; [auto|].
  apply IH in Hg as [Hg|Hin]; [|auto].
  unfold add_field_label in Hg.
  destruct (retained (QualifiedApiName f)); [|auto].
  destruct (String.eqb_spec (QualifiedApiName f) name) as [Heq|Hne].
  - subst name. rewrite dict_get_set_eq in Hg. injection Hg as <-.
    right. left. destruct f; reflexivity.
  - rewrite dict_get_set_ne in Hg; auto.
Qed.

Lemma add_field_labels_other (fields : list FieldDefinition) : forall m name,
  ~ In name (map QualifiedApiName fields) ->
  dict_get (fold_left add_field_label fields m) name = dict_get m name.
Proof.
  induction fields as [|f fields IH]; intros m name Hn; simpl in *; [reflexivity|].
  rewrite IH by tauto. unfold add_field_label.
  destruct (retained (QualifiedApiName f)); [|reflexivity].
  apply dict_get_set_ne. tauto.
Qed.

Lemma add_field_labels_label (fields : list FieldDefinition) : forall m f,
  NoDup (map QualifiedApiName fields) ->
  In f fields -> retained (QualifiedApiName f) = true ->
  dict_get (fold_left add_field_label fields m) (QualifiedApiName f)
  = Some (Label f).
Proof.
  induction fields as [|f0 fields IH]; intros m f Hnd Hin Hr; simpl in *; [tauto|].
  apply NoDup_cons in Hnd as [Hf0 Hnd].
  destruct Hin as [->|Hin]; [|auto].
  rewrite add_field_labels_other.
  - unfold add_field_label. rewrite Hr. apply dict_get_set_eq.
  - rewrite <- list_elem_of_In. exact Hf0.
Qed.

Section FieldResolution.

Context {R : Type} `{Env R}.
Implicit Types (w : World R).

(** C6.  Of the fields the metadata query returns, [get_field_labels]
    retains exactly those whose identifier is in [STANDARD_FIELDS] or
    contains ["__c"]; every other field is dropped without notice.  The
    map it returns has each retained identifier once, with a label the
    metadata gives for it, and with the label of the field when the
    metadata names each identifier once. *)
Theorem field_resolution obj s w md r' :
  sf w = Some s ->
  env_query_all s (field_definition_soql obj) (env w) = (Returns md, r') ->
  exists field_label_map w',
    get_field_labels obj w = Ret field_label_map w'
    /\ NoDup (dict_keys field_label_map)
    /\ (forall name,
          In name (dict_keys field_label_map) <->
          In name (map QualifiedApiName (get_records md))
          /\ (In name Config.STANDARD_FIELDS
              \/ exists pre post, name = pre +:+ "__c" +:+ post))
    /\ (forall name label,
          dict_get field_label_map name = Some label ->
          In (mkFieldDefinition name label) (get_records md))
    /\ (NoDup (map QualifiedApiName (get_records md)) ->
        forall f, In f (get_records md) ->
          In (QualifiedApiName f) (dict_keys field_label_map) ->
          dict_get field_label_map (QualifiedApiName f) = Some (Label f)).
Proof.
  intros Hsf Hq. eexists _, _. split.
  { unfold get_field_labels, bind, sf_query_all, on_sf, call.
    rewrite Hsf, Hq. reflexivity. }
  split; [apply add_field_labels_NoDup; apply NoDup_nil_2|].
  split; [|split].
  - intros name. rewrite add_field_labels_keys, <- retained_spec. simpl. tauto.
  - intros name label Hg. apply add_field_labels_get in Hg as [Hg|Hin];
      [discriminate Hg | exact Hin].
  - intros Hnd f Hin Hk. apply add_field_labels_label; [exact Hnd | exact Hin |].
    apply add_field_labels_keys in Hk as [[]|[_ Hr]]. exact Hr.
Qed.

End FieldResolution.

(** C6 on the identifiers ["Id"], ["Foo__c"] and ["RandomField"]: the first
    two are retained, with their labels, and the third is dropped. *)
Lemma field_resolution_witness :
  exists field_label_map w',
    get_field_labels "Account" (Mock.connected Scenario.three_fields)
    = Ret field_label_map w'
    /\ dict_keys field_label_map = ["Id"; "Foo__c"]
    /\ dict_get field_label_map "Id" = Some "Record ID"
    /\ dict_get field_label_map "Foo__c" = Some "Foo"
    /\ ~ In "RandomField" (dict_keys field_label_map).
Proof.
  edestruct (field_resolution (R:=Mock.Remote) "Account"
               (mkSalesforce "instance" "session")
               (Mock.connected Scenario.three_fields))
    as (m & w' & Hg & _ & Hkeys & _ & _).
  - script.
  - script.
  - exists m, w'. split; [exact Hg|].
    vm_compute in Hg. injection Hg as <- _.
    split; [script | split; [script | split; [script|]]].
    intros Hin. apply Hkeys in Hin as [_ [Hstd | (pre & post & Hc)]].
    + apply list_in_spec in Hstd. discriminate Hstd.
    + assert (str_in "__c" "RandomField" = true) as Hs
        by (apply str_in_spec; eauto).
      discriminate Hs.
Defined.

(** ** Row transform *)

Lemma invert_labels_unique (field_label_map : dict string) :
  NoDup (dict_values field_label_map) ->
  invert_labels field_label_map = map (fun kv => (kv.2, kv.1)) field_label_map.
Proof.
  intros Hnd. unfold invert_labels, dict_items. apply dict_of_pairs_NoDup.
  rewrite map_map. exact Hnd.
Qed.

Lemma make_row_unique (field_label_map : dict string) (rec : record) :
  NoDup (dict_values field_label_map) ->
  make_row (invert_labels field_label_map) rec
  = map (fun kv => (kv.2, default (VStr "") (rec !! kv.1))) field_label_map.
Proof.
  intros Hnd. rewrite (invert_labels_unique _ Hnd).
  unfold make_row, dict_items. rewrite map_map. simpl.
  apply dict_of_pairs_NoDup. rewrite map_map. exact Hnd.
Qed.

Lemma make_row_keys (field_label_map : dict string) (rec : record) :
  NoDup (dict_values field_label_map) ->
  dict_keys (make_row (invert_labels field_label_map) rec)
  = dict_values field_label_map.
Proof.
  intros Hnd. rewrite (make_row_unique _ _ Hnd).
  unfold dict_keys, dict_values. rewrite map_map. reflexivity.
Qed.

Lemma make_row_get (field_label_map : dict string) (rec : record) api label :
  NoDup (dict_values field_label_map) ->
  dict_get field_label_map api = Some label ->
  dict_get (make_row (invert_labels field_label_map) rec) label
  = Some (default (VStr "") (rec !! api)).
Proof.
  intros Hnd Hg. apply dict_In_get.
  - rewrite (make_row_keys _ _ Hnd). exact Hnd.
  - rewrite (make_row_unique _ _ Hnd). apply dict_get_In in Hg.
    apply in_map_iff. exists (api, label). auto.
Qed.

Section RowTransform.

Context {R : Type} `{Env R}.
Implicit Types (w : World R).

(** The [if records:] block on a non-empty list: the frame is built and
    handed to [to_csv] or to [to_excel]; the line is printed if the call
    returns. *)
Lemma save_records_spec obj (field_label_map : dict string) (records : list record) w :
  records <> [] ->
  let df : DataFrame := map (make_row (invert_labels field_label_map)) records in
  let big := 1000000 <=? Z.of_nat (length records) in
  let write := if big then EvToCsv (csv_path_of obj) df
               else EvToExcel (sheet_name_of obj) df in
  match (if big then env_to_csv (csv_path_of obj) df (env w)
         else env_to_excel (sheet_name_of obj) df (env w)) with
  | (Returns _, r') =>
      save_records obj field_label_map records w
      = Ret tt (mkWorld r' (sf w) (statistics w)
                  (trace w ++ [write; EvPrint (MsgSaved obj)]))
  | (Raises e, r') =>
      save_records obj field_label_map records w
      = Exn e (mkWorld r' (sf w) (statistics w) (trace w ++ [write]))
  end.
Proof.
  intros Hne df big write. destruct records as [|rec0 records]; [congruence|].
  unfold save_records, bind, to_csv, to_excel, call.
  set (recs := rec0 :: records) in *. fold df. fold big.
  subst write. destruct big.
  - destruct (env_to_csv (csv_path_of obj) df (env w)) as [[[]|e] r'];
      unfold print, emit, set_env, set_trace; simpl;
      rewrite <- ?app_assoc; reflexivity.
  - destruct (env_to_excel (sheet_name_of obj) df (env w)) as [[[]|e] r'];
      unfold print, emit, set_env, set_trace; simpl;
      rewrite <- ?app_assoc; reflexivity.
Qed.

(** C7.  When the labels of the resolved fields are pairwise distinct, the
    table built for a non-empty list of fetched records, which is the one
    handed to the write call, has exactly one row per record, in order; the
    columns of a row are the labels, and the value under a label is the
    record's value for that field's API identifier, or the empty string
    when the record has no such entry. *)
Theorem row_transform obj (field_label_map : dict string) (records : list record) w :
  NoDup (dict_values field_label_map) ->
  records <> [] ->
  exists (df : DataFrame),
    match save_records obj field_label_map records w with
    | Ret _ w' | Exn _ w' =>
        exists evs,
          trace w'
          = trace w ++ (if 1000000 <=? Z.of_nat (length records)
                        then EvToCsv (csv_path_of obj) df
                        else EvToExcel (sheet_name_of obj) df) :: evs
    | Diverge => False
    end
    /\ length df = length records
    /\ forall i rec,
         nth_error records i = Some rec ->
         exists row,
           nth_error df i = Some row
           /\ dict_keys row = dict_values field_label_map
           /\ forall api label,
                dict_get field_label_map api = Some label ->
                dict_get row label = Some (default (VStr "") (rec !! api)).
Proof.
  intros Hnd Hne.
  pose proof (save_records_spec obj field_label_map records w Hne) as Hs.
  cbv zeta in Hs.
  exists (map (make_row (invert_labels field_label_map)) records).
  split; [|split].
  - destruct (1000000 <=? Z.of_nat (length records)).
    + destruct (env_to_csv _ _ (env w)) as [[[]|e] r']; rewrite Hs; simpl;
        eexists; reflexivity.
    + destruct (env_to_excel _ _ (env w)) as [[[]|e] r']; rewrite Hs; simpl;
        eexists; reflexivity.
  - apply length_map.
  - intros i rec Hi. exists (make_row (invert_labels field_label_map) rec).
    split; [apply map_nth_error; exact Hi|].
    split; [apply make_row_keys; exact Hnd|].
    intros api label Hg. apply make_row_get; assumption.
Qed.

End RowTransform.

(** C7 on two records and the fields ["Id"] and ["Foo__c"], which the
    records lack: two rows, keyed by label, with the empty string for the
    missing field. *)
Lemma row_transform_witness :
  exists (df : DataFrame) w',
    save_records "Account" [("Id", "Record ID"); ("Foo__c", "Foo")]
      [Scenario.r1; Scenario.r2] (Mock.connected Scenario.no_replies)
    = Ret tt w'
    /\ trace w' = [EvToExcel "Account" df; EvPrint (MsgSaved "Account")]
    /\ df = [ [("Record ID", VStr "001"); ("Foo", VStr "")];
              [("Record ID", VStr "002"); ("Foo", VStr "")] ].
Proof.
  edestruct (row_transform (R:=Mock.Remote) "Account"
               [("Id", "Record ID"); ("Foo__c", "Foo")]
               [Scenario.r1; Scenario.r2] (Mock.connected Scenario.no_replies))
    as (df & Htr & _ & _).
  - apply NoDup_cons. split; [|apply NoDup_singleton].
    intros Hin. apply list_elem_of_In in Hin. destruct Hin as [Hx|[]]. discriminate Hx.
  - discriminate.
  - vm_compute in Htr. destruct Htr as (evs & Heq).
    injection Heq as Hdf Hevs. subst df evs.
    eexists _, _. split; [vm_compute; reflexivity|]. split; reflexivity.
Defined.

(** ** Statistics *)

Section StatisticsFile.

Context {R : Type} `{Env R}.
Implicit Types (w : World R).

(** A flush that finds the file absent, or reads it: the rows read and the
    rows of the run are handed to [to_csv]; the line is printed if the
    call returns. *)
Lemma save_statistics_spec w existing r evs :
  file_found w existing r evs ->
  let df : DataFrame := existing ++ map stat_row (statistics w) in
  match env_to_csv log_file_path df r with
  | (Returns _, r') =>
      save_statistics w
      = Ret tt (mkWorld r' (sf w) (statistics w)
                  (trace w ++ evs ++ [EvToCsv log_file_path df;
                                      EvPrint (MsgStatisticsSaved log_file_path)]))
  | (Raises e, r') =>
      save_statistics w
      = Exn e (mkWorld r' (sf w) (statistics w)
                 (trace w ++ evs ++ [EvToCsv log_file_path df]))
  end.
Proof.
  intros Hfile df. subst df.
  unfold save_statistics, bind, os_path_exists, read_csv, read, to_csv, call, print, emit.
  destruct Hfile as [r Hex | r1 rows r Hex Hread]; rewrite Hex; simpl.
  - destruct (env_to_csv log_file_path (map stat_row (statistics w)) r)
      as [[[]|e] r']; simpl; rewrite <- ?app_assoc; reflexivity.
  - rewrite Hread. simpl.
    destruct (env_to_csv log_file_path (rows ++ map stat_row (statistics w)) r)
      as [[[]|e] r']; simpl; rewrite <- ?app_assoc; reflexivity.
Qed.

(** A flush whose reading of the file fails: it raises, and the file is
    not rewritten. *)
Lemma save_statistics_unreadable w r1 e r2 :
  env_path_exists log_file_path (env w) = (true, r1) ->
  env_read_csv log_file_path r1 = (Raises e, r2) ->
  save_statistics w
  = Exn e (mkWorld r2 (sf w) (statistics w) (trace w ++ [EvReadCsv log_file_path])).
Proof.
  intros Hex Hread.
  unfold save_statistics, bind, os_path_exists, read_csv, read, call.
  rewrite Hex. simpl. rewrite Hread. reflexivity.
Qed.

(** C9.  A flush reads the rows the statistics file holds, if there is a
    file, and hands [to_csv] these rows followed by one row per record of
    the run, in order, for the same path: the file is rewritten as a whole,
    the earlier rows first.  Hence when a second run finds what the first
    one wrote, it writes the rows from before the first run, then those of
    the first run, then its own.  A flush that cannot read the file raises
    without writing.  A row holds the five fields of its record. *)
Theorem statistics_accumulate w1 w2 before r1 evs1 r2 evs2 :
  let rows (stats : list Statistics) : DataFrame :=
    map (fun stat =>
           [ ("Object Name", VStr (object_name stat));
             ("Start Time", VInt (start_time stat));
             ("End Time", VInt (end_time stat));
             ("Duration (Seconds)", VInt (duration stat));
             ("Last Refresh Date", VStr (last_refresh_date stat)) ]) stats in
  file_found w1 before r1 evs1 ->
  file_found w2 (before ++ rows (statistics w1)) r2 evs2 ->
  (exists w1' printed,
     (save_statistics w1 = Ret tt w1' \/ exists e, save_statistics w1 = Exn e w1')
     /\ statistics w1' = statistics w1
     /\ trace w1'
        = trace w1 ++ evs1
          ++ EvToCsv log_file_path (before ++ rows (statistics w1))
             :: map EvPrint printed)
  /\ (exists w2' printed,
        (save_statistics w2 = Ret tt w2' \/ exists e, save_statistics w2 = Exn e w2')
        /\ statistics w2' = statistics w2
        /\ trace w2'
           = trace w2 ++ evs2
             ++ EvToCsv log_file_path
                  (before ++ rows (statistics w1) ++ rows (statistics w2))
                :: map EvPrint printed)
  /\ (forall w r e r',
        env_path_exists log_file_path (env w) = (true, r) ->
        env_read_csv log_file_path r = (Raises e, r') ->
        exists w',
          save_statistics w = Exn e w'
          /\ statistics w' = statistics w
          /\ trace w' = trace w ++ [EvReadCsv log_file_path]).
Proof.
  intros rows Hf1 Hf2.
  assert (Hflush : forall w existing r evs,
             file_found w existing r evs ->
             exists w' printed,
               (save_statistics w = Ret tt w' \/ exists e, save_statistics w = Exn e w')
               /\ statistics w' = statistics w
               /\ trace w'
                  = trace w ++ evs
                    ++ EvToCsv log_file_path (existing ++ rows (statistics w))
                       :: map EvPrint printed).
  { intros w existing r evs Hf.
    pose proof (save_statistics_spec w existing r evs Hf) as Hs. cbv zeta in Hs.
    change (map stat_row (statistics w)) with (rows (statistics w)) in Hs.
    destruct (env_to_csv log_file_path (existing ++ rows (statistics w)) r)
      as [[[]|e] r'].
    - eexists _, [MsgStatisticsSaved log_file_path].
      split; [left; exact Hs|]. split; reflexivity.
    - eexists _, []. split; [right; exists e; exact Hs|]. split; reflexivity. }
  split; [exact (Hflush w1 before r1 evs1 Hf1)|]. split.
  - destruct (Hflush w2 _ r2 evs2 Hf2) as (w2' & printed & Hs & Hst & Htr).
    exists w2', printed. split; [exact Hs | split; [exact Hst|]].
    rewrite Htr, <- app_assoc. reflexivity.
  - intros w r e r' Hex Hread. eexists.
    split; [apply (save_statistics_unreadable w r e r' Hex Hread)|].
    split; reflexivity.
Qed.

End StatisticsFile.

(** C9 on two runs, the first starting without a statistics file: the
    second one rewrites the file with the rows of both, the first run's
    first. *)
Lemma statistics_accumulate_witness :
  exists w1' w2',
    save_statistics Scenario.first_run = Ret tt w1'
    /\ env w1' = Scenario.after_first_run
    /\ save_statistics (Scenario.second_run Scenario.after_first_run) = Ret tt w2'
    /\ filter (fun e => is_write e = true) (trace w2')
       = [ EvToCsv "files/Pipeline_Logs.csv"
             [ [ ("Object Name", VStr "Account"); ("Start Time", VInt 0);
                 ("End Time", VInt 4); ("Duration (Seconds)", VInt 4);
                 ("Last Refresh Date", VStr "2025-01-30") ];
               [ ("Object Name", VStr "Contact"); ("Start Time", VInt 4);
                 ("End Time", VInt 9); ("Duration (Seconds)", VInt 5);
                 ("Last Refresh Date", VStr "2025-01-30") ];
               [ ("Object Name", VStr "Account"); ("Start Time", VInt 50);
                 ("End Time", VInt 53); ("Duration (Seconds)", VInt 3);
                 ("Last Refresh Date", VStr "2025-01-31") ] ] ].
Proof.
  edestruct (statistics_accumulate (R:=Mock.Remote) Scenario.first_run
               (Scenario.second_run Scenario.after_first_run) [])
    as (_ & (w2' & printed & Hs2 & _ & Htr2) & _).
  - apply file_absent. reflexivity.
  - eapply file_read; reflexivity.
  - eexists _, w2'. split; [vm_compute; reflexivity|]. split; [reflexivity|].
    destruct Hs2 as [Hs2 | (e & Hs2)]; [|vm_compute in Hs2; discriminate Hs2].
    split; [exact Hs2|].
    vm_compute in Hs2. injection Hs2 as <-. vm_compute. reflexivity.
Defined.

(** ** The per-object export *)

Section ObjectExport.

Context {R : Type} `{Env R}.
Implicit Types (w : World R).

Lemma remote_get_field_labels obj : emits remote_event (get_field_labels obj).
Proof.
  unfold get_field_labels. apply emits_bind.
  - apply emits_on_sf. intros s. apply emits_call. exact I.
  - intros md. apply emits_ret.
Qed.

Lemma remote_fetch_data fuel obj fields :
  emits remote_event (fetch_data fuel obj fields).
Proof.
  unfold fetch_data. apply emits_bind; [apply emits_emit; exact I|].
  intros _. apply emits_for_try.
  - unfold fetch_attempt. apply emits_bind.
    + apply emits_on_sf. intros s. apply emits_call. exact I.
    + intros resp. eapply emits_weaken; [|apply query_more_loop_emits].
      intros [] He; simpl in He; try discriminate He; exact I.
  - intros i e. unfold fetch_except, sleep_backoff.
    apply emits_bind; [|intros _]; apply emits_emit; exact I.
  - apply emits_raise.
Qed.

Lemma remote_event_quiet e : remote_event e -> quiet e.
Proof. destruct e; simpl; intros []; reflexivity. Qed.

Lemma remote_event_unlocked e : remote_event e -> unlocked e.
Proof. destruct e; simpl; intros []; split; discriminate. Qed.

Lemma emits_get_field_labels obj : emits quiet (get_field_labels obj).
Proof.
  eapply emits_weaken; [exact remote_event_quiet | apply remote_get_field_labels].
Qed.

Lemma emits_fetch_data fuel obj fields : emits quiet (fetch_data fuel obj fields).
Proof.
  eapply emits_weaken; [exact remote_event_quiet | apply remote_fetch_data].
Qed.

(** The [if records:] block only calls out: a write and a printed line. *)
Lemma emits_save_records (P : event -> Prop) obj field_label_map records :
  (forall e, is_write e = true -> P e) -> (forall m, P (EvPrint m)) ->
  emits P (save_records obj field_label_map records).
Proof.
  intros Hw Hp. destruct records as [|rec records]; [apply emits_ret|].
  unfold save_records, to_csv, to_excel.
  apply emits_bind; [|intros _; apply emits_emit, Hp].
  destruct (1000000 <=? Z.of_nat (length (rec :: records)));
    apply emits_call, Hw; reflexivity.
Qed.

(** Where there is no write, the selection of the writes is empty. *)
Lemma filter_quiet (evs : list event) :
  Forall quiet evs -> filter (fun e => is_write e = true) evs = [].
Proof.
  induction 1 as [|e evs He _ IH]; [reflexivity|].
  rewrite filter_cons. destruct (decide (is_write e = true)) as [Hw|_]; [|exact IH].
  unfold quiet in He. congruence.
Qed.

Lemma filter_prints (ms : list message) :
  filter (fun e => is_write e = true) (map EvPrint ms) = [].
Proof.
  apply filter_quiet. apply Forall_forall. intros e Hin.
  apply list_elem_of_In, in_map_iff in Hin as (m & <- & _). reflexivity.
Qed.

(** What a block that returns has handed over. *)
Lemma save_records_returned obj field_label_map records w w' :
  save_records obj field_label_map records w = Ret tt w' ->
  frame w w'
  /\ exists printed,
       trace w' = trace w ++ handed_over obj field_label_map records
                  ++ map EvPrint printed.
Proof.
  intros Hs. destruct records as [|rec records].
  - injection Hs as <-. split; [apply frame_refl|].
    exists []. simpl. rewrite app_nil_r. reflexivity.
  - pose proof (save_records_spec obj field_label_map (rec :: records) w
                  ltac:(discriminate)) as Hspec.
    cbv zeta in Hspec. unfold handed_over.
    fold (csv_path_of obj). fold (sheet_name_of obj).
    destruct (1000000 <=? Z.of_nat (length (rec :: records))).
    + destruct (env_to_csv _ _ (env w)) as [[[]|e] r'];
        rewrite Hspec in Hs; [|discriminate Hs].
      injection Hs as <-. split; [repeat split|].
      exists [MsgSaved obj]. reflexivity.
    + destruct (env_to_excel _ _ (env w)) as [[[]|e] r'];
        rewrite Hspec in Hs; [|discriminate Hs].
      injection Hs as <-. split; [repeat split|].
      exists [MsgSaved obj]. reflexivity.
Qed.

Lemma export_unfold fuel obj w :
  export_salesforce_object fuel obj w
  = try_except (export_body fuel obj (started obj w).1)
      (fun e => print (MsgError obj (exc_msg e)))
      (started obj w).2.
Proof.
  unfold export_salesforce_object, started, bind, read.
  destruct (env_now (env w)) as [t r']. reflexivity.
Qed.

Lemma started_frame obj w :
  frame w (started obj w).2
  /\ trace (started obj w).2
     = trace w ++ [EvPrint (MsgProcessing obj); EvPrint (MsgStartTime (started obj w).1)].
Proof.
  unfold started. destruct (env_now (env w)) as [t r']. simpl.
  split; [repeat split | rewrite <- app_assoc; reflexivity].
Qed.

Lemma completed_spec obj t0 w :
  exists t1 today,
    statistics (completed obj t0 w)
    = statistics w ++ [mkStatistics obj t0 t1 (t1 - t0) today]
    /\ sf (completed obj t0 w) = sf w
    /\ trace (completed obj t0 w)
       = trace w ++ [EvPrint (MsgEndTime t1); EvPrint (MsgDuration (t1 - t0))].
Proof.
  unfold completed. destruct (env_now (env w)) as [t r1].
  destruct (env_today r1) as [today r2]. exists t, today. simpl.
  rewrite <- app_assoc. repeat split.
Qed.

Lemma export_body_returns fuel obj t0 w field_label_map w1 records w2 w3 :
  get_field_labels obj w = Ret field_label_map w1 ->
  fetch_data fuel obj (dict_keys field_label_map) w1 = Ret records w2 ->
  save_records obj field_label_map records w2 = Ret tt w3 ->
  export_body fuel obj t0 w = Ret tt (completed obj t0 w3).
Proof.
  intros Hg Hf Hs. unfold export_body, bind. rewrite Hg, Hf, Hs.
  unfold read, completed. destruct (env_now (env w3)) as [t r1]. simpl.
  destruct (env_today r1) as [today r2]. reflexivity.
Qed.

(** A [try] block that raises has recorded nothing: it raised in the field
    resolution, in the fetch or in the write. *)
Lemma export_body_raises fuel obj t0 w e w' :
  export_body fuel obj t0 w = Exn e w' ->
  frame w w' /\ exists evs, trace w' = trace w ++ evs.
Proof.
  intros Hb. unfold export_body, bind in Hb.
  pose proof (emits_get_field_labels obj w) as Hg.
  destruct (get_field_labels obj w) as [m w1|e1 w1|]; [| |discriminate Hb].
  - pose proof (emits_fetch_data fuel obj (dict_keys m) w1) as Hf.
    destruct (fetch_data fuel obj (dict_keys m) w1) as [recs w2|e2 w2|];
      [| |discriminate Hb].
    + pose proof (emits_save_records (fun _ => True) obj m recs
                    (fun _ _ => I) (fun _ => I) w2) as Hs.
      destruct (save_records obj m recs w2) as [[] w3|e3 w3|];
        [| |discriminate Hb].
      * exfalso. unfold read in Hb.
        destruct (env_now (env w3)) as [t r1]. simpl in Hb.
        destruct (env_today r1) as [today r2]. discriminate Hb.
      * injection Hb as <- <-.
        destruct Hg as [Hfr1 (evs1 & Htr1 & _)].
        destruct Hf as [Hfr2 (evs2 & Htr2 & _)].
        destruct Hs as [Hfr3 (evs3 & Htr3 & _)].
        split; [eapply frame_trans; [exact Hfr1|]; eapply frame_trans; eauto|].
        exists (evs1 ++ evs2 ++ evs3).
        rewrite Htr3, Htr2, Htr1, <- !app_assoc. reflexivity.
    + injection Hb as <- <-.
      destruct Hg as [Hfr1 (evs1 & Htr1 & _)].
      destruct Hf as [Hfr2 (evs2 & Htr2 & _)].
      split; [eapply frame_trans; eauto|].
      exists (evs1 ++ evs2). rewrite Htr2, Htr1, app_assoc. reflexivity.
  - injection Hb as <- <-. destruct Hg as [Hfr1 (evs1 & Htr1 & _)].
    split; [exact Hfr1 | exists evs1; exact Htr1].
Qed.

(** A failure of the field resolution or of the fetch is a failure of the
    [try] block, before anything is written. *)
Lemma remote_failure_raises fuel obj w e w' :
  remote_failure fuel obj w e w' ->
  export_body fuel obj (started obj w).1 (started obj w).2 = Exn e w'
  /\ frame (started obj w).2 w'
  /\ exists evs, trace w' = trace (started obj w).2 ++ evs /\ Forall quiet evs.
Proof.
  intros [Hg | (m & w1 & Hg & Hf)]; unfold export_body, bind; rewrite Hg.
  - split; [reflexivity|].
    exact (emits_Exn _ _ _ _ _ (emits_get_field_labels obj) Hg).
  - rewrite Hf. split; [reflexivity|].
    destruct (emits_Ret _ _ _ _ _ (emits_get_field_labels obj) Hg)
      as [Hfr1 (evs1 & Htr1 & Hq1)].
    destruct (emits_Exn _ _ _ _ _ (emits_fetch_data fuel obj _) Hf)
      as [Hfr2 (evs2 & Htr2 & Hq2)].
    split; [eapply frame_trans; eauto|].
    exists (evs1 ++ evs2). rewrite Htr2, Htr1, app_assoc.
    split; [reflexivity | apply Forall_app; auto].
Qed.

(** The export of one object never raises. *)
Lemma export_never_raises fuel obj w :
  (exists w', export_salesforce_object fuel obj w = Ret tt w')
  \/ export_salesforce_object fuel obj w = Diverge.
Proof.
  rewrite export_unfold. unfold try_except.
  destruct (export_body fuel obj (started obj w).1 (started obj w).2)
    as [[] w1|e w1|]; [left; eauto | left; eexists; reflexivity | right; reflexivity].
Qed.

(** An export whose field resolution or fetch fails: the error is
    reported, nothing else remains of it. *)
Lemma export_failure fuel obj w e w1 :
  remote_failure fuel obj w e w1 ->
  export_salesforce_object fuel obj w = Ret tt (reported obj e w1)
  /\ frame w (reported obj e w1)
  /\ count_events is_write (trace (reported obj e w1)) = count_events is_write (trace w)
  /\ exists evs,
       trace (reported obj e w1) = trace w ++ evs ++ [EvPrint (MsgError obj (exc_msg e))]
       /\ Forall quiet evs.
Proof.
  intros Hfail.
  destruct (remote_failure_raises _ _ _ _ _ Hfail) as (Hb & Hfr & evs & Htr & Hq).
  destruct (started_frame obj w) as [Hfr0 Htr0].
  split; [rewrite export_unfold; unfold try_except; rewrite Hb; reflexivity|].
  split; [eapply frame_trans; [exact Hfr0|]; eapply frame_trans; [exact Hfr|]; repeat split|].
  simpl. rewrite Htr, Htr0. split.
  - rewrite !count_events_app, (count_events_none is_write evs Hq).
    unfold count_events. simpl. lia.
  - exists ([EvPrint (MsgProcessing obj); EvPrint (MsgStartTime (started obj w).1)]
             ++ evs).
    rewrite <- !app_assoc. split; [reflexivity|].
    apply Forall_app. split; [|exact Hq].
    repeat (apply Forall_cons; split; [reflexivity|]). apply Forall_nil_2.
Qed.

End ObjectExport.

(** ** Traces of methods that also change the state *)

Section Traces.

Context {R : Type} `{Env R}.
Implicit Types (w : World R) (P : event -> Prop).

Lemma traces_of_emits {A} P (m : M R A) : emits P m -> traces P m.
Proof.
  intros Hm w. specialize (Hm w).
  destruct (m w) as [a w'|e w'|]; [| |exact I]; apply Hm.
Qed.

Lemma traces_ret {A} P (a : A) : traces (R:=R) P (ret a).
Proof. apply traces_of_emits, emits_ret. Qed.

Lemma traces_bind {A B} P (m : M R A) (f : A -> M R B) :
  traces P m -> (forall a, traces P (f a)) -> traces P (bind m f).
Proof.
  intros Hm Hf w. unfold bind. specialize (Hm w).
  destruct (m w) as [a w1|e w1|]; [|exact Hm|exact I].
  destruct Hm as (evs & Htr & Hevs). specialize (Hf a w1).
  destruct (f a w1) as [b w2|e w2|]; [| |exact I];
    destruct Hf as (evs' & Htr' & Hevs');
    exists (evs ++ evs'); rewrite Htr', Htr, app_assoc;
    (split; [reflexivity | apply Forall_app; auto]).
Qed.

Lemma traces_try_except {A} P (body : M R A) (handler : exc -> M R A) :
  traces P body -> (forall e, traces P (handler e)) ->
  traces P (try_except body handler).
Proof.
  intros Hm Hf w. unfold try_except. specialize (Hm w).
  destruct (body w) as [a w1|e w1|]; [exact Hm| |exact I].
  destruct Hm as (evs & Htr & Hevs). specialize (Hf e w1).
  destruct (handler e w1) as [b w2|e' w2|]; [| |exact I];
    destruct Hf as (evs' & Htr' & Hevs');
    exists (evs ++ evs'); rewrite Htr', Htr, app_assoc;
    (split; [reflexivity | apply Forall_app; auto]).
Qed.

Lemma traces_print P m : P (EvPrint m) -> traces (R:=R) P (print m).
Proof. intros Hp. apply traces_of_emits, emits_emit, Hp. Qed.

Lemma traces_to_excel P sheet df :
  P (EvToExcel sheet df) -> traces (R:=R) P (to_excel sheet df).
Proof. intros Hp. apply traces_of_emits, emits_call, Hp. Qed.

Lemma traces_to_csv P path df :
  P (EvToCsv path df) -> traces (R:=R) P (to_csv path df).
Proof. intros Hp. apply traces_of_emits, emits_call, Hp. Qed.

Lemma traces_append_statistics P stat : traces (R:=R) P (append_statistics stat).
Proof. intros w. simpl. exists []. rewrite app_nil_r. auto. Qed.

Lemma traces_save_records P obj field_label_map records :
  (forall e, is_write e = true -> P e) -> (forall m, P (EvPrint m)) ->
  traces P (save_records obj field_label_map records).
Proof.
  intros Hw Hp. destruct records as [|rec records]; [apply traces_ret|].
  unfold save_records. apply traces_bind; [|intros _; apply traces_print, Hp].
  destruct (1000000 <=? Z.of_nat (length (rec :: records)));
    [apply traces_to_csv | apply traces_to_excel]; apply Hw; reflexivity.
Qed.

Lemma traces_export_body fuel obj t0 : traces unlocked (export_body fuel obj t0).
Proof.
  unfold export_body. apply traces_bind.
  { apply traces_of_emits. eapply emits_weaken;
      [exact remote_event_unlocked | apply remote_get_field_labels]. }
  intros m. apply traces_bind.
  { apply traces_of_emits. eapply emits_weaken;
      [exact remote_event_unlocked | apply remote_fetch_data]. }
  intros recs. apply traces_bind.
  { apply traces_save_records.
    - intros [] He; simpl in He; try discriminate He; split; discriminate.
    - intros msg. split; discriminate. }
  intros _. apply traces_bind; [apply traces_of_emits, emits_read|].
  intros t1. apply traces_bind; [apply traces_of_emits, emits_read|].
  intros today. apply traces_bind; [apply traces_append_statistics|].
  intros _. apply traces_bind; [|intros _]; apply traces_print; split; discriminate.
Qed.

(** No export takes or releases a lock. *)
Lemma traces_export fuel obj : traces unlocked (export_salesforce_object fuel obj).
Proof.
  unfold export_salesforce_object.
  apply traces_bind; [apply traces_of_emits, emits_read|]. intros t0.
  apply traces_bind; [apply traces_print; split; discriminate|]. intros _.
  apply traces_bind; [apply traces_print; split; discriminate|]. intros _.
  apply traces_try_except; [apply traces_export_body|].
  intros e. apply traces_print. split; discriminate.
Qed.

Lemma traces_in_sequence P (ms : list (M R unit)) :
  Forall (traces P) ms -> traces P (in_sequence ms).
Proof.
  induction 1 as [|m ms Hm _ IH]; simpl; [apply traces_ret|].
  apply traces_bind; [exact Hm | intros _; exact IH].
Qed.

(** *** The statistics an export appends *)

Lemma export_body_statistics fuel obj t0 w w' :
  export_body fuel obj t0 w = Ret tt w' ->
  exists t1 today,
    statistics w' = statistics w ++ [mkStatistics obj t0 t1 (t1 - t0) today].
Proof.
  intros Hb. unfold export_body, bind in Hb.
  pose proof (remote_get_field_labels obj w) as Hg.
  destruct (get_field_labels obj w) as [m w1|e1 w1|]; try discriminate Hb.
  pose proof (remote_fetch_data fuel obj (dict_keys m) w1) as Hf.
  destruct (fetch_data fuel obj (dict_keys m) w1) as [recs w2|e2 w2|];
    try discriminate Hb.
  destruct (save_records obj m recs w2) as [[] w3|e3 w3|] eqn:Hs;
    try discriminate Hb.
  apply save_records_returned in Hs as [(_ & Hst3) _].
  unfold read in Hb. destruct (env_now (env w3)) as [t1 r1]. simpl in Hb.
  destruct (env_today r1) as [today r2]. injection Hb as <-.
  exists t1, today. simpl.
  destruct Hg as [(_ & Hst1) _]. destruct Hf as [(_ & Hst2) _].
  congruence.
Qed.

Lemma export_statistics fuel obj w w' :
  export_salesforce_object fuel obj w = Ret tt w' ->
  exists recs,
    statistics w' = statistics w ++ recs
    /\ Forall (fun stat => object_name stat = obj) recs.
Proof.
  rewrite export_unfold. unfold try_except. intros He.
  destruct (started_frame obj w) as [(_ & Hst0) _].
  destruct (export_body fuel obj (started obj w).1 (started obj w).2)
    as [[] w1|e w1|] eqn:Hb; try discriminate He.
  - injection He as <-.
    destruct (export_body_statistics _ _ _ _ _ Hb) as (t1 & today & Hst).
    eexists. rewrite Hst, Hst0. split; [reflexivity|].
    apply Forall_cons. split; [reflexivity | apply Forall_nil_2].
  - injection He as <-.
    destruct (export_body_raises _ _ _ _ _ _ Hb) as [(_ & Hst) _].
    exists []. simpl. rewrite app_nil_r, Hst, Hst0. auto.
Qed.

Lemma serial_run_statistics fuel objs w w' :
  serial_run fuel objs w w' ->
  exists recs,
    statistics w' = statistics w ++ recs
    /\ Forall (fun stat => In (object_name stat) objs) recs.
Proof.
  induction 1 as [w|obj objs w w1 w2 He _ (recs2 & Hst2 & Hin2)].
  - exists []. rewrite app_nil_r. auto.
  - destruct (export_statistics _ _ _ _ He) as (recs1 & Hst1 & Hin1).
    exists (recs1 ++ recs2). rewrite Hst2, Hst1, app_assoc.
    split; [reflexivity|]. apply Forall_app. split.
    + eapply Forall_impl; [exact Hin1|]. intros stat <-. left. reflexivity.
    + eapply Forall_impl; [exact Hin2|]. intros stat Hs. right. exact Hs.
Qed.

End Traces.

Section ExportContract.

Context {R : Type} `{Env R}.
Implicit Types (w : World R).

(** C10.  When the fields are resolved and the fetch returns no record, the
    export writes nothing, neither a sheet nor a file: it makes no write
    call at all, and still appends the Statistics record of the object.
    An export that is skipped because its field resolution or its fetch
    fails makes no write call either: in the output the two cases look
    the same, and only the statistics tell them apart. *)
Theorem zero_records_export fuel obj w field_label_map w1 w2 :
  get_field_labels obj (started obj w).2 = Ret field_label_map w1 ->
  fetch_data fuel obj (dict_keys field_label_map) w1 = Ret [] w2 ->
  (exists w' t1 today,
     export_salesforce_object fuel obj w = Ret tt w'
     /\ (exists evs, trace w' = trace w ++ evs /\ Forall quiet evs)
     /\ count_events is_write (trace w') = count_events is_write (trace w)
     /\ statistics w'
        = statistics w
          ++ [mkStatistics obj (started obj w).1 t1 (t1 - (started obj w).1) today])
  /\ (forall skipped v e vf,
        remote_failure fuel skipped v e vf ->
        exists v',
          export_salesforce_object fuel skipped v = Ret tt v'
          /\ (exists evs, trace v' = trace v ++ evs /\ Forall quiet evs)
          /\ count_events is_write (trace v') = count_events is_write (trace v)
          /\ statistics v' = statistics v).
Proof.
  intros Hg Hf. split.
  - destruct (started_frame obj w) as [(_ & Hst0) Htr0].
    destruct (emits_Ret _ _ _ _ _ (emits_get_field_labels obj) Hg)
      as [(_ & Hst1) (evs1 & Htr1 & Hq1)].
    destruct (emits_Ret _ _ _ _ _ (emits_fetch_data fuel obj _) Hf)
      as [(_ & Hst2) (evs2 & Htr2 & Hq2)].
    destruct (completed_spec obj (started obj w).1 w2)
      as (t1 & today & Hst & _ & Htr).
    exists (completed obj (started obj w).1 w2), t1, today.
    assert (Hall : trace (completed obj (started obj w).1 w2)
                   = trace w
                     ++ (map EvPrint [MsgProcessing obj; MsgStartTime (started obj w).1]
                         ++ evs1 ++ evs2
                         ++ map EvPrint [MsgEndTime t1;
                                         MsgDuration (t1 - (started obj w).1)])).
    { rewrite Htr, Htr2, Htr1, Htr0, <- !app_assoc. reflexivity. }
    assert (Hquiet : Forall quiet
                       (map EvPrint [MsgProcessing obj; MsgStartTime (started obj w).1]
                        ++ evs1 ++ evs2
                        ++ map EvPrint [MsgEndTime t1;
                                        MsgDuration (t1 - (started obj w).1)])).
    { repeat (apply Forall_app; split); try assumption;
        repeat (apply Forall_cons; split; [reflexivity|]); apply Forall_nil_2. }
    split; [|split; [|split]].
    + rewrite export_unfold. unfold try_except.
      rewrite (export_body_returns fuel obj _ _ field_label_map w1 [] w2 w2 Hg Hf eq_refl).
      reflexivity.
    + eexists. split; [exact Hall | exact Hquiet].
    + rewrite Hall, count_events_app, (count_events_none is_write _ Hquiet). lia.
    + rewrite Hst. congruence.
  - intros skipped v e vf Hfail.
    destruct (export_failure fuel skipped v e vf Hfail)
      as (He & (_ & Hst) & Hc & evs & Htr & Hq).
    exists (reported skipped e vf). split; [exact He|].
    split; [|split; [exact Hc | exact Hst]].
    eexists. split; [exact Htr|].
    apply Forall_app. split; [exact Hq|].
    apply Forall_cons. split; [reflexivity | apply Forall_nil_2].
Qed.

(** C8 (amended).  An export with at least one record makes exactly one
    write call.  With fewer than 1,000,000 records the frame goes to
    [to_excel], for the sheet named after the object with every occurrence
    of ["__c"] removed and the underscores then replaced by spaces; with
    1,000,000 records or more it goes to [to_csv], for [<object>.csv] in
    the local folder.  The export completes, with its Statistics record,
    exactly when that call returns; when the call raises, the export ends
    with the error line and without a record.  (An export without records
    makes no write call.) *)
Theorem export_materializes_once fuel obj w field_label_map w1 records w2 :
  get_field_labels obj (started obj w).2 = Ret field_label_map w1 ->
  fetch_data fuel obj (dict_keys field_label_map) w1 = Ret records w2 ->
  records <> [] ->
  let df : DataFrame := map (make_row (invert_labels field_label_map)) records in
  let sheet := str_replace "_" " " (str_replace "__c" "" obj) in
  let path := os_path_join LOCAL_FOLDER (obj +:+ ".csv") in
  let big := 1000000 <=? Z.of_nat (length records) in
  let write := if big then EvToCsv path df else EvToExcel sheet df in
  exists w' evs,
    export_salesforce_object fuel obj w = Ret tt w'
    /\ trace w' = trace w ++ evs
    /\ filter (fun e => is_write e = true) evs = [write]
    /\ count_events is_write (trace w')
       = (count_events is_write (trace w) + 1)%nat
    /\ match (if big then env_to_csv path df (env w2)
              else env_to_excel sheet df (env w2)).1 with
       | Returns _ =>
           (exists t1 today,
              statistics w'
              = statistics w
                ++ [mkStatistics obj (started obj w).1 t1
                      (t1 - (started obj w).1) today])
           /\ In (EvPrint (MsgSaved obj)) evs
       | Raises e =>
           statistics w' = statistics w
           /\ last evs = Some (EvPrint (MsgError obj (exc_msg e)))
       end.
Proof.
  intros Hg Hf Hne df sheet path big write.
  destruct (started_frame obj w) as [(_ & Hst0) Htr0].
  destruct (emits_Ret _ _ _ _ _ (emits_get_field_labels obj) Hg)
    as [(_ & Hst1) (evs1 & Htr1 & Hq1)].
  destruct (emits_Ret _ _ _ _ _ (emits_fetch_data fuel obj _) Hf)
    as [(_ & Hst2) (evs2 & Htr2 & Hq2)].
  pose proof (save_records_spec obj field_label_map records w2 Hne) as Hs.
  cbv zeta in Hs. unfold csv_path_of, sheet_name_of in Hs.
  fold df path sheet big in Hs. fold write in Hs.
  set (opening := map EvPrint [MsgProcessing obj; MsgStartTime (started obj w).1]).
  assert (Hwrite : filter (fun e => is_write e = true) [write] = [write]).
  { subst write. destruct big; reflexivity. }
  assert (Hcount : forall tail,
             filter (fun e => is_write e = true)
               (opening ++ evs1 ++ evs2 ++ [write] ++ map EvPrint tail) = [write]).
  { intros tail. rewrite !filter_app, Hwrite, (filter_quiet evs1 Hq1),
      (filter_quiet evs2 Hq2), !filter_prints. reflexivity. }
  assert (Hone : forall w' tail,
             trace w' = trace w ++ opening ++ evs1 ++ evs2 ++ [write] ++ map EvPrint tail ->
             count_events is_write (trace w')
             = (count_events is_write (trace w) + 1)%nat).
  { intros w' tail ->. rewrite count_events_app. unfold count_events at 2.
    rewrite Hcount. reflexivity. }
  destruct (if big then env_to_csv path df (env w2)
            else env_to_excel sheet df (env w2)) as [[[]|e] r'] eqn:Hreply;
    cbn [fst].
  - set (w3 := mkWorld r' (sf w2) (statistics w2)
                 (trace w2 ++ [write; EvPrint (MsgSaved obj)])) in *.
    destruct (completed_spec obj (started obj w).1 w3)
      as (t1 & today & Hst & _ & Htr).
    assert (Hall : trace (completed obj (started obj w).1 w3)
                   = trace w ++ opening ++ evs1 ++ evs2 ++ [write]
                     ++ map EvPrint [MsgSaved obj; MsgEndTime t1;
                                     MsgDuration (t1 - (started obj w).1)]).
    { rewrite Htr. subst w3. cbn [trace].
      rewrite Htr2, Htr1, Htr0, <- !app_assoc. reflexivity. }
    exists (completed obj (started obj w).1 w3). eexists.
    split; [|split; [exact Hall | split; [apply Hcount | split; [exact (Hone _ _ Hall)|]]]].
    + rewrite export_unfold. unfold try_except.
      rewrite (export_body_returns fuel obj _ _ field_label_map w1 records w2 w3 Hg Hf Hs).
      reflexivity.
    + split.
      * exists t1, today. rewrite Hst. subst w3. cbn [statistics]. congruence.
      * rewrite !in_app_iff. do 4 right. left. reflexivity.
  - set (w3 := mkWorld r' (sf w2) (statistics w2) (trace w2 ++ [write])) in *.
    assert (Hb : export_body fuel obj (started obj w).1 (started obj w).2 = Exn e w3).
    { unfold export_body, bind. rewrite Hg, Hf, Hs. reflexivity. }
    assert (Hall : trace (reported obj e w3)
                   = trace w ++ opening ++ evs1 ++ evs2 ++ [write]
                     ++ map EvPrint [MsgError obj (exc_msg e)]).
    { unfold reported. subst w3. cbn [trace set_trace].
      rewrite Htr2, Htr1, Htr0, <- !app_assoc. reflexivity. }
    exists (reported obj e w3). eexists.
    split; [|split; [exact Hall | split; [apply Hcount | split; [exact (Hone _ _ Hall)|]]]].
    + rewrite export_unfold. unfold try_except. rewrite Hb. reflexivity.
    + split; [subst w3; cbn; congruence|].
      rewrite !app_assoc. apply last_snoc.
Qed.

End ExportContract.

(** C10 on an object whose query returns an empty page. *)
Lemma zero_records_export_witness :
  exists w',
    export_salesforce_object 0 "Account" (Mock.connected Scenario.empty_object)
    = Ret tt w'
    /\ filter (fun e => is_write e = true) (trace w') = []
    /\ count_events is_write (trace w') = 0%nat
    /\ map object_name (statistics w') = ["Account"].
Proof.
  edestruct (zero_records_export (R:=Mock.Remote) 0 "Account"
               (Mock.connected Scenario.empty_object))
    as ((w' & t1 & today & He & (evs & Htr & Hq) & Hc & Hst) & _).
  - script.
  - script.
  - exists w'. split; [exact He|].
    split; [rewrite Htr; apply (filter_quiet evs Hq)|].
    split; [exact Hc|].
    rewrite Hst. script.
Defined.

(** C8 on an object with two records, whose frame goes to the sheet
    ["Work Order"]; on one with a million records, whose frame goes to the
    file ["files/Big__c.csv"]; and on an object whose sheet the writer
    refuses: one write call, the error line and no Statistics record. *)
Lemma export_materializes_once_witness :
  (exists w',
     export_salesforce_object 0 "Work_Order__c" (Mock.connected Scenario.small_object)
     = Ret tt w'
     /\ count_events is_write (trace w') = 1%nat
     /\ filter (fun e => is_write e = true) (trace w')
        = [ EvToExcel "Work Order"
              [ [("Record ID", VStr "001"); ("Full Name", VStr "Ada")];
                [("Record ID", VStr "002"); ("Full Name", VStr "Bob")] ] ]
     /\ map object_name (statistics w') = ["Work_Order__c"])
  /\ (exists w' df,
        export_salesforce_object 0 "Big__c" (Mock.connected Scenario.large_object)
        = Ret tt w'
        /\ count_events is_write (trace w') = 1%nat
        /\ filter (fun e => is_write e = true) (trace w')
           = [EvToCsv "files/Big__c.csv" df]
        /\ Z.of_nat (length df) = 1000000
        /\ map object_name (statistics w') = ["Big__c"])
  /\ (exists w',
        export_salesforce_object 0 "Work_Order__c" (Mock.connected Scenario.sheet_refused)
        = Ret tt w'
        /\ count_events is_write (trace w') = 1%nat
        /\ statistics w' = []
        /\ last (trace w')
           = Some (EvPrint (MsgError "Work_Order__c" "cannot be used in worksheets"))).
Proof.
  split; [|split].
  - epose proof (export_materializes_once (R:=Mock.Remote) 0 "Work_Order__c"
                   (Mock.connected Scenario.small_object)
                   [("Id", "Record ID"); ("Name", "Full Name")] _
                   [Scenario.r1; Scenario.r2] _) as Hthm.
    edestruct Hthm as (w' & evs & He & Htr & Hw & Hc & Hout).
    + script.
    + script.
    + discriminate.
    + cbn [fst env_to_excel Mock.mock_env] in Hout.
      change (1000000 <=? Z.of_nat (length [Scenario.r1; Scenario.r2]))
        with false in Hout, Hw.
      destruct Hout as ((t1 & today & Hst) & _).
      exists w'. split; [exact He | split; [exact Hc|]].
      split; [rewrite Htr; cbn [trace Mock.connected app]; rewrite Hw;
              vm_compute; reflexivity|].
      rewrite Hst. reflexivity.
  - edestruct (export_materializes_once (R:=Mock.Remote) 0 "Big__c"
                 (Mock.connected Scenario.large_object)
                 [("Id", "Record ID")] Scenario.large_resolved
                 (repeat Scenario.r1 (Z.to_nat 1000000)) Scenario.large_fetched)
      as (w' & evs & He & Htr & Hw & Hc & Hout).
    + reflexivity.
    + reflexivity.
    + intros Hnil. apply (f_equal length) in Hnil.
      rewrite repeat_length in Hnil. simpl in Hnil. lia.
    + assert ((1000000 <=? Z.of_nat (length (repeat Scenario.r1 (Z.to_nat 1000000))))
              = true) as Hlen.
      { rewrite repeat_length, Z2Nat.id by lia. reflexivity. }
      rewrite Hlen in Hout, Hw. cbn [fst env_to_csv Mock.mock_env Mock.store] in Hout.
      destruct Hout as ((t1 & today & Hst) & _).
      exists w'. eexists. split; [exact He | split; [exact Hc|]].
      split; [rewrite Htr; cbn [trace Mock.connected app]; exact Hw|].
      split; [rewrite length_map, repeat_length, Z2Nat.id by lia; reflexivity|].
      rewrite Hst. reflexivity.
  - epose proof (export_materializes_once (R:=Mock.Remote) 0 "Work_Order__c"
                   (Mock.connected Scenario.sheet_refused)
                   [("Id", "Record ID"); ("Name", "Full Name")] _
                   [Scenario.r1; Scenario.r2] _) as Hthm.
    edestruct Hthm as (w' & evs & He & Htr & Hw & Hc & Hout).
    + script.
    + script.
    + discriminate.
    + change (1000000 <=? Z.of_nat (length [Scenario.r1; Scenario.r2]))
        with false in Hout.
      cbn [fst env_to_excel Mock.mock_env] in Hout.
      destruct Hout as (Hst & Hlast).
      exists w'. split; [exact He | split; [exact Hc | split; [exact Hst|]]].
      rewrite Htr. cbn [trace Mock.connected app]. exact Hlast.
Defined.

(** C8 as stated fails.  A completed export without records (it has its
    Statistics record) is materialized not once but never: no sheet and no
    file is written.  And the sheet name is not the object name with its
    suffix stripped when ["__c"] also occurs inside the name. *)
Lemma empty_export_is_not_materialized :
  (exists w',
     export_salesforce_object 0 "Account" (Mock.connected Scenario.empty_object)
     = Ret tt w'
     /\ map object_name (statistics w') = ["Account"]
     /\ count_events is_write (trace w') <> 1%nat
     /\ filter (fun e => is_write e = true) (trace w') = [])
  /\ sheet_name_of "ns__claims__c" = "nslaims"
  /\ spec_sheet_name "ns__claims__c" = "ns  claims".
Proof.
  split; [|split; reflexivity].
  eexists. split; [vm_compute; reflexivity|].
  split; [reflexivity|]. split; [vm_compute; discriminate|].
  reflexivity.
Qed.

(** *** The sheet name *)

Lemma prefix_refl (s : string) : String.prefix s s = true.
Proof.
  induction s as [|c s IH]; [reflexivity|]. simpl.
  destruct (Ascii.ascii_dec c c); [exact IH | congruence].
Qed.

Lemma str_in_cons (sub : string) c s :
  str_in sub (String c s) = String.prefix sub (String c s) || str_in sub s.
Proof. reflexivity. Qed.

(** Where [old] does not occur, nothing is replaced. *)
Lemma str_replace_absent (old new s : string) :
  str_in old s = false -> str_replace old new s = s.
Proof.
  unfold str_replace. induction s as [|c s IH]; intros Hin; [reflexivity|].
  rewrite str_in_cons in Hin. apply orb_false_iff in Hin as [Hp Hs].
  cbn [str_replace_from]. rewrite Hp, IH by exact Hs. reflexivity.
Qed.

Lemma strip_suffix_absent (suffix s : string) :
  str_in suffix s = false -> strip_suffix suffix s = s.
Proof.
  induction s as [|c s IH]; intros Hin.
  - destruct suffix; [discriminate Hin | reflexivity].
  - rewrite str_in_cons in Hin. apply orb_false_iff in Hin as [Hp Hs].
    cbn [strip_suffix]. destruct (String.eqb_spec (String c s) suffix) as [<-|_].
    + rewrite prefix_refl in Hp. discriminate Hp.
    + rewrite IH by exact Hs. reflexivity.
Qed.

Lemma length_append (s t : string) :
  String.length (s +:+ t) = (String.length s + String.length t)%nat.
Proof.
  induction s as [|c s IH]; [reflexivity|].
  rewrite app_String. simpl. rewrite IH. reflexivity.
Qed.

Lemma strip_suffix_app (suffix base : string) :
  suffix <> "" -> strip_suffix suffix (base +:+ suffix) = base.
Proof.
  intros Hne. induction base as [|c base IH].
  - change ("" +:+ suffix) with suffix. destruct suffix as [|d suffix]; [congruence|].
    cbn [strip_suffix]. rewrite String.eqb_refl. reflexivity.
  - rewrite app_String. cbn [strip_suffix].
    destruct (String.eqb_spec (String c (base +:+ suffix)) suffix) as [Heq|_].
    + apply (f_equal String.length) in Heq. simpl in Heq.
      rewrite length_append in Heq. lia.
    + rewrite IH. reflexivity.
Qed.

Lemma prefix_cons a (s1 : string) b (s2 : string) :
  String.prefix (String a s1) (String b s2)
  = if Ascii.ascii_dec a b then String.prefix s1 s2 else false.
Proof. reflexivity. Qed.

Lemma prefix_nil (s : string) : String.prefix "" s = true.
Proof. destruct s; reflexivity. Qed.

(** An occurrence of ["__c"] at the start of [base ++ "__c"] lies in [base],
    unless [base] is empty. *)
Lemma marker_prefix_in_base c (base : string) :
  String.prefix "__c" (String c (base +:+ "__c")) = true ->
  String.prefix "__c" (String c base) = true.
Proof.
  destruct base as [|d [|d' base]]; rewrite ?app_String;
    change ("" +:+ "__c") with "__c"; rewrite ?prefix_cons, ?prefix_nil;
    repeat match goal with
           | |- context [Ascii.ascii_dec ?a ?b] =>
               destruct (Ascii.ascii_dec a b)
           end;
    congruence.
Qed.

Lemma str_replace_marker_suffix (base : string) :
  str_in "__c" base = false ->
  str_replace "__c" "" (base +:+ "__c") = base.
Proof.
  unfold str_replace. induction base as [|c base IH]; intros Hin; [reflexivity|].
  rewrite str_in_cons in Hin. apply orb_false_iff in Hin as [Hp Hs].
  rewrite app_String. cbn [str_replace_from].
  destruct (String.prefix "__c" (String c (base +:+ "__c"))) eqn:Hp'.
  - apply marker_prefix_in_base in Hp'. congruence.
  - rewrite IH by exact Hs. reflexivity.
Qed.

(** The sheet name is the one of the specification whenever ["__c"] occurs
    in the object name only as its suffix, or not at all. *)
Lemma sheet_name_refines (object_name : string) :
  str_in "__c" object_name = false
  \/ (exists base, object_name = base +:+ "__c" /\ str_in "__c" base = false) ->
  sheet_name_of object_name = spec_sheet_name object_name.
Proof.
  unfold sheet_name_of, spec_sheet_name. intros [Hn | (base & -> & Hb)].
  - rewrite (str_replace_absent "__c" "" object_name Hn).
    rewrite (strip_suffix_absent "__c" object_name Hn). reflexivity.
  - rewrite (str_replace_marker_suffix base Hb).
    rewrite strip_suffix_app by discriminate. reflexivity.
Qed.

(** For the configured objects, removing every ["__c"] and stripping the
    suffix give the same sheet name. *)
Lemma sheet_names_of_configured_objects :
  Forall (fun obj => sheet_name_of obj = spec_sheet_name obj) Config.OBJECT_NAMES.
Proof.
  unfold Config.OBJECT_NAMES.
  repeat (apply Forall_cons; split; [vm_compute; reflexivity|]).
  apply Forall_nil_2.
Qed.

(** ** The event loop *)

Section EventLoop.

Context {R : Type} `{Env R}.
Implicit Types (w : World R).

(** Tasks of one segment each: one turn of the queue runs them all, in
    order, and leaves them finished. *)
Lemma run_round_single (ms : list (M R unit)) w :
  run_round (map (fun m => [m]) ms) w
  = match in_sequence ms w with
    | Ret _ w' => Ret (map (fun _ => []) ms) w'
    | Exn e w' => Exn e w'
    | Diverge => Diverge
    end.
Proof.
  revert w. induction ms as [|m ms IH]; intros w; [reflexivity|].
  simpl. unfold bind at 1 3. destruct (m w) as [[] w1|e w1|]; try reflexivity.
  unfold bind. rewrite IH.
  destruct (in_sequence ms w1) as [[] w2|e w2|]; reflexivity.
Qed.

Lemma rounds_single (ms : list (M R unit)) :
  foldr Nat.max O (map length (map (fun m => [m]) ms))
  = match ms with [] => O | _ => 1%nat end.
Proof.
  induction ms as [|m ms IH]; [reflexivity|].
  simpl in *. rewrite IH. destruct ms; reflexivity.
Qed.

Lemma gather_single (ms : list (M R unit)) w :
  gather (map (fun m => [m]) ms) w = in_sequence ms w.
Proof.
  unfold gather. rewrite rounds_single.
  destruct ms as [|m ms]; [reflexivity|].
  unfold event_loop, bind. rewrite run_round_single.
  destruct (in_sequence (m :: ms) w) as [[] w'|e w'|]; reflexivity.
Qed.

Lemma gather_exports fuel objs w :
  gather (map (export_task fuel) objs) w
  = in_sequence (map (export_salesforce_object fuel) objs) w.
Proof.
  rewrite <- gather_single, map_map. reflexivity.
Qed.

Lemma in_sequence_exports fuel objs : forall w,
  (forall w', in_sequence (map (export_salesforce_object fuel) objs) w = Ret tt w'
              <-> serial_run fuel objs w w')
  /\ (forall e w', in_sequence (map (export_salesforce_object fuel) objs) w
                   <> Exn e w').
Proof.
  induction objs as [|obj objs IH]; intros w.
  - split.
    + intros w'. split.
      * intros [= <-]. constructor.
      * inversion 1. reflexivity.
    + discriminate.
  - simpl. unfold bind.
    destruct (export_never_raises fuel obj w) as [(w1 & He)|He]; rewrite He.
    + destruct (IH w1) as [IH1 IH2]. split; [|exact IH2].
      intros w'. rewrite IH1. split.
      * intros Hs. econstructor; eauto.
      * inversion 1 as [|? ? ? w1' ? He' Hs']; subst.
        rewrite He in He'. injection He' as <-. exact Hs'.
    + split; [|discriminate].
      intros w'. split; [discriminate|].
      inversion 1 as [|? ? ? w1' ? He' Hs']; subst. congruence.
Qed.


(** C4 (amended).  The export tasks have no suspension point, so the event
    loop behind [asyncio.gather] runs them one at a time, each to
    completion before the next one starts, in the configured order: the
    task set returns exactly when this serial run does, with the same
    final state, and it never raises.  The sheet writes are serialized by
    this alone: no run of the task set takes or releases a lock. *)
Theorem exports_run_one_at_a_time fuel objs w :
  (forall w', gather (map (export_task fuel) objs) w = Ret tt w'
              <-> serial_run fuel objs w w')
  /\ (forall e w', gather (map (export_task fuel) objs) w <> Exn e w')
  /\ (forall w', gather (map (export_task fuel) objs) w = Ret tt w' ->
         exists evs, trace w' = trace w ++ evs /\ Forall unlocked evs).
Proof.
  rewrite gather_exports.
  destruct (in_sequence_exports fuel objs w) as [Hs Hn].
  split; [exact Hs | split; [exact Hn|]].
  intros w' Hg.
  assert (traces unlocked (in_sequence (map (export_salesforce_object fuel) objs)))
    as Htr.
  { apply traces_in_sequence. apply Forall_forall. intros m Hm.
    apply list_elem_of_In, in_map_iff in Hm as (obj & <- & _).
    apply traces_export. }
  specialize (Htr w). rewrite Hg in Htr. exact Htr.
Qed.

End EventLoop.

(** C4 on two objects: the task set ends where the serial run ends. *)
Lemma exports_run_one_at_a_time_witness :
  exists w1 w2,
    export_salesforce_object 0 "Account" (Mock.connected Scenario.two_objects)
    = Ret tt w1
    /\ export_salesforce_object 0 "Contact" w1 = Ret tt w2
    /\ gather (map (export_task 0) ["Account"; "Contact"])
         (Mock.connected Scenario.two_objects) = Ret tt w2.
Proof.
  eexists _, _. split; [script|]. split; [script|].
  destruct (exports_run_one_at_a_time (R:=Mock.Remote) 0 ["Account"; "Contact"]
              (Mock.connected Scenario.two_objects)) as (Hserial & _ & _).
  apply Hserial.
  eapply serial_cons; [script|].
  eapply serial_cons; [script|]. apply serial_nil.
Defined.

(** C4 as stated fails: the two sheet writes of this run happen with no
    lock held; the trace has no acquisition at all. *)
Lemma sheet_writes_take_no_lock :
  exists w',
    gather (map (export_task 0) ["Account"; "Contact"])
      (Mock.connected Scenario.two_objects) = Ret tt w'
    /\ filter (fun e => is_write e = true) (trace w')
       = [ EvToExcel "Account" [[("Record ID", VStr "001")]];
           EvToExcel "Contact" [[("Record ID", VStr "002")]] ]
    /\ ~ In EvAcquire (trace w')
    /\ writes_locked 0 (trace w') = false.
Proof.
  eexists. split; [script|].
  split; [vm_compute; reflexivity|]. split; [|reflexivity].
  simpl. intros Hin.
  repeat (destruct Hin as [Hin|Hin]; [discriminate Hin|]). exact Hin.
Qed.

(** ** Failures among the gathered exports *)

Section Run.

Context {R : Type} `{Env R}.
Implicit Types (w : World R).




End Run.


(** * Further properties of the code *)

(** ** The retry loops: schedule and outcomes *)

Section RetrySchedule.

Context {R : Type} `{Env R}.
Implicit Types (w : World R).

Lemma sleeps_app (tr1 tr2 : list event) :
  sleeps (tr1 ++ tr2) = sleeps tr1 ++ sleeps tr2.
Proof. apply omap_app. Qed.

Lemma sleeps_cons (e : event) (evs : list event) :
  sleeps (e :: evs)
  = match e with EvSleep base => base :: sleeps evs | _ => sleeps evs end.
Proof. destruct e; reflexivity. Qed.

Lemma sleeps_none (P : event -> Prop) (evs : list event) :
  (forall e, P e -> forall b, e <> EvSleep b) ->
  Forall P evs -> sleeps evs = [].
Proof.
  intros HP. induction 1 as [|e evs He _ IH]; [reflexivity|].
  rewrite sleeps_cons, IH. destruct e; try reflexivity.
  exfalso. eapply HP; eauto.
Qed.

(** The shape of both loops: the body adds no wait, the handler of attempt
    [i] adds the wait [2 ** i]. *)
Lemma retry_schedule {A} (body : M R A) handler (E : exc) :
  (forall w, match body w with
             | Ret _ w' | Exn _ w' => sleeps (trace w') = sleeps (trace w)
             | Diverge => True
             end) ->
  (forall i e w, exists w',
      handler i e w = Ret tt w'
      /\ sleeps (trace w') = sleeps (trace w) ++ [2 ^ Z.of_nat i]) ->
  forall n i w,
    match for_try (seq i n) body handler (raise E) w with
    | Ret _ w' =>
        exists k, (k < n)%nat
          /\ sleeps (trace w') = sleeps (trace w) ++ backoff (seq i k)
    | Exn e w' =>
        e = E /\ sleeps (trace w') = sleeps (trace w) ++ backoff (seq i n)
    | Diverge => exists w1, body w1 = Diverge
    end.
Proof.
  intros Hbody Hhandler. induction n as [|n IH]; intros i w.
  - simpl. rewrite app_nil_r. auto.
  - simpl. unfold try_except. specialize (Hbody w).
    destruct (body w) as [a w1|e w1|] eqn:Hb.
    + exists O. split; [lia|]. simpl. rewrite app_nil_r. exact Hbody.
    + unfold bind. destruct (Hhandler i e w1) as (w2 & -> & Hs2).
      specialize (IH (S i) w2).
      destruct (for_try (seq (S i) n) body handler (raise E) w2)
        as [a w3|e3 w3|].
      * destruct IH as (k & Hk & Hs3). exists (S k). split; [lia|].
        rewrite Hs3, Hs2, Hbody, <- app_assoc. reflexivity.
      * destruct IH as (-> & Hs3). split; [reflexivity|].
        rewrite Hs3, Hs2, Hbody, <- app_assoc. reflexivity.
      * exact IH.
    + exists w. exact Hb.
Qed.

Lemma backoff_handler (msg : nat -> exc -> message) i e w :
  exists w',
    bind (print (msg i e)) (fun _ => sleep_backoff i) w = Ret tt w'
    /\ sleeps (trace w') = sleeps (trace w) ++ [2 ^ Z.of_nat i].
Proof.
  eexists. split; [reflexivity|]. simpl. rewrite !sleeps_app. simpl.
  rewrite app_nil_r. reflexivity.
Qed.

Lemma login_attempt_sleeps w :
  match login_attempt w with
  | Ret _ w' | Exn _ w' => sleeps (trace w') = sleeps (trace w)
  | Diverge => False
  end.
Proof.
  unfold login_attempt, bind, call.
  destruct (env_SalesforceLogin (env w)) as [[[sid inst]|e] r']; simpl;
    rewrite !sleeps_app; simpl; rewrite ?app_nil_r; reflexivity.
Qed.

(** X1.  [login] always ends: it returns within five attempts, or raises the
    fixed "Max retries" exception and nothing else.  The waits are
    [2 ** i] after the failure of attempt [i]: 1, 2, 4, ... seconds (plus
    jitter), and the loop also waits, 16 seconds, after the fifth failure,
    before it raises. *)
Theorem login_outcomes w :
  match login w with
  | Ret _ w' =>
      exists k, (k < 5)%nat
        /\ sleeps (trace w') = sleeps (trace w) ++ backoff (seq 0 k)
  | Exn e w' =>
      e = Exception "Max retries reached, Salesforce login failed."
      /\ sleeps (trace w') = sleeps (trace w) ++ [1; 2; 4; 8; 16]
  | Diverge => False
  end.
Proof.
  pose proof (retry_schedule login_attempt (login_except 5)
                (Exception "Max retries reached, Salesforce login failed.")) as Hs.
  unfold login.
  lapply Hs.
  - clear Hs. intros Hs. specialize (Hs (backoff_handler (fun i => MsgLoginRetry (i + 1) 5)) 5%nat 0%nat w).
    destruct (for_try (seq 0 5) login_attempt (login_except 5)
                (raise (Exception "Max retries reached, Salesforce login failed.")) w)
      as [a w'|e w'|]; [exact Hs | exact Hs |].
    destruct Hs as (w1 & Hd). pose proof (login_attempt_sleeps w1) as Hl.
    rewrite Hd in Hl. exact Hl.
  - intros w1. pose proof (login_attempt_sleeps w1) as Hl.
    destruct (login_attempt w1); auto.
Qed.

Lemma fetch_attempt_sleeps fuel soql w :
  match fetch_attempt fuel soql w with
  | Ret _ w' | Exn _ w' => sleeps (trace w') = sleeps (trace w)
  | Diverge => True
  end.
Proof.
  assert (emits (fun e => is_query e = true \/ is_query_more e = true)
            (fetch_attempt fuel soql)) as He.
  { unfold fetch_attempt. apply emits_bind.
    - apply emits_on_sf. intros s. apply emits_call. left. reflexivity.
    - intros resp. eapply emits_weaken; [|apply query_more_loop_emits].
      intros e He. right. exact He. }
  specialize (He w).
  destruct (fetch_attempt fuel soql w) as [a w'|e w'|]; [| |exact I];
    destruct He as [_ (evs & -> & Hevs)]; rewrite sleeps_app;
    erewrite (sleeps_none _ evs); try exact Hevs; try apply app_nil_r;
    intros e0 [He0|He0] b ->; discriminate He0.
Qed.

(** X2.  [fetch_data] lets no underlying exception out: whatever fails in an
    attempt, the caller sees only the fixed "Max retries" exception, after
    five attempts and waits of 1, 2, 4, 8 and 16 seconds (plus jitter);
    when it returns, it has waited [2 ** i] after each failed attempt. *)
Theorem fetch_data_outcomes fuel obj fields w :
  match fetch_data fuel obj fields w with
  | Ret _ w' =>
      exists k, (k < 5)%nat
        /\ sleeps (trace w') = sleeps (trace w) ++ backoff (seq 0 k)
  | Exn e w' =>
      e = Exception ("Max retries reached, query failed for " +:+ obj)
      /\ sleeps (trace w') = sleeps (trace w) ++ [1; 2; 4; 8; 16]
  | Diverge => True
  end.
Proof.
  rewrite fetch_data_unfold.
  pose proof (retry_schedule (fetch_attempt fuel (select_soql obj fields))
                (fetch_except 5)
                (Exception ("Max retries reached, query failed for " +:+ obj))
                (fetch_attempt_sleeps fuel (select_soql obj fields))
                (backoff_handler (fun i => MsgQueryRetry (i + 1) 5))
                5%nat 0%nat (announced obj fields w)) as Hs.
  assert (sleeps (trace (announced obj fields w)) = sleeps (trace w)) as Ha.
  { unfold announced. simpl. rewrite sleeps_app. apply app_nil_r. }
  rewrite Ha in Hs.
  destruct (for_try (seq 0 5) (fetch_attempt fuel (select_soql obj fields))
              (fetch_except 5) _ (announced obj fields w)) as [a w'|e w'|];
    [exact Hs | exact Hs | exact I].
Qed.

End RetrySchedule.

(** ** Field resolution and fetch: errors and edge cases *)

Section FetchEdges.

Context {R : Type} `{Env R}.
Implicit Types (w : World R).

Lemma remote_fetch_attempt fuel soql : emits remote_event (fetch_attempt fuel soql).
Proof.
  unfold fetch_attempt. apply emits_bind.
  - apply emits_on_sf. intros s. apply emits_call. exact I.
  - intros resp. eapply emits_weaken; [|apply query_more_loop_emits].
    intros [] He; simpl in He; try discriminate He; exact I.
Qed.

Lemma remote_fetch_except retries i e :
  emits (R:=R) remote_event (fetch_except retries i e).
Proof.
  unfold fetch_except, sleep_backoff.
  apply emits_bind; [|intros _]; apply emits_emit; exact I.
Qed.

Lemma fetch_attempt_not_connected fuel soql w :
  sf w = None ->
  fetch_attempt fuel soql w
  = Exn (Exception "'NoneType' object has no attribute 'query'") w.
Proof.
  intros Hsf. unfold fetch_attempt, bind, sf_query, on_sf. rewrite Hsf.
  reflexivity.
Qed.

(** X3.  Without a connection ([self.sf] is [None]) [fetch_data] still goes
    through its five attempts: each fails on the attribute access, no query
    is sent, the waits are made, and the "Max retries" exception is
    raised. *)
Theorem fetch_data_not_connected fuel obj fields w :
  sf w = None ->
  exists w',
    fetch_data fuel obj fields w
    = Exn (Exception ("Max retries reached, query failed for " +:+ obj)) w'
    /\ env w' = env w
    /\ count_events is_query (trace w') = count_events is_query (trace w)
    /\ sleeps (trace w') = sleeps (trace w) ++ [1; 2; 4; 8; 16].
Proof.
  intros Hsf.
  assert (forall n i w0, sf w0 = None ->
            exists w1,
              attempts_fail (fetch_attempt fuel (select_soql obj fields))
                (fetch_except 5) (seq i n) w0
                (replicate n (Exception "'NoneType' object has no attribute 'query'")) w1
              /\ env w1 = env w0
              /\ count_events is_query (trace w1) = count_events is_query (trace w0))
    as Hchain.
  { induction n as [|n IH]; intros i w0 Hsf0.
    - exists w0. repeat split. constructor.
    - set (e := Exception "'NoneType' object has no attribute 'query'").
      set (w2 := set_trace ((trace w0 ++ [EvPrint (MsgQueryRetry (i + 1) 5 e)])
                            ++ [EvSleep (2 ^ Z.of_nat i)]) w0).
      destruct (IH (S i) w2 Hsf0) as (w1 & Hat & He & Hc).
      exists w1. split; [|split; [exact He|]].
      + simpl. eapply attempts_fail_cons; [|reflexivity|exact Hat].
        apply fetch_attempt_not_connected. exact Hsf0.
      + rewrite Hc. unfold w2. simpl. rewrite !count_events_app.
        unfold count_events. simpl. lia. }
  destruct (Hchain 5%nat 0%nat (announced obj fields w) Hsf) as (w1 & Hat & He & Hc).
  exists w1. split; [|split; [exact He | split]].
  - rewrite fetch_data_unfold. rewrite (for_try_exhausted _ _ _ _ _ _ _ Hat).
    reflexivity.
  - rewrite Hc. unfold announced. simpl. rewrite count_events_app.
    unfold count_events. simpl. lia.
  - pose proof (fetch_data_outcomes fuel obj fields w) as Ho.
    rewrite fetch_data_unfold, (for_try_exhausted _ _ _ _ _ _ _ Hat) in Ho.
    apply Ho.
Qed.

Lemma get_field_labels_raises obj s w e r' :
  sf w = Some s ->
  env_query_all s (field_definition_soql obj) (env w) = (Raises e, r') ->
  get_field_labels obj w
  = Exn e (set_env r' (set_trace (trace w ++ [EvQueryAll (field_definition_soql obj)]) w)).
Proof.
  intros Hsf Hq. unfold get_field_labels, bind, sf_query_all, on_sf, call.
  rewrite Hsf, Hq. reflexivity.
Qed.

(** X4.  The field-metadata query is not retried: when it fails, the export of
    the object ends at once with the error line, after this single call,
    and no Statistics record is appended. *)
Theorem field_query_failure_is_final fuel obj s w e r' :
  sf w = Some s ->
  env_query_all s (field_definition_soql obj) (env (started obj w).2)
  = (Raises e, r') ->
  exists w',
    export_salesforce_object fuel obj w = Ret tt w'
    /\ trace w'
       = trace w ++ [ EvPrint (MsgProcessing obj);
                      EvPrint (MsgStartTime (started obj w).1);
                      EvQueryAll (field_definition_soql obj);
                      EvPrint (MsgError obj (exc_msg e)) ]
    /\ statistics w' = statistics w.
Proof.
  intros Hsf Hq. rewrite export_unfold.
  destruct (started_frame obj w) as [(Hsf0 & Hst0) Htr0].
  rewrite <- Hsf0 in Hsf.
  unfold try_except, export_body, bind.
  rewrite (get_field_labels_raises obj s _ e r' Hsf Hq).
  eexists. split; [reflexivity|]. simpl. rewrite Htr0, Hst0.
  rewrite <- !app_assoc. split; reflexivity.
Qed.

Lemma add_field_labels_distinct (fields : list FieldDefinition) : forall m,
  NoDup (dict_keys m ++ map QualifiedApiName fields) ->
  fold_left add_field_label fields m
  = m ++ map (fun f => (QualifiedApiName f, Label f))
           (List.filter (fun f => retained (QualifiedApiName f)) fields).
Proof.
  induction fields as [|f fields IH]; intros m Hnd; simpl.
  - rewrite app_nil_r. reflexivity.
  - simpl in Hnd. unfold add_field_label at 2.
    assert (~ In (QualifiedApiName f) (dict_keys m)) as Hfresh.
    { apply NoDup_app in Hnd as (_ & Hdisj & _). intros Hin.
      apply (Hdisj (QualifiedApiName f)); [apply list_elem_of_In; exact Hin | left]. }
    assert (NoDup (dict_keys m ++ map QualifiedApiName fields)) as Hnd'.
    { apply NoDup_app in Hnd as (Hm & Hdisj & Hf). apply NoDup_cons in Hf as [_ Hf].
      apply NoDup_app. split; [exact Hm | split; [|exact Hf]].
      intros x Hx Hx'. apply (Hdisj x Hx). right. exact Hx'. }
    destruct (retained (QualifiedApiName f)) eqn:Hr.
    + rewrite dict_set_fresh by exact Hfresh. rewrite IH.
      * simpl. rewrite <- app_assoc. reflexivity.
      * unfold dict_keys in *. rewrite map_app. simpl. rewrite <- app_assoc.
        exact Hnd.
    + apply IH. exact Hnd'.
Qed.

(** X5.  When the metadata names each field once, the field map lists the
    retained fields in the order of the metadata, each with its label;
    this is also the order of the fields in the query that follows. *)
Theorem field_labels_keep_order obj s w md r' :
  sf w = Some s ->
  env_query_all s (field_definition_soql obj) (env w) = (Returns md, r') ->
  NoDup (map QualifiedApiName (get_records md)) ->
  exists w',
    get_field_labels obj w
    = Ret (map (fun f => (QualifiedApiName f, Label f))
             (List.filter (fun f => retained (QualifiedApiName f)) (get_records md)))
          w'
    /\ env w' = r'
    /\ trace w' = trace w ++ [EvQueryAll (field_definition_soql obj)].
Proof.
  intros Hsf Hq Hnd. eexists. split.
  - unfold get_field_labels, bind, sf_query_all, on_sf, call. rewrite Hsf, Hq.
    unfold ret. rewrite add_field_labels_distinct by exact Hnd. reflexivity.
  - split; reflexivity.
Qed.

Lemma query_more_loop_never_done s fuel :
  (forall url r, exists resp r',
      env_query_more s url r = (Returns resp, r') /\ not_done resp = true) ->
  forall resp all_records url w,
    sf w = Some s -> not_done resp = true ->
    query_more_loop fuel resp all_records url w = Diverge.
Proof.
  intros Hmore. induction fuel as [|fuel IH];
    intros resp all_records url w Hsf Hd; simpl; rewrite Hd; [reflexivity|].
  unfold bind. destruct (Hmore url (env w)) as (resp' & r' & Hq & Hd').
  rewrite (sf_query_more_returns w s url resp' r' Hsf Hq).
  apply IH; [exact Hsf | exact Hd'].
Qed.

(** X6.  The pagination loop has no bound of its own: against a service that
    answers every call and never reports completion (a response without
    ['done'] counts as not done), [fetch_data] does not end, however many
    iterations it is given. *)
Theorem fetch_data_needs_done obj fields s w :
  sf w = Some s ->
  (forall soql r, exists resp r',
      env_query s soql r = (Returns resp, r') /\ not_done resp = true) ->
  (forall url r, exists resp r',
      env_query_more s url r = (Returns resp, r') /\ not_done resp = true) ->
  forall fuel, fetch_data fuel obj fields w = Diverge.
Proof.
  intros Hsf Hquery Hmore fuel. rewrite fetch_data_unfold. simpl.
  unfold try_except, fetch_attempt at 1, bind.
  destruct (Hquery (select_soql obj fields) (env w)) as (resp & r' & Hq & Hd).
  rewrite (sf_query_returns (announced obj fields w) s _ resp r' Hsf Hq).
  rewrite (query_more_loop_never_done s fuel Hmore); [reflexivity | exact Hsf | exact Hd].
Qed.

(** X7.  When no field of the object is retained, the field map is empty and
    the export still sends its query, with an empty field list:
    [SELECT  FROM <object>]. *)
Theorem no_field_still_queries fuel obj s w md r' :
  sf w = Some s ->
  env_query_all s (field_definition_soql obj) (env w) = (Returns md, r') ->
  Forall (fun f => retained (QualifiedApiName f) = false) (get_records md) ->
  exists w1,
    get_field_labels obj w = Ret [] w1
    /\ match fetch_data fuel obj (dict_keys (V:=string) []) w1 with
       | Ret _ w2 | Exn _ w2 =>
           exists evs,
             trace w2
             = trace w1 ++ EvPrint (MsgExecuting ("SELECT  FROM " +:+ obj))
                        :: EvQuery ("SELECT  FROM " +:+ obj) :: evs
       | Diverge => True
       end.
Proof.
  intros Hsf Hq Hnone. eexists. split.
  { unfold get_field_labels, bind, sf_query_all, on_sf, call. rewrite Hsf, Hq.
    unfold ret. f_equal. induction Hnone as [|f fields Hf _ IH]; [reflexivity|].
    simpl. unfold add_field_label at 2. rewrite Hf. exact IH. }
  set (w1 := set_env r' _).
  rewrite fetch_data_unfold.
  change (dict_keys (V:=string) []) with (@nil string).
  change (select_soql obj []) with ("SELECT  FROM " +:+ obj).
  set (soql := "SELECT  FROM " +:+ obj).
  assert (sf (announced obj [] w1) = Some s) as Hsf1 by exact Hsf.
  pose proof (fetch_attempt_trace fuel soql (announced obj [] w1) s Hsf1) as Ht.
  change (seq 0 5) with (0%nat :: seq 1 4). cbn [for_try]. unfold try_except.
  destruct (fetch_attempt fuel soql (announced obj [] w1)) as [a w2|e w2|];
    [| |exact I].
  - destruct Ht as [_ (evs & -> & _)]. exists evs.
    unfold announced. simpl. rewrite <- app_assoc. reflexivity.
  - destruct Ht as [_ (evs & Htr & _)].
    assert (emits remote_event
              (bind (fetch_except 5 0 e)
                 (fun _ => for_try (seq 1 4) (fetch_attempt fuel soql) (fetch_except 5)
                    (raise (Exception ("Max retries reached, query failed for " +:+ obj))))))
      as Hrest.
    { apply emits_bind; [apply remote_fetch_except|].
      intros _. apply emits_for_try;
        [apply remote_fetch_attempt | intros; apply remote_fetch_except | apply emits_raise]. }
    specialize (Hrest w2).
    match goal with |- match ?c with _ => _ end => destruct c as [a w3|e3 w3|] end;
      [| |exact I]; destruct Hrest as [_ (evs' & -> & _)];
      exists (evs ++ evs'); rewrite Htr; unfold announced; simpl;
      rewrite <- !app_assoc; reflexivity.
Qed.

End FetchEdges.

(** ** The export of one object: outcome, columns, sheet names *)

Section ExportOutcome.

Context {R : Type} `{Env R}.
Implicit Types (w : World R).

Lemma last_event_snoc (tr : list event) (e : event) :
  last_event (tr ++ [e]) = Some e.
Proof. apply last_snoc. Qed.

Lemma export_body_completed fuel obj t0 w w' :
  export_body fuel obj t0 w = Ret tt w' ->
  exists w3, w' = completed obj t0 w3 /\ statistics w3 = statistics w.
Proof.
  intros Hb. unfold export_body, bind in Hb.
  pose proof (remote_get_field_labels obj w) as Hg.
  destruct (get_field_labels obj w) as [m w1|e1 w1|]; try discriminate Hb.
  pose proof (remote_fetch_data fuel obj (dict_keys m) w1) as Hf.
  destruct (fetch_data fuel obj (dict_keys m) w1) as [recs w2|e2 w2|];
    try discriminate Hb.
  destruct (save_records obj m recs w2) as [[] w3|e3 w3|] eqn:Hs;
    try discriminate Hb.
  apply save_records_returned in Hs as [(_ & Hs) _].
  exists w3. split.
  - unfold read in Hb. unfold completed.
    destruct (env_now (env w3)) as [t1 r1]. simpl in Hb.
    destruct (env_today r1) as [today r2]. injection Hb as <-. reflexivity.
  - destruct Hg as [(_ & Hst1) _]. destruct Hf as [(_ & Hst2) _].
    congruence.
Qed.

(** X8.  An export ends in one of two ways: it appends exactly one Statistics
    record, named after the object, timed from the start of the export,
    and its last line is the duration; or it appends no record and its
    last line is the error. *)
Theorem export_ends_with_record_or_error fuel obj w w' :
  export_salesforce_object fuel obj w = Ret tt w' ->
  (exists t1 today,
     statistics w'
     = statistics w
       ++ [mkStatistics obj (started obj w).1 t1 (t1 - (started obj w).1) today]
     /\ last_event (trace w')
        = Some (EvPrint (MsgDuration (t1 - (started obj w).1))))
  \/ (exists e,
        statistics w' = statistics w
        /\ last_event (trace w') = Some (EvPrint (MsgError obj (exc_msg e)))).
Proof.
  rewrite export_unfold. unfold try_except. intros He.
  destruct (started_frame obj w) as [(_ & Hst0) _].
  destruct (export_body fuel obj (started obj w).1 (started obj w).2)
    as [[] w1|e w1|] eqn:Hb; try discriminate He.
  - injection He as <-. left.
    destruct (export_body_completed _ _ _ _ _ Hb) as (w3 & -> & Hst3).
    destruct (completed_spec obj (started obj w).1 w3)
      as (t1 & today & Hst & _ & Htr).
    exists t1, today. split; [rewrite Hst, Hst3, Hst0; reflexivity|].
    rewrite Htr.
    change [EvPrint (MsgEndTime t1); EvPrint (MsgDuration (t1 - (started obj w).1))]
      with ([EvPrint (MsgEndTime t1)] ++ [EvPrint (MsgDuration (t1 - (started obj w).1))]).
    rewrite app_assoc. apply last_event_snoc.
  - injection He as <-. right. exists e.
    destruct (export_body_raises _ _ _ _ _ _ Hb) as [(_ & Hst) _].
    split; [change (statistics w1 = statistics w); congruence|].
    apply last_event_snoc.
Qed.

End ExportOutcome.

(** *** Fields that share a label *)

Section Comprehension.

Context {V : Type}.
Implicit Types (d : dict V) (kvs : list (string * V)).

Lemma fold_set_other kvs : forall d k,
  ~ In k (map fst kvs) ->
  dict_get (fold_left (fun d kv => dict_set d kv.1 kv.2) kvs d) k = dict_get d k.
Proof.
  induction kvs as [|[k0 v0] kvs IH]; intros d k Hk; simpl in *; [reflexivity|].
  rewrite IH by tauto. apply dict_get_set_ne. tauto.
Qed.

Lemma fold_set_keys_NoDup kvs : forall d,
  NoDup (dict_keys d) ->
  NoDup (dict_keys (fold_left (fun d kv => dict_set d kv.1 kv.2) kvs d)).
Proof.
  induction kvs as [|[k0 v0] kvs IH]; intros d Hd; simpl; [exact Hd|].
  apply IH, dict_keys_set_NoDup, Hd.
Qed.

Lemma fold_set_keys_In kvs : forall d k,
  In k (dict_keys (fold_left (fun d kv => dict_set d kv.1 kv.2) kvs d))
  <-> In k (dict_keys d) \/ In k (map fst kvs).
Proof.
  induction kvs as [|[k0 v0] kvs IH]; intros d k; simpl; [tauto|].
  rewrite IH, dict_keys_set_In. intuition congruence.
Qed.

(** In a comprehension, the last pair of a key gives its value. *)
Lemma dict_of_pairs_last pre k (v : V) post :
  ~ In k (map fst post) ->
  dict_get (dict_of_pairs (pre ++ (k, v) :: post)) k = Some v.
Proof.
  intros Hk. unfold dict_of_pairs. rewrite fold_left_app. simpl.
  rewrite fold_set_other by exact Hk. apply dict_get_set_eq.
Qed.

Lemma dict_of_pairs_keys_NoDup kvs : NoDup (dict_keys (dict_of_pairs kvs)).
Proof. apply fold_set_keys_NoDup, NoDup_nil_2. Qed.

Lemma dict_of_pairs_keys_In kvs k :
  In k (dict_keys (dict_of_pairs kvs)) <-> In k (map fst kvs).
Proof. unfold dict_of_pairs. rewrite fold_set_keys_In. simpl. tauto. Qed.

End Comprehension.

(** X9.  When several fields have the same label, the row has one column for
    that label, and it holds the value of the last of these fields in the
    field map; the values of the others are not exported.  The columns of
    a row are the distinct labels. *)
Theorem shared_label_keeps_last_field
    (pre post : dict string) api label (rec : record) :
  ~ In label (dict_values post) ->
  let row := make_row (invert_labels (pre ++ (api, label) :: post)) rec in
  dict_get row label = Some (default (VStr "") (rec !! api))
  /\ NoDup (dict_keys row)
  /\ forall l, In l (dict_keys row)
               <-> In l (dict_values (pre ++ (api, label) :: post)).
Proof.
  intros Hlast row.
  set (flm := pre ++ (api, label) :: post) in *.
  set (fm := invert_labels flm) in *.
  assert (NoDup (dict_keys fm)) as Hfm by apply dict_of_pairs_keys_NoDup.
  assert (row = map (fun kv => (kv.1, default (VStr "") (rec !! kv.2))) fm) as Hrow.
  { unfold row, make_row, dict_items. apply dict_of_pairs_NoDup.
    rewrite map_map. exact Hfm. }
  assert (dict_keys row = dict_keys fm) as Hkeys.
  { rewrite Hrow. unfold dict_keys. rewrite map_map. reflexivity. }
  assert (dict_get fm label = Some api) as Hget.
  { unfold fm, invert_labels, dict_items, flm. rewrite map_app. simpl.
    apply dict_of_pairs_last. rewrite map_map. exact Hlast. }
  split; [|split].
  - apply dict_In_get; [rewrite Hkeys; exact Hfm|].
    rewrite Hrow. apply dict_get_In in Hget.
    apply in_map_iff. exists (label, api). auto.
  - rewrite Hkeys. exact Hfm.
  - intros l. rewrite Hkeys. unfold fm, invert_labels, dict_items.
    rewrite dict_of_pairs_keys_In, map_map. reflexivity.
Qed.

(** *** Sheet names *)

Lemma str_replace_char_absent c d (s : string) :
  c <> d ->
  str_in (String c "") (str_replace (String c "") (String d "") s) = false.
Proof.
  intros Hcd. unfold str_replace. induction s as [|a s IH]; [reflexivity|].
  cbn [str_replace_from]. rewrite prefix_cons, prefix_nil.
  destruct (Ascii.ascii_dec c a) as [->|Hne].
  - cbn [String.length Nat.pred]. rewrite app_String.
    change ("" +:+ str_replace_from (String a "") (String d "") 0 s)
      with (str_replace_from (String a "") (String d "") 0 s).
    rewrite str_in_cons, prefix_cons, prefix_nil, IH.
    destruct (Ascii.ascii_dec a d); [congruence | reflexivity].
  - rewrite str_in_cons, prefix_cons, prefix_nil, IH.
    destruct (Ascii.ascii_dec c a); [congruence | reflexivity].
Qed.

(** X10.  A sheet name never contains an underscore. *)
Theorem sheet_name_has_no_underscore (object_name : string) :
  str_in "_" (sheet_name_of object_name) = false.
Proof. unfold sheet_name_of. apply str_replace_char_absent. discriminate. Qed.

(** X11.  Sheet names are not unique to an object: a custom object [X__c] and an
    object [X] get the same sheet name. *)
Theorem sheet_name_ignores_suffix (base : string) :
  str_in "__c" base = false ->
  sheet_name_of (base +:+ "__c") = sheet_name_of base.
Proof.
  intros Hb. unfold sheet_name_of.
  rewrite (str_replace_marker_suffix base Hb).
  rewrite (str_replace_absent "__c" "" base Hb). reflexivity.
Qed.

(** ** Statistics file and run: what a failure leaves behind *)

Section RunOutcomes.

Context {R : Type} `{Env R}.
Implicit Types (w : World R).

(** X12.  The records of the run stay in memory after a flush, so a second
    flush in the same process, which reads back what the first one wrote,
    hands the rows of these records to [to_csv] once more, after those it
    read. *)
Theorem second_flush_repeats_rows w w1 before r found r' found' :
  let rows (stats : list Statistics) : DataFrame :=
    map (fun stat =>
           [ ("Object Name", VStr (object_name stat));
             ("Start Time", VInt (start_time stat));
             ("End Time", VInt (end_time stat));
             ("Duration (Seconds)", VInt (duration stat));
             ("Last Refresh Date", VStr (last_refresh_date stat)) ]) stats in
  file_found w before r found ->
  save_statistics w = Ret tt w1 ->
  file_found w1 (before ++ rows (statistics w)) r' found' ->
  statistics w1 = statistics w
  /\ match save_statistics w1 with
     | Ret _ w2 | Exn _ w2 =>
         statistics w2 = statistics w
         /\ exists printed,
              trace w2
              = trace w1 ++ found'
                ++ EvToCsv log_file_path
                     (before ++ rows (statistics w) ++ rows (statistics w))
                   :: map EvPrint printed
     | Diverge => False
     end.
Proof.
  intros rows Hfound Hs1 Hfound'.
  assert (Hst1 : statistics w1 = statistics w).
  { pose proof (save_statistics_spec w before r found Hfound) as Hspec.
    cbv zeta in Hspec.
    destruct (env_to_csv log_file_path _ r) as [[[]|e] r1];
      rewrite Hspec in Hs1; [|discriminate Hs1].
    injection Hs1 as <-. reflexivity. }
  split; [exact Hst1|].
  pose proof (save_statistics_spec w1 _ r' found' Hfound') as Hspec.
  cbv zeta in Hspec. rewrite Hst1 in Hspec.
  change (map stat_row (statistics w)) with (rows (statistics w)) in Hspec.
  rewrite <- app_assoc in Hspec.
  destruct (env_to_csv log_file_path _ r') as [[[]|e] r2]; rewrite Hspec; cbn [statistics trace].
  - split; [reflexivity|]. exists [MsgStatisticsSaved log_file_path]. reflexivity.
  - split; [reflexivity|]. exists []. reflexivity.
Qed.

Lemma bind_last {A B} (m : M R A) (f : A -> M R B) (Q : World R -> Prop) w b w' :
  (forall a w1 w2, f a w1 = Ret b w2 -> Q w2) ->
  bind m f w = Ret b w' -> Q w'.
Proof.
  intros Hf. unfold bind. destruct (m w) as [a w1|e w1|]; try discriminate.
  apply Hf.
Qed.

(** X13.  [run] never raises: every exception of its phases ends in the
    "Pipeline failed" line.  The last line of a run is the success line or
    that failure line. *)
Theorem run_never_raises fuel objs w :
  match run_with fuel objs w with
  | Ret _ w' =>
      last_event (trace w') = Some (EvPrint MsgPipelineOk)
      \/ exists reason,
           last_event (trace w') = Some (EvPrint (MsgPipelineFailed reason))
  | Exn _ _ => False
  | Diverge => True
  end.
Proof.
  unfold run_with, try_except.
  match goal with |- match (match ?body w with _ => _ end) with _ => _ end =>
    destruct (body w) as [[] w1|e w1|] eqn:Hb end; [| |exact I].
  - left. revert Hb. generalize w1 at 1 2. generalize w.
    do 5 (intros wa wb;
          apply (bind_last _ _
                   (fun w' => last_event (trace w') = Some (EvPrint MsgPipelineOk)));
          clear wa wb; intros _; cbv beta).
    intros wa wb [= <-]. apply last_event_snoc.
  - right. exists (exc_msg e). apply last_event_snoc.
Qed.

Lemma login_loop_quiet range : forall w,
  match for_try range login_attempt (login_except 5)
          (raise (Exception "Max retries reached, Salesforce login failed.")) w with
  | Ret _ w' =>
      statistics w' = statistics w
      /\ exists evs, trace w' = trace w ++ evs
                     /\ Forall (fun e => after_setup e = false) evs
  | Exn _ w' =>
      frame w w'
      /\ exists evs, trace w' = trace w ++ evs
                     /\ Forall (fun e => after_setup e = false) evs
  | Diverge => False
  end.
Proof.
  induction range as [|i range IH]; intros w; simpl.
  - split; [apply frame_refl|]. exists []. rewrite app_nil_r. auto.
  - unfold try_except, login_attempt at 1, bind at 1, call.
    destruct (env_SalesforceLogin (env w)) as [[[sid inst]|e] r'].
    + simpl. split; [reflexivity|].
      eexists. split; [rewrite <- app_assoc; reflexivity|].
      repeat constructor.
    + unfold bind. simpl.
      match goal with |- match for_try _ _ _ _ ?w2 with _ => _ end =>
        specialize (IH w2); destruct (for_try range login_attempt (login_except 5)
          (raise (Exception "Max retries reached, Salesforce login failed.")) w2)
          as [a w3|e3 w3|] end; [| |exact IH].
      * destruct IH as (Hst3 & evs & -> & Hevs). split; [exact Hst3|].
        simpl. eexists.
        split; [rewrite <- !app_assoc; reflexivity|].
        repeat (apply Forall_cons; split; [reflexivity|]). exact Hevs.
      * destruct IH as [Hfr (evs & -> & Hevs)]. split.
        { eapply frame_trans; [|exact Hfr]. repeat split. }
        simpl. eexists. split; [rewrite <- !app_assoc; reflexivity|].
        repeat (apply Forall_cons; split; [reflexivity|]). exact Hevs.
Qed.

(** X14.  When the login fails for good, the run stops there: no object is
    queried, the workbook is not opened, no statistics are saved and
    nothing is uploaded; the run returns after the failure line. *)
Theorem login_failure_aborts_run fuel objs w r0 es r1 :
  env_ensure_folders (env w) = (Returns tt, r0) ->
  login_fails r0 es r1 ->
  length es = 5%nat ->
  exists w',
    run_with fuel objs w = Ret tt w'
    /\ last_event (trace w')
       = Some (EvPrint (MsgPipelineFailed "Max retries reached, Salesforce login failed."))
    /\ count_events after_setup (trace w') = count_events after_setup (trace w)
    /\ frame w w'.
Proof.
  intros Hens Hfails Hlen.
  set (wa := set_env r0 (set_trace (trace w ++ [EvEnsureFolders]) w)).
  destruct (login_exhausted wa es r1 Hfails Hlen) as (wb & Hlogin & _ & _).
  pose proof (login_loop_quiet (seq 0 5) wa) as Hq. unfold login in Hlogin.
  cbv zeta in Hlogin. rewrite Hlogin in Hq.
  destruct Hq as [Hfr (evs & Htr & Hevs)].
  eexists. split.
  { unfold run_with, try_except, bind, call. rewrite Hens. fold wa.
    unfold login. cbv zeta. rewrite Hlogin. reflexivity. }
  split; [apply last_event_snoc|]. split.
  - simpl. rewrite Htr. unfold wa. simpl. rewrite !count_events_app.
    rewrite (count_events_none after_setup evs Hevs).
    unfold count_events. simpl. lia.
  - eapply frame_trans; [|eapply frame_trans; [exact Hfr|]]; repeat split.
Qed.

(** X15.  [run] never gets to the exports.  The writer is constructed, and
    entering the [async with] block then raises, since the writer is no
    asynchronous context manager.  Whatever the environment does, the run
    returns after the failure line without a query, a write, a reading of
    the statistics file or an upload, and with the statistics as they
    were.  When the folders, the login and the construction of the writer
    succeed, the failure that is reported is the one of [async with]. *)
Theorem run_stops_at_the_writer fuel objs w :
  exists w' reason evs,
    run_with fuel objs w = Ret tt w'
    /\ statistics w' = statistics w
    /\ trace w' = trace w ++ evs ++ [EvPrint (MsgPipelineFailed reason)]
    /\ Forall (fun e => past_writer e = false) evs
    /\ (forall wp r,
          setup w = Ret tt wp ->
          env_ExcelWriter (os_path_join LOCAL_FOLDER "all_data.xlsx") (env wp)
          = (Returns tt, r) ->
          reason = ASYNC_WITH_ERROR
          /\ last evs = Some (EvWriterOpen (os_path_join LOCAL_FOLDER "all_data.xlsx"))).
Proof.
  assert (Hpast : forall evs : list event,
             Forall (fun e => after_setup e = false) evs ->
             Forall (fun e => past_writer e = false) evs).
  { intros evs Hevs. eapply Forall_impl; [exact Hevs|].
    intros []; simpl; congruence. }
  set (path := os_path_join LOCAL_FOLDER "all_data.xlsx").
  unfold run_with, try_except. fold path.
  destruct (env_ensure_folders (env w)) as [[[]|e0] r0] eqn:Hens.
  - set (wa := set_env r0 (set_trace (trace w ++ [EvEnsureFolders]) w)).
    assert (Hcall : call EvEnsureFolders env_ensure_folders w = Ret tt wa).
    { unfold call. rewrite Hens. reflexivity. }
    pose proof (login_loop_quiet (seq 0 5) wa) as Hq. fold login in Hq.
    destruct (login wa) as [[] wb|e wb|] eqn:Hlogin; [| |destruct Hq].
    + destruct Hq as (Hstb & evs & Htr & Hevs).
      assert (Hsetup : setup w = Ret tt wb).
      { unfold setup, bind. rewrite Hcall. exact Hlogin. }
      destruct (env_ExcelWriter path (env wb)) as [[[]|e] r1] eqn:Hopen.
      * exists (set_trace
                  ((trace wb ++ [EvWriterOpen path])
                   ++ [EvPrint (MsgPipelineFailed ASYNC_WITH_ERROR)])
                  (set_env r1 wb)),
          ASYNC_WITH_ERROR, ([EvEnsureFolders] ++ evs ++ [EvWriterOpen path]).
        split.
        { unfold bind. rewrite Hcall, Hlogin.
          unfold export_all, async_with_writer, bind, call, raise. fold path.
          rewrite Hopen. reflexivity. }
        split; [exact Hstb|]. split.
        { cbn. rewrite Htr. unfold wa. cbn. rewrite <- !app_assoc. reflexivity. }
        split.
        { apply Forall_app. split; [repeat constructor|].
          apply Forall_app. split; [apply Hpast, Hevs | repeat constructor]. }
        intros wp r _ _. split; [reflexivity|].
        rewrite !app_assoc. apply last_snoc.
      * exists (set_trace
                  ((trace wb ++ [EvWriterOpen path])
                   ++ [EvPrint (MsgPipelineFailed (exc_msg e))])
                  (set_env r1 wb)),
          (exc_msg e), ([EvEnsureFolders] ++ evs ++ [EvWriterOpen path]).
        split.
        { unfold bind. rewrite Hcall, Hlogin.
          unfold export_all, async_with_writer, bind, call, raise. fold path.
          rewrite Hopen. reflexivity. }
        split; [exact Hstb|]. split.
        { cbn. rewrite Htr. unfold wa. cbn. rewrite <- !app_assoc. reflexivity. }
        split.
        { apply Forall_app. split; [repeat constructor|].
          apply Forall_app. split; [apply Hpast, Hevs | repeat constructor]. }
        intros wp r Hsetup' Hopen'. rewrite Hsetup in Hsetup'.
        injection Hsetup' as <-. rewrite Hopen in Hopen'. discriminate Hopen'.
    + destruct Hq as [(_ & Hstb) (evs & Htr & Hevs)].
      exists (set_trace (trace wb ++ [EvPrint (MsgPipelineFailed (exc_msg e))]) wb),
        (exc_msg e), ([EvEnsureFolders] ++ evs).
      split; [unfold bind; rewrite Hcall, Hlogin; reflexivity|].
      split; [exact Hstb|]. split.
      { cbn. rewrite Htr. unfold wa. cbn. rewrite <- !app_assoc. reflexivity. }
      split; [apply Forall_app; split; [repeat constructor | apply Hpast, Hevs]|].
      intros wp r Hsetup. unfold setup, bind in Hsetup.
      rewrite Hcall, Hlogin in Hsetup. discriminate Hsetup.
  - eexists _, (exc_msg e0), [EvEnsureFolders].
    split; [unfold bind, call; rewrite Hens; reflexivity|].
    split; [reflexivity|].
    split; [cbn; rewrite <- app_assoc; reflexivity|].
    split; [repeat constructor|].
    intros wp r Hsetup. unfold setup, bind, call in Hsetup.
    rewrite Hens in Hsetup. discriminate Hsetup.
Qed.

End RunOutcomes.

(** ** The further properties on scripted environments *)

Ltac script_more :=
  lazy -[Scenario.r1 Scenario.r2 Scenario.r3 Scenario.r4 Scenario.r5
         More.named_record];
  reflexivity.

(** A fetch on a client that never logged in. *)
Lemma fetch_data_not_connected_witness :
  exists w',
    fetch_data 0 "Account" ["Id"] (new_process Scenario.no_replies)
    = Exn (Exception "Max retries reached, query failed for Account") w'
    /\ count_events is_query (trace w') = 0%nat
    /\ sleeps (trace w') = [1; 2; 4; 8; 16].
Proof.
  destruct (fetch_data_not_connected (R:=Mock.Remote) 0 "Account" ["Id"]
              (new_process Scenario.no_replies) eq_refl)
    as (w' & Hf & _ & Hc & Hs).
  exists w'. split; [exact Hf | split; [exact Hc | exact Hs]].
Defined.

(** An export whose metadata query fails. *)
Lemma field_query_failure_is_final_witness :
  exists w',
    export_salesforce_object 0 "Ghost__c" (Mock.connected More.metadata_fails)
    = Ret tt w'
    /\ count_events (fun e => match e with EvQueryAll _ => true | _ => false end)
         (trace w') = 1%nat
    /\ last_event (trace w') = Some (EvPrint (MsgError "Ghost__c" "INVALID_TYPE"))
    /\ statistics w' = [].
Proof.
  edestruct (field_query_failure_is_final (R:=Mock.Remote) 0 "Ghost__c"
               (mkSalesforce "instance" "session")
               (Mock.connected More.metadata_fails))
    as (w' & He & Htr & Hst).
  - reflexivity.
  - script_more.
  - exists w'. split; [exact He|]. rewrite Htr.
    split; [reflexivity | split; [reflexivity | exact Hst]].
Defined.

(** The three fields of the specification's example, in metadata order. *)
Lemma field_labels_keep_order_witness :
  exists w',
    get_field_labels "Account" (Mock.connected Scenario.three_fields)
    = Ret [("Id", "Record ID"); ("Foo__c", "Foo")] w'.
Proof.
  edestruct (field_labels_keep_order (R:=Mock.Remote) "Account"
               (mkSalesforce "instance" "session")
               (Mock.connected Scenario.three_fields))
    as (w' & Hg & _ & _).
  - reflexivity.
  - script_more.
  - repeat (apply NoDup_cons; split;
            [rewrite list_elem_of_In; simpl; intuition discriminate|]).
    apply NoDup_nil_2.
  - exists w'. exact Hg.
Defined.

(** A fetch against the service that never reports completion. *)
Lemma fetch_data_needs_done_witness :
  fetch_data 1000 "Account" ["Id"] Endless.connected = Diverge.
Proof.
  apply (fetch_data_needs_done (R:=unit) "Account" ["Id"]
           (mkSalesforce "instance" "session") Endless.connected eq_refl).
  - intros soql r. eexists _, _. split; reflexivity.
  - intros url r. eexists _, _. split; reflexivity.
Defined.

(** An object of which no field is retained. *)
Lemma no_field_still_queries_witness :
  exists w1,
    get_field_labels "Odd" (Mock.connected More.no_field_retained) = Ret [] w1
    /\ exists w2 evs,
         fetch_data 0 "Odd" [] w1
         = Exn (Exception "Max retries reached, query failed for Odd") w2
         /\ trace w2
            = trace w1 ++ EvPrint (MsgExecuting "SELECT  FROM Odd")
                       :: EvQuery "SELECT  FROM Odd" :: evs.
Proof.
  edestruct (no_field_still_queries (R:=Mock.Remote) 0 "Odd"
               (mkSalesforce "instance" "session")
               (Mock.connected More.no_field_retained))
    as (w1 & Hg & Hf).
  - reflexivity.
  - script_more.
  - repeat constructor.
  - exists w1. split; [exact Hg|].
    script_in Hg. injection Hg as <-.
    change (dict_keys (V:=string) []) with (@nil string) in Hf.
    destruct (fetch_data 0 "Odd" [] _) as [a w2|e w2|] eqn:Hfd in Hf.
    + script_in Hfd. discriminate Hfd.
    + destruct Hf as (evs & Htr). exists w2, evs. split; [|exact Htr].
      rewrite Hfd. script_in Hfd. injection Hfd as <- _. reflexivity.
    + script_in Hfd. discriminate Hfd.
Defined.

(** The two ways an export ends, on an object without records and on an
    object whose metadata query fails. *)
Lemma export_ends_with_record_or_error_witness :
  (exists w',
     export_salesforce_object 0 "Account" (Mock.connected Scenario.empty_object)
     = Ret tt w'
     /\ map object_name (statistics w') = ["Account"]
     /\ last_event (trace w') = Some (EvPrint (MsgDuration 1)))
  /\ (exists w',
        export_salesforce_object 0 "Ghost__c" (Mock.connected More.metadata_fails)
        = Ret tt w'
        /\ statistics w' = []
        /\ last_event (trace w') = Some (EvPrint (MsgError "Ghost__c" "INVALID_TYPE"))).
Proof.
  split.
  - eexists. split; [script_more|].
    edestruct (export_ends_with_record_or_error (R:=Mock.Remote) 0 "Account"
                 (Mock.connected Scenario.empty_object))
      as [(t1 & today & Hst & Hl) | (e & Hst & Hl)]; [script_more | |].
    + split; [reflexivity | reflexivity].
    + split; reflexivity.
  - eexists. split; [script_more|].
    edestruct (export_ends_with_record_or_error (R:=Mock.Remote) 0 "Ghost__c"
                 (Mock.connected More.metadata_fails))
      as [(t1 & today & Hst & Hl) | (e & Hst & Hl)]; [script_more | |];
      split; reflexivity.
Defined.

(** Two fields labelled ["Name"]: the row has the one column ["Name"],
    with the value of the second field. *)
Lemma shared_label_keeps_last_field_witness :
  let row := make_row (invert_labels More.shared_label) More.named_record in
  dict_get row "Name" = Some (VStr "Acme") /\ dict_keys row = ["Name"].
Proof.
  destruct (shared_label_keeps_last_field [("Name", "Name")] []
              "Account_Name__c" "Name" More.named_record)
    as (Hget & _ & _).
  - simpl. tauto.
  - split; [exact Hget | vm_compute; reflexivity].
Defined.

(** The objects [Order__c] and [Order] share the sheet name ["Order"]. *)
Lemma sheet_name_ignores_suffix_witness :
  sheet_name_of "Order__c" = sheet_name_of "Order"
  /\ sheet_name_of "Order" = "Order".
Proof.
  split; [|reflexivity].
  apply (sheet_name_ignores_suffix "Order"). reflexivity.
Defined.

(** A run whose login is refused five times. *)
Lemma login_failure_aborts_run_witness :
  exists w',
    run_with 0 ["Account"] (new_process Scenario.login_never) = Ret tt w'
    /\ last_event (trace w')
       = Some (EvPrint (MsgPipelineFailed "Max retries reached, Salesforce login failed."))
    /\ count_events after_setup (trace w') = 0%nat
    /\ statistics w' = [].
Proof.
  edestruct (login_failure_aborts_run (R:=Mock.Remote) 0 ["Account"]
               (new_process Scenario.login_never))
    as (w' & Hrun & Hlast & Hc & (_ & Hst)).
  - reflexivity.
  - do 5 (eapply login_fails_cons; [script_more|]). apply login_fails_nil.
  - reflexivity.
  - exists w'. split; [exact Hrun | split; [exact Hlast | split; [exact Hc|]]].
    exact Hst.
Defined.

(** Two flushes in one process, the first without a statistics file: the
    second hands over the rows of the two records twice. *)
Lemma second_flush_repeats_rows_witness :
  exists w1 w2,
    save_statistics Scenario.first_run = Ret tt w1
    /\ save_statistics w1 = Ret tt w2
    /\ last (filter (fun e => is_write e = true) (trace w2))
       = Some (EvToCsv "files/Pipeline_Logs.csv"
                 [ [ ("Object Name", VStr "Account"); ("Start Time", VInt 0);
                     ("End Time", VInt 4); ("Duration (Seconds)", VInt 4);
                     ("Last Refresh Date", VStr "2025-01-30") ];
                   [ ("Object Name", VStr "Contact"); ("Start Time", VInt 4);
                     ("End Time", VInt 9); ("Duration (Seconds)", VInt 5);
                     ("Last Refresh Date", VStr "2025-01-30") ];
                   [ ("Object Name", VStr "Account"); ("Start Time", VInt 0);
                     ("End Time", VInt 4); ("Duration (Seconds)", VInt 4);
                     ("Last Refresh Date", VStr "2025-01-30") ];
                   [ ("Object Name", VStr "Contact"); ("Start Time", VInt 4);
                     ("End Time", VInt 9); ("Duration (Seconds)", VInt 5);
                     ("Last Refresh Date", VStr "2025-01-30") ] ]).
Proof.
  epose proof (second_flush_repeats_rows (R:=Mock.Remote) Scenario.first_run
                 _ [] _ _ _ _) as Hthm.
  edestruct Hthm as (_ & Hsecond).
  - apply file_absent. vm_compute. reflexivity.
  - vm_compute. reflexivity.
  - eapply file_read; vm_compute; reflexivity.
  - eexists _, _. split; [vm_compute; reflexivity|].
    vm_compute in Hsecond. destruct Hsecond as (_ & printed & Htr).
    split; [vm_compute; reflexivity|]. vm_compute. reflexivity.
Defined.

(** A run whose folders, login and writer construction succeed: it stops
    at the [async with] statement. *)
Lemma run_stops_at_the_writer_witness :
  exists w',
    run_with 0 ["Account"] (new_process More.one_object) = Ret tt w'
    /\ statistics w' = []
    /\ trace w'
       = [ EvEnsureFolders; EvLogin; EvPrint MsgLoginOk;
           EvWriterOpen "files/all_data.xlsx";
           EvPrint (MsgPipelineFailed
                      "'OpenpyxlWriter' object does not support the asynchronous context manager protocol") ].
Proof.
  destruct (run_stops_at_the_writer (R:=Mock.Remote) 0 ["Account"]
              (new_process More.one_object))
    as (w' & reason & evs & Hrun & Hst & Htr & _ & Hreason).
  exists w'. split; [exact Hrun|]. split; [exact Hst|].
  vm_compute in Hrun. injection Hrun as <-. reflexivity.
Defined.
(** ** The Drive client *)

(** *** Suffixes and base names *)

Lemma rev_app_app (a b acc : string) :
  String.rev_app (a +:+ b) acc = String.rev_app b (String.rev_app a acc).
Proof.
  revert acc. induction a as [|c a IH]; intros acc; [reflexivity|].
  rewrite app_String. cbn [String.rev_app]. apply IH.
Qed.

Lemma rev_app_acc (s acc : string) :
  String.rev_app s acc = String.rev_app s "" +:+ acc.
Proof.
  revert acc. induction s as [|c s IH]; intros acc; [reflexivity|].
  cbn [String.rev_app]. rewrite (IH (String c acc)), (IH (String c "")).
  generalize (String.rev_app s ""). intros r.
  induction r as [|d r IHr]; [reflexivity|].
  rewrite !app_String, IHr. reflexivity.
Qed.

Lemma rev_app_rev_app (s a b : string) :
  String.rev_app (String.rev_app s a) b = String.rev_app a (s +:+ b).
Proof.
  revert a b. induction s as [|c s IH]; intros a b; [reflexivity|].
  cbn [String.rev_app]. rewrite IH. reflexivity.
Qed.

Lemma app_empty_r (s : string) : s +:+ "" = s.
Proof. induction s as [|c s IH]; [reflexivity|]. rewrite app_String, IH. reflexivity. Qed.

Lemma rev_involutive (s : string) : String.rev (String.rev s) = s.
Proof. unfold String.rev. rewrite rev_app_rev_app. apply app_empty_r. Qed.

Lemma rev_app_distr (a b : string) :
  String.rev (a +:+ b) = String.rev b +:+ String.rev a.
Proof. unfold String.rev. rewrite rev_app_app. apply rev_app_acc. Qed.

(** [s.endswith(suffix)] holds exactly of the strings that are some stem
    followed by [suffix]. *)
Lemma str_endswith_spec (s suffix : string) :
  str_endswith s suffix = true <-> exists stem, s = stem +:+ suffix.
Proof.
  unfold str_endswith. rewrite prefix_app. split.
  - intros [post Hpost]. exists (String.rev post).
    rewrite <- (rev_involutive s), Hpost, rev_app_distr, rev_involutive.
    reflexivity.
  - intros [stem ->]. exists (String.rev stem). apply rev_app_distr.
Qed.

Lemma str_in_app_r (sub a b : string) :
  str_in sub b = true -> str_in sub (a +:+ b) = true.
Proof.
  intros Hb. induction a as [|c a IH]; [exact Hb|].
  rewrite app_String, str_in_cons, IH. apply orb_true_r.
Qed.

Lemma str_in_slash_head (s : string) : str_in "/" ("/" +:+ s) = true.
Proof. destruct s; reflexivity. Qed.

(** The base name of [a/name] is [name], when [name] has no separator. *)
Lemma basename_app_slash (a name : string) :
  str_in "/" name = false ->
  os_path_basename (a +:+ "/" +:+ name) = name.
Proof.
  intros Hn. induction a as [|c a IH].
  - change (os_path_basename ("" +:+ "/" +:+ name))
      with (if str_in "/" ("/" +:+ name)
            then (if str_in "/" name then os_path_basename name else name)
            else "/" +:+ name).
    rewrite str_in_slash_head, Hn. reflexivity.
  - rewrite app_String. cbn [os_path_basename].
    assert (Hin : str_in "/" (a +:+ "/" +:+ name) = true).
    { apply str_in_app_r, str_in_slash_head. }
    rewrite str_in_cons, Hin, orb_true_r. exact IH.
Qed.

Lemma basename_plain (name : string) :
  str_in "/" name = false -> os_path_basename name = name.
Proof.
  intros Hn. destruct name as [|c name]; [reflexivity|].
  cbn [os_path_basename]. rewrite Hn. reflexivity.
Qed.

Lemma app_assoc_string (a b c : string) : (a +:+ b) +:+ c = a +:+ b +:+ c.
Proof. induction a as [|x a IH]; [reflexivity|]. rewrite !app_String, IH. reflexivity. Qed.

(** The path the upload loop builds for a directory entry has that entry as
    its base name. *)
Lemma basename_join (folder name : string) :
  str_in "/" name = false ->
  os_path_basename (os_path_join folder name) = name.
Proof.
  intros Hn. unfold os_path_join.
  assert (Hp : String.prefix "/" name = false).
  { destruct name as [|c name]; [reflexivity|].
    rewrite str_in_cons in Hn. apply orb_false_iff in Hn as [Hp _]. exact Hp. }
  rewrite Hp.
  destruct (String.eqb folder "") eqn:He.
  - apply String.eqb_eq in He as ->. cbn [orb].
    change ("" +:+ name) with name. apply basename_plain, Hn.
  - cbn [orb]. destruct (str_endswith folder "/") eqn:Hs.
    + apply str_endswith_spec in Hs as [stem ->].
      rewrite app_assoc_string. apply basename_app_slash, Hn.
    + apply basename_app_slash, Hn.
Qed.

(** X24.  The files the upload loop selects are exactly those whose name
    ends in [.xlsx] or in [.csv], in lower case. *)
Theorem is_upload_spec (filename : string) :
  is_upload filename = true
  <-> exists stem, filename = stem +:+ ".xlsx" \/ filename = stem +:+ ".csv".
Proof.
  unfold is_upload. rewrite orb_true_iff, !str_endswith_spec. split.
  - intros [[stem ->] | [stem ->]]; exists stem; [left | right]; reflexivity.
  - intros [stem [-> | ->]]; [left | right]; exists stem; reflexivity.
Qed.

Section DriveEffects.

Context {D : Type} `{DriveApi D}.

Lemma dframe_refl (s : DriveState D) : dframe s s.
Proof. repeat split. Qed.

Lemma dframe_trans (s1 s2 s3 : DriveState D) :
  dframe s1 s2 -> dframe s2 s3 -> dframe s1 s3.
Proof.
  intros (Ha & Hb & Hc) (Ha' & Hb' & Hc'). repeat split; congruence.
Qed.

Lemma keeps_dret {A} (a : A) : keeps (dret (D:=D) a).
Proof. intros s. split; [apply dframe_refl | exists []; symmetry; apply app_nil_r]. Qed.

Lemma keeps_draise {A} (e : exc) : keeps (draise (D:=D) (A:=A) e).
Proof. intros s. split; [apply dframe_refl | exists []; symmetry; apply app_nil_r]. Qed.

Lemma keeps_dbind {A B} (m : DM D A) (f : A -> DM D B) :
  keeps m -> (forall a, keeps (f a)) -> keeps (dbind m f).
Proof.
  intros Hm Hf s. unfold dbind. specialize (Hm s).
  destruct (m s) as [a s1 | e s1]; [|exact Hm].
  destruct Hm as (Hfr & evs & Htr). specialize (Hf a s1).
  destruct (f a s1) as [b s2 | e s2]; destruct Hf as (Hfr' & evs' & Htr');
    (split; [eapply dframe_trans; eassumption |
             exists (evs ++ evs'); rewrite Htr', Htr, app_assoc; reflexivity]).
Qed.

Lemma keeps_dtry {A} (body : DM D A) (handler : exc -> DM D A) :
  keeps body -> (forall e, keeps (handler e)) -> keeps (dtry body handler).
Proof.
  intros Hm Hf s. unfold dtry. specialize (Hm s).
  destruct (body s) as [a s1 | e s1]; [exact Hm|].
  destruct Hm as (Hfr & evs & Htr). specialize (Hf e s1).
  destruct (handler e s1) as [b s2 | e2 s2]; destruct Hf as (Hfr' & evs' & Htr');
    (split; [eapply dframe_trans; eassumption |
             exists (evs ++ evs'); rewrite Htr', Htr, app_assoc; reflexivity]).
Qed.

Lemma keeps_dcall {A} (ev : drive_event) (f : D -> reply A * D) : keeps (dcall ev f).
Proof.
  intros s. unfold dcall. destruct (f (gd_env s)) as [[a | x] d'];
    (split; [repeat split | exists [ev]; reflexivity]).
Qed.

Lemma keeps_dnow : keeps (dnow (D:=D)).
Proof.
  intros s. unfold dnow. destruct (gd_now (gd_env s)) as [t d'].
  split; [repeat split | exists []; symmetry; apply app_nil_r].
Qed.

Lemma keeps_dprint (line : string) : keeps (dprint (D:=D) line).
Proof. intros s. split; [repeat split | exists [DvPrint line]; reflexivity]. Qed.

Lemma keeps_on_service {A} (k : Service -> DM D A) :
  (forall svc, keeps (k svc)) -> keeps (on_service k).
Proof.
  intros Hk s. unfold on_service. destruct (service s) as [svc|]; [apply Hk|].
  split; [apply dframe_refl | exists []; symmetry; apply app_nil_r].
Qed.

Lemma keeps_item_id (d : dict string) : keeps (item_id (D:=D) d).
Proof. unfold item_id. destruct (dict_get d "id"); [apply keeps_dret | apply keeps_draise]. Qed.

Lemma keeps_upload_calls (file_path file_name : string) :
  keeps (upload_calls file_path file_name).
Proof.
  unfold upload_calls. apply keeps_dbind.
  { intros s. split; [apply dframe_refl | exists []; symmetry; apply app_nil_r]. }
  intros folder. apply keeps_dbind.
  { apply keeps_on_service. intros svc. apply keeps_dcall. }
  intros results. apply keeps_dbind.
  { destruct results; [apply keeps_dret | apply keeps_draise]. }
  intros files. apply keeps_dbind.
  { destruct files as [|first rest]; [apply keeps_dret|].
    apply keeps_dbind; [apply keeps_item_id | intros id; apply keeps_dret]. }
  intros file_id. apply keeps_dbind; [apply keeps_dcall|].
  intros _. destruct (truthy file_id);
    apply keeps_on_service; intros svc; apply keeps_dcall.
Qed.

Lemma keeps_upload_file (file_path : string) : keeps (upload_file file_path).
Proof.
  unfold upload_file. apply keeps_dbind; [apply keeps_dnow|].
  intros start_time. apply keeps_dtry.
  - apply keeps_dbind; [apply keeps_upload_calls|]. intros _.
    apply keeps_dbind; [apply keeps_dnow | intros t; apply keeps_dret].
  - intros e. apply keeps_dbind; [apply keeps_dnow | intros t; apply keeps_dret].
Qed.

(** What [upload_file] returns, by the outcome of its [try] block. *)
Lemma upload_file_log (file_path : string) (s : DriveState D) :
  exists log s',
    upload_file file_path s = DRet log s'
    /\ dict_keys log
       = ["Object Name"; "Operation"; "Start Date Time"; "End Date Time";
          "Duration (seconds)"; "Is Success"; "Message"]
    /\ log_name log = Some (VStr (os_path_basename file_path))
    /\ match upload_calls file_path (os_path_basename file_path)
               (snd (upload_started s)) with
       | DRet _ _ => log_success log = Some (VBool true)
       | DExn e _ =>
           log_success log = Some (VBool false)
           /\ dict_get log "Message"
              = Some (VStr ("Error: " +:+ exc_msg e +:+ newline +:+ "Traceback: "
                            +:+ gd_format_exc e))
       end.
Proof.
  unfold upload_file, upload_started, dbind, dtry, dnow.
  destruct (gd_now (gd_env s)) as [t0 d0]. cbn [snd].
  destruct (upload_calls _ _ _) as [[] s1 | e s1].
  - destruct (gd_now (gd_env s1)) as [t1 d1].
    eexists _, _. split; [reflexivity|]. repeat split.
  - destruct (gd_now (gd_env s1)) as [t1 d1].
    eexists _, _. split; [reflexivity|]. repeat split.
Qed.

(** The Drive calls of the [try] block of [upload_file]. *)
Lemma upload_calls_trace (file_path file_name : string) (s : DriveState D) :
  match upload_calls file_path file_name s with
  | DRet _ s' =>
      exists svc files w,
        service s = Some svc
        /\ fst (gd_list svc (file_query file_name (folder_id s)) (gd_env s))
           = Returns (Some files)
        /\ upload_write file_name (folder_id s) files = Some w
        /\ gd_trace s'
           = gd_trace s ++ [DvList (file_query file_name (folder_id s));
                            DvMedia file_path; w]
  | DExn _ s' =>
      exists evs,
        gd_trace s' = gd_trace s ++ evs
        /\ (length (drive_writes evs) <= 1)%nat
  end.
Proof.
  unfold upload_calls, dbind, on_service at 1.
  destruct (service s) as [svc|] eqn:Hsvc;
    [|exists []; split; [symmetry; apply app_nil_r | cbn; lia]].
  unfold dcall at 1.
  destruct (gd_list svc _ (gd_env s)) as [[[files|] | x] d1] eqn:Hlist;
    cbn [dret draise gd_env service folder_id logs gd_trace];
    try (eexists [_]; split; [reflexivity | cbn; lia]).
  destruct files as [|first rest].
  - cbn [dret]. unfold dcall at 1. cbn [gd_env service folder_id logs gd_trace].
    destruct (gd_media file_path d1) as [[[] | x] d2];
      [| eexists [_; _]; split; [rewrite <- app_assoc; reflexivity | cbn; lia]].
    cbn [truthy]. unfold on_service, dcall.
    cbn [gd_env service folder_id logs gd_trace]. rewrite Hsvc.
    destruct (gd_create svc file_name (folder_id s) d2) as [[[] | x] d3].
    + exists svc, [], (DvCreate file_name (folder_id s)).
      rewrite Hlist. repeat split. rewrite <- !app_assoc. reflexivity.
    + eexists [_; _; _]. split; [rewrite <- !app_assoc; reflexivity | cbn; lia].
  - unfold item_id. destruct (dict_get first "id") as [id|] eqn:Hid;
      cbn [dret draise];
      [| eexists [_]; split; [reflexivity | cbn; lia]].
    unfold dcall at 1. cbn [gd_env service folder_id logs gd_trace].
    destruct (gd_media file_path d1) as [[[] | x] d2];
      [| eexists [_; _]; split; [rewrite <- app_assoc; reflexivity | cbn; lia]].
    destruct (truthy (Some id)) eqn:Htr; unfold on_service, dcall;
      cbn [gd_env service folder_id logs gd_trace]; rewrite Hsvc;
      change (str_of (Some id)) with id.
    + destruct (gd_update svc id d2) as [[[] | x] d3].
      * exists svc, (first :: rest), (DvUpdate id).
        rewrite Hlist. cbn [upload_write]. rewrite Hid, Htr.
        repeat split. rewrite <- !app_assoc. reflexivity.
      * eexists [_; _; _]. split; [rewrite <- !app_assoc; reflexivity | cbn; lia].
    + destruct (gd_create svc file_name (folder_id s) d2) as [[[] | x] d3].
      * exists svc, (first :: rest), (DvCreate file_name (folder_id s)).
        rewrite Hlist. cbn [upload_write]. rewrite Hid, Htr.
        repeat split. rewrite <- !app_assoc. reflexivity.
      * eexists [_; _; _]. split; [rewrite <- !app_assoc; reflexivity | cbn; lia].
Qed.

End DriveEffects.

Section DriveUpload.

Context {D : Type} `{DriveApi D}.

(** X17.  An upload never raises and leaves the client as it
    was.  It returns a log with the same seven keys in the same order,
    filed under the base name of the path; the log says success exactly
    when the calls of the [try] block all returned, and otherwise carries
    the message of the exception that ended them. *)
Theorem upload_file_always_logs (file_path : string) (s : DriveState D) :
  exists log s',
    upload_file file_path s = DRet log s'
    /\ dframe s s'
    /\ dict_keys log
       = ["Object Name"; "Operation"; "Start Date Time"; "End Date Time";
          "Duration (seconds)"; "Is Success"; "Message"]
    /\ log_name log = Some (VStr (os_path_basename file_path))
    /\ match upload_calls file_path (os_path_basename file_path)
               (snd (upload_started s)) with
       | DRet _ _ => log_success log = Some (VBool true)
       | DExn e _ =>
           log_success log = Some (VBool false)
           /\ dict_get log "Message"
              = Some (VStr ("Error: " +:+ exc_msg e +:+ newline +:+ "Traceback: "
                            +:+ gd_format_exc e))
       end.
Proof.
  destruct (upload_file_log file_path s) as (log & s' & Hrun & Hkeys & Hname & Hout).
  exists log, s'. split; [exact Hrun|].
  pose proof (keeps_upload_file file_path s) as Hk. rewrite Hrun in Hk.
  destruct Hk as [Hfr _].
  split; [exact Hfr | split; [exact Hkeys | split; [exact Hname | exact Hout]]].
Qed.

(** X18.  An upload calls at most one of [update] and [create],
    and a successful one exactly one: [update] on the first listed file
    when the listing has an entry with a non-empty id, [create] under the
    folder of the client otherwise.  A successful upload makes three
    calls, in this order: it lists the folder, builds the media object
    and writes. *)
Theorem upload_writes_at_most_once (file_path : string) (s s' : DriveState D)
    (log : dict value) :
  upload_file file_path s = DRet log s' ->
  exists evs,
    gd_trace s' = gd_trace s ++ evs
    /\ (length (drive_writes evs) <= 1)%nat
    /\ (log_success log = Some (VBool true) ->
        exists svc files w,
          service s = Some svc
          /\ fst (gd_list svc
                    (file_query (os_path_basename file_path) (folder_id s))
                    (gd_env (snd (upload_started s))))
             = Returns (Some files)
          /\ upload_write (os_path_basename file_path) (folder_id s) files = Some w
          /\ evs = [ DvList (file_query (os_path_basename file_path) (folder_id s));
                     DvMedia file_path; w ]
          /\ drive_writes evs = [w]).
Proof.
  intros Hrun. unfold upload_file, dbind, dtry, dnow in Hrun.
  unfold upload_started.
  destruct (gd_now (gd_env s)) as [t0 d0]. cbn [snd gd_env].
  pose proof (upload_calls_trace file_path (os_path_basename file_path)
                (mkDriveState d0 (service s) (folder_id s) (logs s) (gd_trace s)))
    as Htr.
  cbn [gd_env service folder_id logs gd_trace] in Htr.
  destruct (upload_calls _ _ _) as [[] s1 | e s1].
  - destruct (gd_now (gd_env s1)) as [t1 d1].
    unfold dret in Hrun. inversion Hrun as [[Hlog Hs']]. clear Hrun.
    cbn [gd_trace].
    destruct Htr as (svc & files & w & Hsvc & Hlist & Hw & Htrace).
    eexists. split; [exact Htrace|].
    assert (Hwrites : drive_writes
                        [DvList (file_query (os_path_basename file_path) (folder_id s));
                         DvMedia file_path; w] = [w]).
    { unfold upload_write in Hw.
      destruct files as [|first rest].
      - inversion Hw. reflexivity.
      - destruct (dict_get first "id") as [id|]; [|discriminate].
        destruct (truthy (Some id)); inversion Hw; reflexivity. }
    split; [rewrite Hwrites; cbn; lia|].
    intros _. exists svc, files, w.
    split; [exact Hsvc | split; [exact Hlist | split; [exact Hw|]]].
    split; [reflexivity | exact Hwrites].
  - destruct (gd_now (gd_env s1)) as [t1 d1].
    unfold dret in Hrun. inversion Hrun as [[Hlog Hs']]. clear Hrun.
    cbn [gd_trace].
    destruct Htr as (evs & Htrace & Hlen).
    exists evs. split; [exact Htrace | split; [exact Hlen|]].
    intros Hsuccess. discriminate Hsuccess.
Qed.

(** The upload loop: one log per selected name, whatever the uploads do. *)
Lemma upload_each_returns (local_folder : string) (filenames : list string)
    (s : DriveState D) :
  exists s' new,
    upload_each local_folder filenames s = DRet tt s'
    /\ service s' = service s /\ folder_id s' = folder_id s
    /\ logs s' = logs s ++ new
    /\ map log_name new
       = map (fun n => Some (VStr (os_path_basename (os_path_join local_folder n))))
           (List.filter is_upload filenames).
Proof.
  revert s. induction filenames as [|filename rest IH]; intros s.
  - exists s, []. cbn. rewrite app_nil_r. repeat split.
  - cbn [upload_each List.filter]. unfold dbind.
    destruct (is_upload filename) eqn:Hsel.
    + destruct (upload_file_log (os_path_join local_folder filename) s)
        as (log & s1 & Hrun & _ & Hname & _).
      pose proof (keeps_upload_file (os_path_join local_folder filename) s) as Hk.
      rewrite Hrun in Hk. destruct Hk as ((Hsv & Hfo & Hlo) & _).
      rewrite Hrun. unfold append_log.
      destruct (IH (mkDriveState (gd_env s1) (service s1) (folder_id s1)
                      (logs s1 ++ [log]) (gd_trace s1)))
        as (s' & new & Hloop & Hsv' & Hfo' & Hlo' & Hnames).
      cbn [service folder_id logs gd_trace] in Hsv', Hfo', Hlo'.
      exists s', (log :: new). split; [exact Hloop|].
      split; [congruence | split; [congruence|]].
      split; [rewrite Hlo', Hlo, <- app_assoc; reflexivity|].
      cbn [map]. rewrite Hname, Hnames. reflexivity.
    + unfold dret. apply IH.
Qed.

(** X19.  The loop never raises; it appends one log per
    directory entry whose name ends in [.xlsx] or [.csv], in the order of
    the listing and filed under that name, whether the uploads succeed or
    not, and leaves the service and the folder of the client alone. *)
Theorem upload_loop_logs_each_selected_file (local_folder : string)
    (filenames : list string) (s : DriveState D) :
  Forall (fun n => str_in "/" n = false) filenames ->
  exists s' new,
    upload_each local_folder filenames s = DRet tt s'
    /\ service s' = service s /\ folder_id s' = folder_id s
    /\ logs s' = logs s ++ new
    /\ map log_name new
       = map (fun n => Some (VStr n)) (List.filter is_upload filenames).
Proof.
  intros Hplain.
  destruct (upload_each_returns local_folder filenames s)
    as (s' & new & Hloop & Hsv & Hfo & Hlo & Hnames).
  exists s', new. split; [exact Hloop|].
  split; [exact Hsv | split; [exact Hfo | split; [exact Hlo|]]].
  rewrite Hnames. clear - Hplain.
  induction Hplain as [|n rest Hn _ IH]; [reflexivity|].
  cbn [List.filter]. destruct (is_upload n); [|exact IH].
  cbn [map]. rewrite basename_join by exact Hn. rewrite IH. reflexivity.
Qed.

(** X20.  Once the client is authenticated, the folder
    is known and the directory is listed, the phase ends with the line
    that reports success, with one log per selected file, whatever the
    uploads did. *)
Theorem upload_phase_reports_success (local_folder : string)
    (filenames : list string) (s s1 s2 : DriveState D) :
  authenticate s = DRet tt s1 ->
  get_or_create_folder s1 = DRet tt s2 ->
  fst (gd_listdir local_folder (gd_env s2)) = Returns filenames ->
  exists s',
    upload_phase local_folder s = DRet tt s'
    /\ last (gd_trace s') = Some (DvPrint "Pipeline completed successfully!")
    /\ length (logs s')
       = (length (logs s2) + length (List.filter is_upload filenames))%nat.
Proof.
  intros Hauth Hfolder Hdir. unfold upload_phase, dbind.
  rewrite Hauth, Hfolder. unfold dcall.
  destruct (gd_listdir local_folder (gd_env s2)) as [r d3].
  cbn [fst] in Hdir. subst r.
  destruct (upload_each_returns local_folder filenames
              (mkDriveState d3 (service s2) (folder_id s2) (logs s2)
                 (gd_trace s2 ++ [DvListDir local_folder])))
    as (s3 & new & Hloop & _ & _ & Hlo & Hnames).
  rewrite Hloop. unfold dprint. eexists. split; [reflexivity|].
  cbn [gd_trace logs]. split; [apply last_snoc|].
  cbn [logs] in Hlo. rewrite Hlo, length_app.
  f_equal. rewrite <- (length_map log_name), Hnames, length_map. reflexivity.
Qed.

End DriveUpload.

Section DriveSetup.

Context {D : Type} `{DriveApi D}.

(** The four ways in which [authenticate] returns. *)
Lemma authenticate_traces (s s' : DriveState D) :
  authenticate s = DRet tt s' ->
  let file := DriveConfig.CREDENTIALS_FILE in
  exists c svc evs,
    service s' = Some svc /\ folder_id s' = folder_id s /\ logs s' = logs s
    /\ gd_trace s' = gd_trace s ++ evs
    /\ let done := [DvBuild c; DvPrint "Google Drive authentication successful!"] in
       (cred_valid c = true
        /\ evs = [DvPathExists file; DvLoadCredentials file] ++ done)
       \/ evs = [DvPathExists file; DvLoadCredentials file; DvRefresh;
                 DvWriteToken file c] ++ done
       \/ evs = [DvPathExists file; DvLoadCredentials file; DvFlow file;
                 DvWriteToken file c] ++ done
       \/ evs = [DvPathExists file; DvFlow file; DvWriteToken file c] ++ done.
Proof.
  intros Hrun file. unfold authenticate, dbind in Hrun. fold file in Hrun.
  destruct (gd_path_exists file (gd_env s)) as [[|] d1].
  - unfold dcall at 1 in Hrun. cbn [gd_env service folder_id logs gd_trace] in Hrun.
    destruct (gd_from_authorized_user_file file d1) as [[c | x] d2];
      [|discriminate Hrun].
    cbn [dret] in Hrun. destruct (cred_valid c) eqn:Hvalid.
    + unfold dret, dcall, set_service, dprint in Hrun.
      cbn [gd_env service folder_id logs gd_trace] in Hrun.
      destruct (gd_build c d2) as [[svc | x] d3]; [|discriminate Hrun].
      inversion Hrun as [Hs']. clear Hrun. cbn [service folder_id logs gd_trace].
      exists c, svc. eexists. repeat split.
      * rewrite <- !app_assoc. reflexivity.
      * left. split; [exact Hvalid | reflexivity].
    + destruct (cred_expired c && truthy (cred_refresh_token c)).
      * unfold dret, dcall, set_service, dprint in Hrun.
        cbn [gd_env service folder_id logs gd_trace] in Hrun.
        destruct (gd_refresh c d2) as [[c' | x] d3]; [|discriminate Hrun].
        cbn [gd_env service folder_id logs gd_trace] in Hrun.
        destruct (gd_write_token file c' d3) as [[[] | x] d4]; [|discriminate Hrun].
        cbn [gd_env service folder_id logs gd_trace] in Hrun.
        destruct (gd_build c' d4) as [[svc | x] d5]; [|discriminate Hrun].
        inversion Hrun as [Hs']. clear Hrun. cbn [service folder_id logs gd_trace].
        exists c', svc. eexists. repeat split.
        -- rewrite <- !app_assoc. reflexivity.
        -- right. left. reflexivity.
      * unfold run_flow, dret, dcall, set_service, dprint in Hrun. fold file in Hrun.
        cbn [gd_env service folder_id logs gd_trace] in Hrun.
        destruct (gd_run_flow file d2) as [[c' | x] d3]; [|discriminate Hrun].
        cbn [gd_env service folder_id logs gd_trace] in Hrun.
        destruct (gd_write_token file c' d3) as [[[] | x] d4]; [|discriminate Hrun].
        cbn [gd_env service folder_id logs gd_trace] in Hrun.
        destruct (gd_build c' d4) as [[svc | x] d5]; [|discriminate Hrun].
        inversion Hrun as [Hs']. clear Hrun. cbn [service folder_id logs gd_trace].
        exists c', svc. eexists. repeat split.
        -- rewrite <- !app_assoc. reflexivity.
        -- right. right. left. reflexivity.
  - unfold run_flow, dret, dcall, set_service, dprint in Hrun. fold file in Hrun.
    cbn [gd_env service folder_id logs gd_trace] in Hrun.
    destruct (gd_run_flow file d1) as [[c' | x] d3]; [|discriminate Hrun].
    cbn [gd_env service folder_id logs gd_trace] in Hrun.
    destruct (gd_write_token file c' d3) as [[[] | x] d4]; [|discriminate Hrun].
    cbn [gd_env service folder_id logs gd_trace] in Hrun.
    destruct (gd_build c' d4) as [[svc | x] d5]; [|discriminate Hrun].
    inversion Hrun as [Hs']. clear Hrun. cbn [service folder_id logs gd_trace].
    exists c', svc. eexists. repeat split.
    + rewrite <- !app_assoc. reflexivity.
    + right. right. right. reflexivity.
Qed.

(** X21.  When [authenticate] returns, the service is set and
    was built from credentials that are either the stored ones, valid as
    they were (then nothing was renewed and the credentials file was not
    written), or renewed ones (by one refresh or one consent flow), which
    were written to the credentials file exactly once before the service
    was built. *)
Theorem authenticate_saves_renewed_credentials (s s' : DriveState D) :
  authenticate s = DRet tt s' ->
  exists c svc evs,
    service s' = Some svc /\ folder_id s' = folder_id s /\ logs s' = logs s
    /\ gd_trace s' = gd_trace s ++ evs
    /\ In (DvBuild c) evs
    /\ ((cred_valid c = true
         /\ List.filter is_renewal evs = []
         /\ List.filter is_token_write evs = [])
        \/ (length (List.filter is_renewal evs) = 1%nat
            /\ List.filter is_token_write evs
               = [DvWriteToken DriveConfig.CREDENTIALS_FILE c])).
Proof.
  intros Hrun.
  destruct (authenticate_traces s s' Hrun)
    as (c & svc & evs & Hsv & Hfo & Hlo & Htr & Hcases).
  exists c, svc, evs.
  split; [exact Hsv | split; [exact Hfo | split; [exact Hlo | split; [exact Htr|]]]].
  cbv zeta in Hcases.
  destruct Hcases as [[Hvalid ->] | [-> | [-> | ->]]].
  - split; [cbn; tauto|]. left. split; [exact Hvalid | split; reflexivity].
  - split; [cbn; tauto|]. right. split; reflexivity.
  - split; [cbn; tauto|]. right. split; reflexivity.
  - split; [cbn; tauto|]. right. split; reflexivity.
Qed.

(** X22.  The consent flow reads its client secrets from the
    very file that [authenticate] then overwrites with the token. *)
Theorem flow_secrets_file_is_overwritten (s s' : DriveState D) (path : string)
    (before after : list drive_event) :
  authenticate s = DRet tt s' ->
  gd_trace s' = gd_trace s ++ before ++ DvFlow path :: after ->
  exists c rest, after = DvWriteToken path c :: rest.
Proof.
  intros Hrun Htrace.
  destruct (authenticate_traces s s' Hrun)
    as (c & svc & evs & _ & _ & _ & Htr & Hcases).
  rewrite Htr in Htrace. apply app_inv_head in Htrace. subst evs.
  cbv zeta in Hcases.
  assert (Hsplit : forall (l : list drive_event) tail,
             ~ In (DvFlow path) l ->
             forall p, before ++ DvFlow path :: after = l ++ DvFlow p :: tail ->
             (forall e, In e tail -> e <> DvFlow path) ->
             after = tail /\ p = path).
  { clear. intros l tail Hl p Heq Htail.
    revert l Hl Heq. induction before as [|b before IH]; intros l Hl Heq.
    - destruct l as [|x l].
      + inversion Heq. split; reflexivity.
      + inversion Heq as [[Hx Hrest]]. subst x. exfalso. apply Hl. left. reflexivity.
    - destruct l as [|x l].
      + inversion Heq as [[Hb Hrest]]. exfalso.
        apply (Htail (DvFlow path)); [|reflexivity].
        rewrite <- Hrest. apply in_or_app. right. left. reflexivity.
      + inversion Heq as [[Hb Hrest]]. apply (IH l); [|exact Hrest].
        intros Hin. apply Hl. right. exact Hin. }
  destruct Hcases as [[_ Heq] | [Heq | [Heq | Heq]]].
  - exfalso.
    assert (Hin : In (DvFlow path) (before ++ DvFlow path :: after)).
    { apply in_or_app. right. left. reflexivity. }
    rewrite Heq in Hin. cbn in Hin.
    repeat (destruct Hin as [Hin | Hin]; [discriminate Hin|]). exact Hin.
  - exfalso.
    assert (Hin : In (DvFlow path) (before ++ DvFlow path :: after)).
    { apply in_or_app. right. left. reflexivity. }
    rewrite Heq in Hin. cbn in Hin.
    repeat (destruct Hin as [Hin | Hin]; [discriminate Hin|]). exact Hin.
  - destruct (Hsplit [DvPathExists DriveConfig.CREDENTIALS_FILE;
                      DvLoadCredentials DriveConfig.CREDENTIALS_FILE]
                _ ltac:(cbn; intros [Hx | [Hx | []]]; discriminate Hx)
                _ Heq) as [-> ->].
    + cbn. intros e [<- | [<- | [<- | []]]]; discriminate.
    + eexists _, _. reflexivity.
  - destruct (Hsplit [DvPathExists DriveConfig.CREDENTIALS_FILE]
                _ ltac:(cbn; intros [Hx | []]; discriminate Hx)
                _ Heq) as [-> ->].
    + cbn. intros e [<- | [<- | [<- | []]]]; discriminate.
    + eexists _, _. reflexivity.
Qed.

(** X23.  When it returns, the folder of the client is
    set: to the id of the first listed folder, without any [create], when
    the listing has an entry; to the id of the folder that its one
    [create] call returns, when the listing is empty or the result has no
    listing. *)
Theorem folder_is_found_or_created (s s' : DriveState D) :
  get_or_create_folder s = DRet tt s' ->
  exists svc listing id,
    service s = Some svc
    /\ fst (gd_list svc folder_query (gd_env s)) = Returns listing
    /\ folder_id s' = Some id /\ service s' = service s /\ logs s' = logs s
    /\ match default [] listing with
       | first :: _ =>
           dict_get first "id" = Some id
           /\ gd_trace s' = gd_trace s ++ [DvList folder_query]
       | [] =>
           exists folder,
             fst (gd_create_folder svc DRIVE_FOLDER_NAME
                    (snd (gd_list svc folder_query (gd_env s))))
             = Returns folder
             /\ dict_get folder "id" = Some id
             /\ gd_trace s'
                = gd_trace s ++ [DvList folder_query; DvCreateFolder DRIVE_FOLDER_NAME]
       end.
Proof.
  intros Hrun. unfold get_or_create_folder, dbind, on_service at 1 in Hrun.
  destruct (service s) as [svc|] eqn:Hsvc; [|discriminate Hrun].
  unfold dcall at 1 in Hrun.
  destruct (gd_list svc folder_query (gd_env s)) as [[listing | x] d1] eqn:Hlist;
    [|discriminate Hrun].
  destruct (default [] listing) as [|first rest] eqn:Hfolders.
  - unfold on_service, dcall in Hrun.
    cbn [gd_env service folder_id logs gd_trace] in Hrun. rewrite Hsvc in Hrun.
    destruct (gd_create_folder svc DRIVE_FOLDER_NAME d1) as [[folder | x] d2]
      eqn:Hcreate; [|discriminate Hrun].
    unfold item_id in Hrun.
    destruct (dict_get folder "id") as [id|] eqn:Hid; [|discriminate Hrun].
    unfold dret, set_folder_id in Hrun. inversion Hrun as [Hs']. clear Hrun.
    cbn [gd_env service folder_id logs gd_trace].
    exists svc, listing, id. rewrite Hlist, Hfolders.
    split; [first [exact Hsvc | reflexivity] | split; [reflexivity|]]. repeat split.
    exists folder. cbn [snd]. rewrite Hcreate.
    split; [reflexivity | split; [exact Hid | rewrite <- app_assoc; reflexivity]].
  - unfold item_id in Hrun.
    destruct (dict_get first "id") as [id|] eqn:Hid; [|discriminate Hrun].
    unfold dret, set_folder_id in Hrun. inversion Hrun as [Hs']. clear Hrun.
    cbn [gd_env service folder_id logs gd_trace].
    exists svc, listing, id. rewrite Hlist, Hfolders.
    split; [first [exact Hsvc | reflexivity] | split; [reflexivity|]].
    repeat split; first [exact Hsvc | exact Hid].
Qed.

End DriveSetup.

(** *** Scripted uploads *)

(** The file is already listed in the folder: one [update] of that file. *)
Lemma upload_writes_at_most_once_witness :
  exists log s',
    upload_file "files/all_data.xlsx" (DriveMock.ready DriveMock.file_listed)
    = DRet log s'
    /\ log_success log = Some (VBool true)
    /\ gd_trace s'
       = [ DvList "name='all_data.xlsx' and 'folder-1' in parents and trashed=false";
           DvMedia "files/all_data.xlsx"; DvUpdate "file-7" ].
Proof.
  edestruct (upload_writes_at_most_once (D:=DriveMock.Remote) "files/all_data.xlsx"
               (DriveMock.ready DriveMock.file_listed))
    as (evs & Htr & _ & Hsuccess).
  - lazy. reflexivity.
  - eexists _, _. split; [lazy; reflexivity|]. split; [reflexivity|].
    destruct Hsuccess as (svc & files & w & _ & Hlist & Hw & Hevs & _);
      [reflexivity|].
    lazy in Hlist. inversion Hlist as [Hfiles]. subst files.
    lazy in Hw. inversion Hw as [Hw']. subst w.
    cbn [gd_trace DriveMock.ready app] in Htr. rewrite Htr, Hevs. reflexivity.
Defined.

(** A directory with a workbook, a text file and the statistics file. *)
Lemma upload_loop_logs_each_selected_file_witness :
  exists s' new,
    upload_each "files" ["all_data.xlsx"; "notes.txt"; "Pipeline_Logs.csv"]
      (DriveMock.ready DriveMock.file_absent) = DRet tt s'
    /\ logs s' = new
    /\ map log_name new
       = [Some (VStr "all_data.xlsx"); Some (VStr "Pipeline_Logs.csv")].
Proof.
  edestruct (upload_loop_logs_each_selected_file (D:=DriveMock.Remote) "files"
               ["all_data.xlsx"; "notes.txt"; "Pipeline_Logs.csv"]
               (DriveMock.ready DriveMock.file_absent))
    as (s' & new & Hloop & _ & _ & Hlogs & Hnames).
  - repeat (apply Forall_cons; split; [reflexivity|]). apply Forall_nil_2.
  - exists s', new. split; [exact Hloop|]. split; [exact Hlogs | exact Hnames].
Defined.

(** Drive answers no listing of a file: both uploads fail, and the phase
    still ends with the line that reports success. *)
Lemma upload_phase_reports_success_witness :
  exists s',
    upload_phase "files" (DriveMock.fresh DriveMock.drive_down) = DRet tt s'
    /\ last (gd_trace s') = Some (DvPrint "Pipeline completed successfully!")
    /\ map log_success (logs s') = [Some (VBool false); Some (VBool false)].
Proof.
  edestruct (upload_phase_reports_success (D:=DriveMock.Remote) "files"
               ["all_data.xlsx"; "notes.txt"; "Pipeline_Logs.csv"]
               (DriveMock.fresh DriveMock.drive_down))
    as (s' & Hrun & Hlast & _).
  - lazy. reflexivity.
  - lazy. reflexivity.
  - reflexivity.
  - exists s'. split; [exact Hrun | split; [exact Hlast|]].
    lazy in Hrun. inversion Hrun as [Hs']. reflexivity.
Defined.

(** Expired credentials with a refresh token: refreshed and saved. *)
Lemma authenticate_saves_renewed_credentials_witness :
  exists s',
    authenticate (DriveMock.fresh DriveMock.expired_token) = DRet tt s'
    /\ service s' = Some (mkService DriveMock.fresh_creds)
    /\ List.filter is_token_write (gd_trace s')
       = [DvWriteToken "credentials/google.json" DriveMock.fresh_creds].
Proof.
  edestruct (authenticate_saves_renewed_credentials (D:=DriveMock.Remote)
               (DriveMock.fresh DriveMock.expired_token))
    as (c & svc & evs & Hsv & _ & _ & Htr & Hbuild & Hcases).
  - lazy. reflexivity.
  - eexists. split; [lazy; reflexivity|]. split; reflexivity.
Defined.

(** No stored credentials: the consent flow reads the file that is then
    overwritten. *)
Lemma flow_secrets_file_is_overwritten_witness :
  exists c rest,
    [DvWriteToken "credentials/google.json" DriveMock.fresh_creds;
     DvBuild DriveMock.fresh_creds;
     DvPrint "Google Drive authentication successful!"]
    = DvWriteToken "credentials/google.json" c :: rest.
Proof.
  eapply (flow_secrets_file_is_overwritten (D:=DriveMock.Remote)
            (DriveMock.fresh DriveMock.no_token) _ "credentials/google.json"
            [DvPathExists "credentials/google.json"]).
  - lazy. reflexivity.
  - reflexivity.
Defined.

(** No folder of the configured name: one is created. *)
Lemma folder_is_found_or_created_witness :
  exists s',
    get_or_create_folder (DriveMock.ready DriveMock.no_folder) = DRet tt s'
    /\ folder_id s' = Some "folder-9"
    /\ List.filter is_folder_creation (gd_trace s') = [DvCreateFolder "ELEVENIQ"].
Proof.
  edestruct (folder_is_found_or_created (D:=DriveMock.Remote)
               (DriveMock.ready DriveMock.no_folder))
    as (svc & listing & id & _ & Hlist & Hid & _ & _ & Hcase).
  - lazy. reflexivity.
  - eexists. split; [lazy; reflexivity|].
    lazy in Hlist. inversion Hlist as [Hl]. subst listing.
    cbn in Hcase.
    destruct Hcase as (folder & Hcreated & Hfolder & Htr).
    lazy in Hcreated. inversion Hcreated as [Hf]. subst folder.
    lazy in Hfolder. inversion Hfolder as [Hi]. subst id.
    split; [exact Hid|]. rewrite Htr. reflexivity.
Defined.
